(** * Fusion manufacturing pipeline: order validation and orchestration

    A shallow embedding of the Python sources of the add-in
    ([validator.py], [parameter_manager.py], [cam_manager.py],
    [post_processor.py], [order_processor.py]) together with the
    properties of the order engine that are stated about them.

    Conventions of the embedding.
    - A parsed JSON document is a value of [json]; a Python [dict] read
      from JSON is the list of its items, keys distinct, in insertion
      order.  A JSON float is the finite number it denotes.
    - A Python [str] is a [string] that holds the bytes of its UTF-8
      encoding.  The character classes ([isdigit], [isspace]) are decided
      here on ASCII and by the run-time on every other character.
    - A function that may raise returns a [result]; code that talks to
      the CAD host runs in a state-and-exception monad over the host. *)

From Stdlib Require Import String Ascii List ZArith QArith Qround Bool Lia Arith
  DecimalString DecimalPos DecimalZ.
Import ListNotations.
Open Scope string_scope.
Open Scope nat_scope.

(** [xs +++ ys] is list append; [++] is kept for strings. *)
Infix "+++" := (@app _) (at level 61, left associativity).

(* ===================================================================== *)
(** * Python values and built-ins *)
(* ===================================================================== *)

Module Py.

(** ** Text *)

Definition nl : string := String (ascii_of_nat 10) EmptyString.

(** The double quote, for the literals of the source that hold one. *)
Definition dq : string := String (ascii_of_nat 34) EmptyString.

(** [str(n)] for a non-negative machine-independent integer. *)
Definition str_of_nat (n : nat) : string :=
  NilZero.string_of_uint (Nat.to_uint n).

(** [str(z)] for a Python [int]. *)
Definition str_of_Z (z : Z) : string :=
  NilZero.string_of_int (Z.to_int z).

(** [sep.join(parts)]. *)
Definition join (sep : string) (parts : list string) : string :=
  String.concat sep parts.

(** ** Exceptions *)

Inductive exn_kind :=
| AttributeError | TypeError | ValueError | UnboundLocalError
| OSError | RuntimeError.

(** An exception is its class and the text [str(e)] gives. *)
Record exn := mkExn { exn_class : exn_kind; exn_text : string }.

Inductive result (A : Type) :=
| Ok (a : A)
| Raise (e : exn).
Arguments Ok {A} a.
Arguments Raise {A} e.

Definition bind {A B} (r : result A) (k : A -> result B) : result B :=
  match r with
  | Ok a => k a
  | Raise e => Raise e
  end.

Definition raised {A} (r : result A) : bool :=
  match r with Ok _ => false | Raise _ => true end.

(** ** Characters *)

Definition is_ascii (c : ascii) : bool := nat_of_ascii c <? 128.

(** A byte that carries on a character begun before it. *)
Definition is_continuation (c : ascii) : bool :=
  let n := nat_of_ascii c in (128 <=? n) && (n <? 192).

Definition continues (s : string) : bool :=
  match s with
  | String c _ => is_continuation c
  | EmptyString => false
  end.

(** The characters of a [str]: an ASCII byte is a character; a byte
    that is not ASCII is a character together with the continuation
    bytes that follow it. *)
Fixpoint characters (s : string) : list string :=
  match s with
  | EmptyString => []
  | String c r =>
      if negb (is_ascii c) && continues r then
        match characters r with
        | h :: t => String c h :: t
        | [] => [String c EmptyString]
        end
      else String c EmptyString :: characters r
  end.

Fixpoint all_chars (p : ascii -> bool) (s : string) : bool :=
  match s with
  | EmptyString => true
  | String c r => p c && all_chars p r
  end.

(** What the run-time decides and the source cannot tell: the classes
    of the characters that are not ASCII, [int] of a text that holds
    such a character, the greatest number of digits [int] and [str]
    convert ([sys.get_int_max_str_digits()]: 0 where the run-time has
    no such bound, and never less than 640 otherwise), and the [repr]
    of a [str]. *)
Record runtime := {
  digit_char : string -> bool;
  space_char : string -> bool;
  int_text : string -> result Z;
  int_max_str_digits : nat;
  str_repr : string -> string
}.

Definition is_digit (c : ascii) : bool :=
  let n := nat_of_ascii c in (48 <=? n) && (n <=? 57).

(** [c.isspace()] on ASCII: tab, line feed, vertical tab, form feed,
    carriage return, the four separators 28..31 and the blank. *)
Definition is_space (c : ascii) : bool :=
  let n := nat_of_ascii c in
  ((9 <=? n) && (n <=? 13)) || ((28 <=? n) && (n <=? 32)).

(** A class of characters: decided by [p] on an ASCII character, by
    the run-time's [q] on any other. *)
Definition in_class (p : ascii -> bool) (q : string -> bool)
    (ch : string) : bool :=
  match ch with
  | String c EmptyString => if is_ascii c then p c else q ch
  | _ => q ch
  end.

Definition digit_character (u : runtime) : string -> bool :=
  in_class is_digit (digit_char u).

Definition space_character (u : runtime) : string -> bool :=
  in_class is_space (space_char u).

(** [s.isdigit()]: at least one character and all of them digits. *)
Definition isdigit (u : runtime) (s : string) : bool :=
  match characters s with
  | [] => false
  | chs => forallb (digit_character u) chs
  end.

Fixpoint drop_spaces (u : runtime) (chs : list string) : list string :=
  match chs with
  | ch :: r => if space_character u ch then drop_spaces u r else chs
  | [] => []
  end.

(** [s.strip()]. *)
Definition strip (u : runtime) (s : string) : string :=
  String.concat ""
    (rev (drop_spaces u (rev (drop_spaces u (characters s))))).

(** [s.split(c)] for a one-character separator. *)
Fixpoint split (c : ascii) (s : string) : list string :=
  match s with
  | EmptyString => [EmptyString]
  | String a r =>
      if Ascii.eqb a c then EmptyString :: split c r
      else match split c r with
           | h :: t => String a h :: t
           | [] => [String a EmptyString]
           end
  end.

(** [pat in s] on strings. *)
Fixpoint contains (pat s : string) : bool :=
  String.prefix pat s ||
  match s with
  | EmptyString => false
  | String _ r => contains pat r
  end.

Definition nonempty (s : string) : bool :=
  match s with EmptyString => false | _ => true end.

(** ** [int(text)] and [str(number)] *)

Definition digit_value (c : ascii) : Z := Z.of_nat (nat_of_ascii c - 48).

(** The blanks [int] skips around an ASCII literal: tab, line feed,
    vertical tab, form feed, carriage return and the blank. *)
Definition c_space (c : ascii) : bool :=
  let n := nat_of_ascii c in ((9 <=? n) && (n <=? 13)) || (n =? 32).

Fixpoint skip_blanks (s : string) : string :=
  match s with
  | String c r => if c_space c then skip_blanks r else s
  | EmptyString => EmptyString
  end.

(** The digits at the head of a literal: digits, with single
    underscores allowed between two of them.  [acc] is the value read so
    far, [digits] the number of digits read and [after_digit] tells
    whether the previous character was a digit.  The scan gives the
    value, the number of digits and the text behind them. *)
Fixpoint scan_digits (s : string) (acc : Z) (digits : nat)
    (after_digit : bool) : option (Z * nat * string) :=
  match s with
  | EmptyString => if after_digit then Some (acc, digits, s) else None
  | String c r =>
      if is_digit c
      then scan_digits r (10 * acc + digit_value c)%Z (S digits) true
      else if Ascii.eqb c "_"%char
      then (if after_digit then scan_digits r acc digits false else None)
      else if after_digit then Some (acc, digits, s) else None
  end.

Definition invalid_literal (u : runtime) (s : string) : exn :=
  mkExn ValueError
    ("invalid literal for int() with base 10: " ++ str_repr u s).

(** More digits than the run-time converts. *)
Definition exceeds (u : runtime) (digits : nat) : bool :=
  negb (int_max_str_digits u =? 0) && (int_max_str_digits u <? digits).

Definition too_many_digits (u : runtime) (digits : nat) : exn :=
  mkExn ValueError
    ("Exceeds the limit (" ++ str_of_nat (int_max_str_digits u)
     ++ " digits) for integer string conversion: value has "
     ++ str_of_nat digits
     ++ " digits; use sys.set_int_max_str_digits() to increase the limit").

(** [int(s)] on a string.  An ASCII text is read here: blanks around,
    an optional sign, the digits, whose number is then held against the
    bound of the run-time; a text with other characters is the
    run-time's to read. *)
Definition py_int (u : runtime) (s : string) : result Z :=
  if all_chars is_ascii s then
    let t := skip_blanks s in
    let '(negative, body) :=
      match t with
      | String "-"%char r => (true, r)
      | String "+"%char r => (false, r)
      | _ => (false, t)
      end in
    match scan_digits body 0 0 false with
    | Some (n, digits, rest) =>
        if exceeds u digits then Raise (too_many_digits u digits)
        else
          match skip_blanks rest with
          | EmptyString => Ok (if negative then - n else n)%Z
          | _ => Raise (invalid_literal u s)
          end
    | None => Raise (invalid_literal u s)
    end
  else int_text u s.

(** The number of digits of a text. *)
Fixpoint digit_count (s : string) : nat :=
  match s with
  | EmptyString => 0
  | String c r => (if is_digit c then 1 else 0) + digit_count r
  end.

(** [str(z)] does not raise: [z] has no more digits than the run-time
    converts. *)
Definition printable (u : runtime) (z : Z) : bool :=
  negb (exceeds u (digit_count (str_of_Z z))).

(** ** JSON values as [json.load] returns them *)

#[local] Set Warnings "-register-all".
Inductive json :=
| JNull
| JBool (b : bool)
| JInt (z : Z)
| JFloat (q : Q)
| JStr (s : string)
| JArr (items : list json)
| JObj (items : list (string * json)).

(** [type(v).__name__]. *)
Definition type_name (v : json) : string :=
  match v with
  | JNull => "NoneType"
  | JBool _ => "bool"
  | JInt _ => "int"
  | JFloat _ => "float"
  | JStr _ => "str"
  | JArr _ => "list"
  | JObj _ => "dict"
  end.

(** Truth value of [v] in a condition. *)
Definition truthy (v : json) : bool :=
  match v with
  | JNull => false
  | JBool b => b
  | JInt z => negb (z =? 0)%Z
  | JFloat q => negb (Qeq_bool q 0)
  | JStr s => nonempty s
  | JArr l => match l with [] => false | _ => true end
  | JObj l => match l with [] => false | _ => true end
  end.

Definition is_dict (v : json) : bool :=
  match v with JObj _ => true | _ => false end.
Definition is_list (v : json) : bool :=
  match v with JArr _ => true | _ => false end.
Definition is_str (v : json) : bool :=
  match v with JStr _ => true | _ => false end.
(** [isinstance(v, bool)]. *)
Definition is_bool (v : json) : bool :=
  match v with JBool _ => true | _ => false end.
(** [isinstance(v, int)]: [bool] is a subclass of [int]. *)
Definition is_int (v : json) : bool :=
  match v with JInt _ | JBool _ => true | _ => false end.
Definition is_float (v : json) : bool :=
  match v with JFloat _ => true | _ => false end.

(** Items of a [dict], looked up by key. *)
Fixpoint lookup {V} (k : string) (items : list (string * V)) : option V :=
  match items with
  | [] => None
  | (k', v) :: r => if String.eqb k k' then Some v else lookup k r
  end.

(** [k in d]. *)
Definition has_key {V} (k : string) (items : list (string * V)) : bool :=
  match lookup k items with Some _ => true | None => false end.

(** [d.get(k)]: [None] when the key is absent. *)
Definition get (items : list (string * json)) (k : string) : json :=
  match lookup k items with Some v => v | None => JNull end.

(** [d.get(k, default)]. *)
Definition get_default (items : list (string * json)) (k : string)
    (default : json) : json :=
  match lookup k items with Some v => v | None => default end.

(** [v.get] on something that is not a [dict]. *)
Definition no_attribute (v : json) (attr : string) : exn :=
  mkExn AttributeError
    ("'" ++ type_name v ++ "' object has no attribute '" ++ attr ++ "'").

(** Hashing [v], as a [set] does before it looks [v] up. *)
Definition hashable (v : json) : bool :=
  match v with JArr _ | JObj _ => false | _ => true end.

Definition unhashable (v : json) : exn :=
  mkExn TypeError ("unhashable type: '" ++ type_name v ++ "'").

(** The number a [bool], [int] or [float] stands for. *)
Definition numeric (v : json) : option Q :=
  match v with
  | JBool b => Some (if b then 1 else 0)%Q
  | JInt z => Some (inject_Z z)
  | JFloat q => Some q
  | _ => None
  end.

(** [a == b] on hashable values: numbers compare by value across
    [bool], [int] and [float]. *)
Definition py_eq (a b : json) : bool :=
  match a, b with
  | JNull, JNull => true
  | JStr s, JStr t => String.eqb s t
  | _, _ =>
      match numeric a, numeric b with
      | Some x, Some y => Qeq_bool x y
      | _, _ => false
      end
  end.

(** [v in seen] for a [set] kept as the list of its elements. *)
Definition member (v : json) (seen : list json) : bool :=
  existsb (py_eq v) seen.

(** [len(v)]. *)
Definition py_len (v : json) : result nat :=
  match v with
  | JStr s => Ok (length (characters s))
  | JArr l => Ok (length l)
  | JObj l => Ok (length l)
  | _ => Raise (mkExn TypeError
                  ("object of type '" ++ type_name v ++ "' has no len()"))
  end.

Definition chars (s : string) : list json := map JStr (characters s).

(** The elements [for x in v] runs through: the items of a list, the
    keys of a dict, the characters of a string. *)
Definition py_iter (v : json) : result (list json) :=
  match v with
  | JArr l => Ok l
  | JObj l => Ok (map (fun kv => JStr (fst kv)) l)
  | JStr s => Ok (chars s)
  | _ => Raise (mkExn TypeError
                  ("'" ++ type_name v ++ "' object is not iterable"))
  end.

(** A local variable read before any assignment to it. *)
Definition unbound_local (x : string) : exn :=
  mkExn UnboundLocalError
    ("cannot access local variable '" ++ x
     ++ "' where it is not associated with a value").

(** [str(v)] as an f-string interpolates it.  The scalars are rendered
    here; the [repr] of floats and containers is the run-time's, taken
    as [repr]. *)
Definition py_str (repr : json -> string) (v : json) : string :=
  match v with
  | JNull => "None"
  | JBool true => "True"
  | JBool false => "False"
  | JInt z => str_of_Z z
  | JStr s => s
  | _ => repr v
  end.

End Py.
Import Py.

(* ===================================================================== *)
(** * validator.py *)
(* ===================================================================== *)

Module Validator.

(** ValidationResult: [(is_valid, error_messages)]. *)
Definition validation := (bool * list string)%type.

Definition _validate_version (u : runtime) (version : json) : bool :=
  match version with
  | JStr s =>
      let parts := split "."%char s in
      if negb (length parts =? 3) then false
      else forallb (isdigit u) parts
  | _ => false
  end.

Definition invalid_value_type (pfx param_name : string) : string :=
  pfx ++ ".parameters." ++ param_name ++ ": " ++
  "Invalid value type (must be number, string, or integer)".

Fixpoint _validate_parameters (parameters : list (string * json))
    (pfx : string) : list string :=
  match parameters with
  | [] => []
  | (param_name, param_value) :: rest =>
      (if negb (nonempty param_name)
       then [pfx ++ ".parameters: Invalid parameter name"]
       else if negb (is_int param_value || is_float param_value
                     || is_str param_value)
       then [invalid_value_type pfx param_name]
       else [])
      +++ _validate_parameters rest pfx
  end.

Definition prefix_of (index : nat) : string :=
  "Component[" ++ str_of_nat index ++ "]".

Definition component_required_fields : list string :=
  ["componentId"; "fusionModelPath"; "parameters"].

Definition _validate_component (component : json) (index : nat)
    : list string :=
  let pfx := prefix_of index in
  match component with
  | JObj c =>
      let errors :=
        flat_map (fun field =>
                    if negb (has_key field c)
                    then [pfx ++ ": Missing required field '" ++ field ++ "'"]
                    else [])
                 component_required_fields in
      let comp_id := get_default c "componentId" (JStr "") in
      let errors := errors +++
        (if negb (truthy comp_id) || negb (is_str comp_id)
         then [pfx ++ ": componentId must be a non-empty string"] else []) in
      let model_path := get_default c "fusionModelPath" (JStr "") in
      let errors := errors +++
        (if negb (truthy model_path) || negb (is_str model_path)
         then [pfx ++ ": fusionModelPath must be a non-empty string"]
         else []) in
      let errors := errors +++
        (match get c "parameters" with
         | JNull => []
         | JObj parameters => _validate_parameters parameters pfx
         | _ => [pfx ++ ": parameters must be an object"]
         end) in
      let errors := errors +++
        (match lookup "setupNames" c with
         | None => []
         | Some (JArr setup_names) =>
             if negb (forallb is_str setup_names)
             then [pfx ++ ": All setupNames must be strings"] else []
         | Some _ => [pfx ++ ": setupNames must be an array"]
         end) in
      let errors := errors +++
        (match lookup "postProcessorConfig" c with
         | None => []
         | Some (JObj _) => []
         | Some _ => [pfx ++ ": postProcessorConfig must be an object"]
         end) in
      errors
  | _ => [pfx ++ ": Must be an object"]
  end.

Definition _validate_output_config (config : json) : list string :=
  match config with
  | JObj c =>
      (match lookup "baseDirectory" c with
       | Some base_dir =>
           if negb (is_str base_dir)
           then ["outputConfig.baseDirectory must be a string"] else []
       | None => []
       end)
      +++
      (match lookup "includeTimestamp" c with
       | Some include_ts =>
           if negb (is_bool include_ts)
           then ["outputConfig.includeTimestamp must be a boolean"] else []
       | None => []
       end)
  | _ => ["outputConfig must be an object"]
  end.

Definition required_fields : list string :=
  ["version"; "orderId"; "components"].

Definition missing_field (field : string) : string :=
  "Missing required field: '" ++ field ++ "'".

(** The errors of the required-field loop of [validate_order]. *)
Definition missing_fields (order_data : list (string * json)) : list string :=
  flat_map (fun field =>
              if negb (has_key field order_data) then [missing_field field]
              else [])
           required_fields.

Section WithRepr.

Variable u : runtime.
(** [repr] of the values [py_str] does not render itself. *)
Variable repr : json -> string.

(** The loop over [enumerate(components)]: [idx] is the index of the
    head of [components], [errors] and [component_ids] are the loop
    variables of the source. *)
Fixpoint validate_components (components : list json) (idx : nat)
    (errors : list string) (component_ids : list json)
    : result (list string) :=
  match components with
  | [] => Ok errors
  | component :: rest =>
      let errors := errors +++ _validate_component component idx in
      match component with
      | JObj c =>
          let comp_id := get c "componentId" in
          if truthy comp_id then
            if hashable comp_id then
              let errors :=
                if member comp_id component_ids
                then errors +++
                     ["Duplicate componentId: '" ++ py_str repr comp_id ++ "'"]
                else errors in
              validate_components rest (S idx) errors
                                  (comp_id :: component_ids)
            else Raise (unhashable comp_id)
          else validate_components rest (S idx) errors component_ids
      | _ => Raise (no_attribute component "get")
      end
  end.

Definition validate_order (order_data : json) : result validation :=
  match order_data with
  | JObj od =>
      let errors := missing_fields od in
      if match errors with [] => false | _ => true end
      then Ok (false, errors)
      else
        let version := get_default od "version" (JStr "") in
        let errors := errors +++
          (if negb (_validate_version u version)
           then ["Invalid version format: '" ++ py_str repr version
                 ++ "' (expected X.Y.Z)"]
           else []) in
        let errors := errors +++
          (if negb (truthy (get od "orderId"))
           then ["orderId cannot be empty"] else []) in
        let components := get_default od "components" (JArr []) in
        bind
          (match components with
           | JArr [] =>
               Ok (errors +++
                   ["components array must contain at least 1 item"])
           | JArr cs => validate_components cs 0 errors []
           | _ => Ok (errors +++ ["components must be an array"])
           end)
          (fun errors =>
             let errors := errors +++
               (match lookup "outputConfig" od with
                | Some config => _validate_output_config config
                | None => []
                end) in
             Ok (length errors =? 0, errors))
  | _ => Ok (false, ["Order must be a JSON object"])
  end.

End WithRepr.

End Validator.


(* ===================================================================== *)
(** * parameter_manager.py *)
(* ===================================================================== *)

Module ParameterManager.

(** [design.userParameters]: the user parameters of the open design,
    each with its expression text. *)
Definition store := list (string * string).

Fixpoint write (name text : string) (params : store) : store :=
  match params with
  | [] => []
  | (n, old) :: rest =>
      if String.eqb name n then (n, text) :: rest
      else (n, old) :: write name text rest
  end.

Section WithHost.

Variable repr : json -> string.

(** The setter of [param.expression] in the CAD host: it takes the
    value and keeps an expression text, or it raises. *)
Variable set_expression : store -> string -> json -> result string.

Definition update_parameter (param_name : string) (new_value : json)
    (params : store) : (bool * string) * store :=
  match lookup param_name params with
  | None =>
      ((false, "Parameter '" ++ param_name ++ "' not found in model"),
       params)
  | Some old_value =>
      match set_expression params param_name new_value with
      | Ok text =>
          ((true, "Updated '" ++ param_name ++ "' from '" ++ old_value
                  ++ "' to '" ++ py_str repr new_value ++ "'"),
           write param_name text params)
      | Raise e =>
          ((false, "Failed to update '" ++ param_name ++ "': "
                   ++ exn_text e),
           params)
      end
  end.

Fixpoint update_parameters_batch (parameters : list (string * json))
    (params : store) : list (string * bool * string) * store :=
  match parameters with
  | [] => ([], params)
  | (param_name, new_value) :: rest =>
      let '((success, message), params) :=
        update_parameter param_name new_value params in
      let '(results, params) := update_parameters_batch rest params in
      ((param_name, success, message) :: results, params)
  end.

End WithHost.

End ParameterManager.

(* ===================================================================== *)
(** * cam_manager.py *)
(* ===================================================================== *)

Module CAMManager.

(** A machining operation as the host shows it.  [error] and
    [warning] hold [str(operation.error)] and [str(operation.warning)];
    [None] stands for an attribute that is missing, falsy or whose
    read raises. *)
Record operation := {
  op_name : string;
  isSuppressed : bool;
  hasToolpath : bool;
  error : option string;
  warning : option string
}.

Record setup := {
  name : string;
  allOperations : list operation
}.

(** [document.products.itemByProductType('CAMProductType')] and what
    [adsk.cam.CAM.cast] makes of it. *)
Record product := {
  is_cam : bool;
  setups : list setup
}.

Definition setup_result := (string * bool * string)%type.

(** [text and text.strip()] on an optional attribute. *)
Definition has_text (u : runtime) (attr : option string) : bool :=
  match attr with
  | Some text => nonempty text && nonempty (strip u text)
  | None => false
  end.

(** Loop variables of the verification of one setup. *)
Record tally := {
  warning_messages : list string;
  operations_with_toolpaths : nat;
  operations_total : nat
}.

Definition check_operation (u : runtime) (t : tally) (o : operation)
    : tally :=
  let total := S (operations_total t) in
  if isSuppressed o then
    {| warning_messages :=
         warning_messages t +++ ["'" ++ op_name o ++ "' is suppressed (skipped)"];
       operations_with_toolpaths := operations_with_toolpaths t;
       operations_total := total |}
  else
    let '(with_tp, warnings) :=
      if hasToolpath o then
        (S (operations_with_toolpaths t), warning_messages t)
      else if has_text u (error o) then
        (operations_with_toolpaths t,
         warning_messages t +++ ["'" ++ op_name o ++ "' (pre-existing error)"])
      else
        (operations_with_toolpaths t,
         warning_messages t +++ ["'" ++ op_name o ++ "' (no toolpath generated)"])
    in
    let warnings :=
      match warning o with
      | Some warning_text =>
          if has_text u (warning o)
          then warnings +++ ["'" ++ op_name o ++ "': " ++ warning_text]
          else warnings
      | None => warnings
      end in
    {| warning_messages := warnings;
       operations_with_toolpaths := with_tp;
       operations_total := total |}.

Definition check_operations (u : runtime) (ops : list operation) : tally :=
  fold_left (check_operation u) ops
    {| warning_messages := []; operations_with_toolpaths := 0;
       operations_total := 0 |}.

(** The verification of one setup once generation has completed. *)
Definition verify_setup (u : runtime) (s : setup) : setup_result :=
  let t := check_operations u (allOperations s) in
  let with_tp := operations_with_toolpaths t in
  let total := operations_total t in
  if 0 <? with_tp then
    let msg := "Regenerated " ++ str_of_nat with_tp ++ "/"
               ++ str_of_nat total ++ " toolpaths" in
    let failed_count := total - with_tp in
    let msg :=
      match warning_messages t with
      | [] => msg
      | _ => if 0 <? failed_count
             then msg ++ " (" ++ str_of_nat failed_count
                  ++ " operation(s) have errors - not regenerated)"
             else msg
      end in
    (name s, true, msg)
  else if (0 <? total) && (total <=? length (warning_messages t)) then
    (name s, true,
     "All " ++ str_of_nat total ++ " operation(s) have errors - none regenerated")
  else
    (name s, false,
     "No operations regenerated (" ++ str_of_nat total ++ " total)").

(** What the captured setups read as once generation has ended: the
    host's account of them, position by position; a setup the host gives
    no account of reads as before. *)
Fixpoint as_read (setups live : list setup) : list setup :=
  match setups, live with
  | _ :: rest, l :: live' => l :: as_read rest live'
  | _, [] => setups
  | [], _ :: _ => []
  end.

(** The loop over the setups, [i] the position of the head:
    [all_success] is cleared when a setup is recorded as failed.
    [read_fault i] is the exception, if any, that reading the setup at
    position [i] or one of its operations raises; the loop ends there
    with the results it has. *)
Fixpoint verify_setups (u : runtime) (read_fault : nat -> option exn)
    (i : nat) (live : list setup) (results : list setup_result)
    (all_success : bool) : list setup_result * result bool :=
  match live with
  | [] => (results, Ok all_success)
  | s :: rest =>
      match read_fault i with
      | Some e => (results, Raise e)
      | None =>
          let r := verify_setup u s in
          verify_setups u read_fault (S i) rest (results +++ [r])
                        (if snd (fst r) then all_success else false)
      end
  end.

Definition success_of (r : setup_result) : bool := snd (fst r).

Section WithHost.

Variable u : runtime.
(** The message box and [cam.generateAllToolpaths(False)] followed
    by the wait for the future: the host raises, or generation ends
    with the flag [future.isGenerationCompleted] as read after the wait
    and the host's account of the captured setups. *)
Variable generate : list setup -> result (bool * list setup).
(** The reads of the verification that raise.  The names of the
    setups, which the [except] clause reads again, are taken to be
    readable there. *)
Variable read_fault : nat -> option exn.

Definition get_all_setups (cam_product : option product) : list setup :=
  match cam_product with
  | None => []
  | Some p => if is_cam p then setups p else []
  end.

Definition list_setup_names (cam_product : option product) : list string :=
  map name (get_all_setups cam_product).

Definition regenerate_all_toolpaths (cam_product : option product)
    : bool * string * list setup_result :=
  match cam_product with
  | None => (false, "CAM product not initialized", [])
  | Some p =>
      if negb (is_cam p) then (false, "Could not access CAM data", [])
      else
        let setups := get_all_setups cam_product in
        match setups with
        | [] => (false, "No CAM setups found in document", [])
        | _ =>
            let '(results, all_success) :=
              match generate setups with
              | Ok (completed, live) =>
                  let live := as_read setups live in
                  if negb completed then
                    (map (fun s => (name s, false,
                                    "Generation did not complete")) live,
                     false)
                  else
                    match verify_setups u read_fault 0 live [] true with
                    | (results, Ok all_success) => (results, all_success)
                    | (results, Raise e) =>
                        (results
                         +++ map (fun s => (name s, false,
                                            "Exception: " ++ exn_text e))
                                 live,
                         false)
                    end
              | Raise e =>
                  (map (fun s => (name s, false,
                                  "Exception: " ++ exn_text e)) setups,
                   false)
              end in
            let message :=
              if all_success then
                "All toolpaths regenerated successfully for "
                ++ str_of_nat (length setups) ++ " setup(s)"
              else
                "Toolpath regeneration failed for setup(s): "
                ++ join ", "
                     (map (fun r => fst (fst r))
                          (filter (fun r => negb (success_of r)) results))
            in
            (all_success, message, results)
        end
  end.

End WithHost.

End CAMManager.

(* ===================================================================== *)
(** * post_processor.py *)
(* ===================================================================== *)

Module PostProcessor.
Import CAMManager.

(** [nc_program_counter.txt] as the process finds it. *)
Inductive file_state :=
| Absent
| Unreadable
| Content (text : string).

(** Files of the output directory: name and size in bytes. *)
Definition directory := list (string * Z).

Record world := {
  counter_file : file_state;
  output_files : directory;
  (** message boxes shown so far, oldest first: text and title *)
  shown : list (string * string);
  (** calls of [time.time()] so far *)
  time_reads : nat
}.

Definition set_counter (f : file_state) (w : world) : world :=
  {| counter_file := f; output_files := output_files w;
     shown := shown w; time_reads := time_reads w |}.

Definition set_output (d : directory) (w : world) : world :=
  {| counter_file := counter_file w; output_files := d;
     shown := shown w; time_reads := time_reads w |}.

(** [self.ui.messageBox(text, title, ...)] once it is shown. *)
Definition message_box (text title : string) (w : world) : world :=
  {| counter_file := counter_file w; output_files := output_files w;
     shown := shown w +++ [(text, title)]; time_reads := time_reads w |}.

Definition tick (w : world) : world :=
  {| counter_file := counter_file w; output_files := output_files w;
     shown := shown w; time_reads := S (time_reads w) |}.

Definition post_result := (string * bool * string * option string)%type.

Definition posted (r : post_result) : bool := snd (fst (fst r)).

Section WithHost.

Variable u : runtime.
(** [time.time()]: the value of its k-th read. *)
Variable time : nat -> Q.
(** [str(self.output_dir / name)]: the path [pathlib] makes of the
    output directory and a file name. *)
Variable nc_path : string -> string.
(** [cam.genericPostFolder]. *)
Variable genericPostFolder : string.
(** [os.path.exists] on the post processor configuration. *)
Variable path_exists : string -> bool.
(** [PostProcessInput.create] and [cam.postProcess]: the engine
    works on the output directory, and may raise. *)
Variable postProcess :
  setup -> string -> directory -> result unit * directory.
(** [open(self.counter_file, 'w')] and [f.write] of a number: the
    exception, if one is raised, with the state the file is left in. *)
Variable write_fault : world -> Z -> option (exn * file_state).
(** The exception, if any, that a message box with this text raises. *)
Variable box_fault : string -> world -> option exn.

(** What the [try] block of [get_next_program_number] computes
    before it writes. *)
Definition read_next (f : file_state) : result Z :=
  match f with
  | Absent => Ok 1001%Z
  | Unreadable => Raise (mkExn OSError "Permission denied")
  | Content text => bind (py_int u (strip u text)) (fun last_number =>
                      Ok (last_number + 1)%Z)
  end.

(** [int(time.time() % 10000) + 1000] at the reading [t], a number of
    seconds since the epoch. *)
Definition time_derived (t : Q) : Z := (Qfloor t mod 10000 + 1000)%Z.

(** The [except] clause of [get_next_program_number]. *)
Definition clock_number (w : world) : Z * world :=
  (time_derived (time (time_reads w)), tick w).

(** The file is opened for writing, which empties it, before
    [str(next_number)] is formed and written. *)
Definition get_next_program_number (w : world) : Z * world :=
  match read_next (counter_file w) with
  | Ok next_number =>
      match write_fault w next_number with
      | Some (_, remains) => clock_number (set_counter remains w)
      | None =>
          if printable u next_number
          then (next_number, set_counter (Content (str_of_Z next_number)) w)
          else clock_number (set_counter (Content "") w)
      end
  | Raise _ => clock_number w
  end.

Definition has_valid_toolpath (s : setup) : bool :=
  existsb (fun o => hasToolpath o && negb (isSuppressed o))
          (allOperations s).

Definition post_process_setup (s : setup) (program_number : Z)
    (w : world) : (bool * string * option string) * world :=
  if negb (has_valid_toolpath s) then
    ((false, "Setup '" ++ name s ++ "' has no valid toolpaths to post",
      None), w)
  else
    let output_filename := str_of_Z program_number ++ ".nc" in
    let output_path := nc_path output_filename in
    let post_config := genericPostFolder ++ "/richauto.cps" in
    if negb (path_exists post_config) then
      ((false, "Post processor not found: " ++ post_config, None), w)
    else
      let '(outcome, files) :=
        postProcess s (str_of_Z program_number) (output_files w) in
      let w := set_output files w in
      match outcome with
      | Ok _ =>
          match lookup output_filename files with
          | Some file_size =>
              ((true, "Generated " ++ output_filename ++ " ("
                      ++ str_of_Z file_size ++ " bytes)",
                Some output_path), w)
          | None =>
              ((false, "Post process completed but file not found: "
                       ++ output_filename, None), w)
          end
      | Raise e =>
          ((false, "Post processing failed: " ++ exn_text e, None), w)
      end.

(** The loop of [post_process_all_setups]; a message box that raises
    ends it, and the call with it. *)
Fixpoint post_each (setups : list setup) (results : list post_result)
    (successful_posts : nat) (w : world)
    : result (list post_result * nat) * world :=
  match setups with
  | [] => (Ok (results, successful_posts), w)
  | s :: rest =>
      let '(program_number, w) := get_next_program_number w in
      let text := "Post processing setup:" ++ nl ++ name s ++ nl ++ nl
                  ++ "Program: " ++ str_of_Z program_number ++ ".nc" in
      match box_fault text w with
      | Some e => (Raise e, w)
      | None =>
          let w := message_box text "Generating G-code" w in
          let '((success, message, file_path), w) :=
            post_process_setup s program_number w in
          post_each rest
                    (results +++ [(name s, success, message, file_path)])
                    (if success then S successful_posts
                     else successful_posts)
                    w
      end
  end.

Definition post_process_all_setups (setups : list setup) (w : world)
    : result (bool * string * list post_result) * world :=
  match post_each setups [] 0 w with
  | (Raise e, w) => (Raise e, w)
  | (Ok (results, successful_posts), w) =>
      let n := str_of_nat (length setups) in
      if successful_posts =? length setups then
        (Ok (true, "All " ++ n ++ " setup(s) post processed successfully",
             results), w)
      else if 0 <? successful_posts then
        (Ok (true, str_of_nat successful_posts ++ "/" ++ n
                   ++ " setup(s) post processed successfully", results), w)
      else
        (Ok (false, "Post processing failed for all " ++ n ++ " setup(s)",
             results), w)
  end.

End WithHost.

End PostProcessor.

(* ===================================================================== *)
(** * order_processor.py *)
(* ===================================================================== *)

Module OrderProcessor.
Import CAMManager.

Definition param_result := (string * bool * string)%type.
Definition post_result := PostProcessor.post_result.
Definition regen_result :=
  (bool * string * list setup_result)%type.
Definition posts_result :=
  (bool * string * list post_result)%type.

Section WithHost.

(** Handles on the documents and designs of the CAD host. *)
Variables Document Design : Type.

(** What the orchestrator asks of its collaborators: the logger, the
    user interface, the file system, the CAD host and the three
    managers.  Each may answer or raise.  [ReadOrderFile] is [open] and
    [json.load]; [OpenDocument] is [self.open_document]; [DesignOf] is
    the cast of the document's design product; [UpdateParametersBatch]
    is [ParameterManager(design).update_parameters_batch]; the calls on
    a document from [GetCamProduct] on are the methods of the
    [CAMManager] made for it; [NewPostProcessor] and
    [PostProcessAllSetups] are the construction of the [PostProcessor]
    and its [post_process_all_setups]. *)
Inductive call : Type -> Type :=
| LoggerInfo (message : string) : call unit
| LoggerError (message : string) : call unit
| MessageBox (text title : string) : call unit
| ReadOrderFile (file_path : string) : call json
| OpenDocument (file_path : json) : call (bool * option Document)
| DesignOf (doc : Document) : call (option Design)
| UpdateParametersBatch (design : Design) (parameters : json)
    : call (list param_result)
| GetCamProduct (doc : Document) : call (bool * string)
| ListSetupNames (doc : Document) : call (list string)
| RegenerateAllToolpaths (doc : Document) : call regen_result
| NewPostProcessor (output_dir : string) : call unit
| GetAllSetups (doc : Document) : call (list setup)
| PostProcessAllSetups (doc : Document) (setups : list setup)
    : call posts_result.

(** One line of the record of a run: a call and its outcome. *)
Inductive entry :=
| Called (X : Type) (c : call X) (answer : result X).

Variable World : Type.
Variable host : forall X, call X -> World -> result X * World.
Variable repr : json -> string.
(** [os.path.basename]. *)
Variable basename : string -> string.

(** ** The monad: host state, record of the calls, exceptions *)

Definition state := (World * list entry)%type.
Definition M (A : Type) := state -> result A * state.

Definition ret {A} (a : A) : M A := fun s => (Ok a, s).
Definition raise {A} (e : exn) : M A := fun s => (Raise e, s).
Definition lift {A} (r : result A) : M A := fun s => (r, s).

Definition mbind {A B} (m : M A) (k : A -> M B) : M B :=
  fun s =>
    match m s with
    | (Ok a, s') => k a s'
    | (Raise e, s') => (Raise e, s')
    end.

(** [try: m  except Exception as e: h e]. *)
Definition catch {A} (m : M A) (h : exn -> M A) : M A :=
  fun s =>
    match m s with
    | (Ok a, s') => (Ok a, s')
    | (Raise e, s') => h e s'
    end.

Definition invoke {X} (c : call X) : M X :=
  fun s =>
    let '(answer, w) := host X c (fst s) in
    (answer, (w, snd s +++ [Called X c answer])).

Notation "x <- m ;; k" := (mbind m (fun x => k))
  (at level 100, m at next level, right associativity).
Notation "' p <- m ;; k" := (mbind m (fun x => let 'p := x in k))
  (at level 100, p pattern, m at next level, right associativity).
Notation "m ;; k" := (mbind m (fun _ => k))
  (at level 100, right associativity).

Fixpoint for_each {A} (f : A -> M unit) (l : list A) : M unit :=
  match l with
  | [] => ret tt
  | a :: r => f a ;; for_each f r
  end.

Definition str (v : json) : string := py_str repr v.

(** ** load_order_file *)

Definition load_order_file (file_path : string) : M json :=
  catch (invoke (ReadOrderFile file_path))
        (fun e =>
           invoke (MessageBox
                     ("Failed to load order file:" ++ nl ++ exn_text e)
                     "Error") ;;
           ret JNull).

(** ** process_component *)

Definition output_dir : string :=
  "C:\Users\james.derrod\OneDrive - Bobrick Washroom Equipment\Documents\Fusion 360\NC Programs".

(** [f'  • {name}: {msg}'] over the failed entries. *)
Definition failed_regen_details (results : list setup_result) : string :=
  join nl (map (fun r => "  • " ++ fst (fst r) ++ ": " ++ snd r)
               (filter (fun r => negb (success_of r)) results)).

Definition failed_post_details (results : list post_result) : string :=
  join nl (map (fun r => "  • " ++ fst (fst (fst r)) ++ ": "
                         ++ snd (fst r))
               (filter (fun r => negb (PostProcessor.posted r)) results)).

Definition program_line (r : post_result) : string :=
  let '(setup_name, success, msg, file_path) := r in
  if success then
    let filename :=
      match file_path with
      | Some p => if nonempty p then basename p else "unknown"
      | None => "unknown"
      end in
    "    • " ++ setup_name ++ ": " ++ filename ++ nl
  else "    • " ++ setup_name ++ ": FAILED (" ++ msg ++ ")" ++ nl.

(** The body of the [try] once [comp_id] is bound. *)
Definition component_steps (c : list (string * json)) (comp_id : string)
    (comp_num total_comps : nat) : M (bool * string) :=
  let fusion_file := get_default c "fusionModelPath" (JStr "") in
  let parameters := get_default c "parameters" (JObj []) in
  invoke (LoggerInfo ("Processing component " ++ str_of_nat comp_num ++ "/"
                      ++ str_of_nat total_comps ++ ": " ++ comp_id)) ;;
  invoke (LoggerInfo ("  Fusion file: " ++ str fusion_file)) ;;
  n_params <- lift (py_len parameters) ;;
  invoke (LoggerInfo ("  Parameters to apply: " ++ str_of_nat n_params)) ;;
  if negb (truthy fusion_file) then
    ret (false, comp_id ++ ": No fusionFile specified")
  else if negb (truthy parameters) then
    ret (false, comp_id ++ ": No parameters specified")
  else
  invoke (MessageBox ("Processing component " ++ str_of_nat comp_num
                      ++ " of " ++ str_of_nat total_comps ++ ":" ++ nl
                      ++ comp_id) "Processing") ;;
  ' (success, doc) <- invoke (OpenDocument fusion_file) ;;
  if negb success then
    ret (false, comp_id ++ ": Failed to open document: " ++ str fusion_file)
  else
  doc <- match doc with
         | Some d => ret d
         | None => raise (no_attribute JNull "products")
         end ;;
  design <- invoke (DesignOf doc) ;;
  match design with
  | None => ret (false, comp_id ++ ": No design found in document")
  | Some design =>
  invoke (LoggerInfo ("Applying parameters to " ++ comp_id)) ;;
  results <- invoke (UpdateParametersBatch design parameters) ;;
  for_each (fun r : param_result =>
              if snd (fst r) then invoke (LoggerInfo ("  ✓ " ++ snd r))
              else invoke (LoggerError ("  ✗ " ++ snd r)))
           results ;;
  let failed_params := filter (fun r : param_result => negb (snd (fst r)))
                              results in
  match failed_params with
  | _ :: _ =>
      ret (false,
           comp_id ++ ": Some parameters failed to update:" ++ nl
           ++ String.concat ""
                (map (fun r : param_result => "  " ++ snd r ++ nl)
                     failed_params))
  | [] =>
  let success_msg := comp_id ++ ": Successfully updated "
                     ++ str_of_nat n_params ++ " parameter(s)" in
  let details := join nl (map (fun r : param_result => "  " ++ snd r)
                              results) in
  invoke (MessageBox (success_msg ++ nl ++ nl ++ details)
                     "Parameters Updated") ;;
  invoke (LoggerInfo (comp_id ++ ": Parameter updates complete, "
                      ++ "starting CAM regeneration")) ;;
  invoke (LoggerInfo (comp_id ++ ": Accessing CAM product")) ;;
  ' (cam_success, cam_msg) <- invoke (GetCamProduct doc) ;;
  if negb cam_success then
    invoke (LoggerError (comp_id ++ ": " ++ cam_msg)) ;;
    ret (false, comp_id ++ ": CAM access failed: " ++ cam_msg)
  else
  invoke (LoggerInfo (comp_id ++ ": " ++ cam_msg)) ;;
  setup_names <- invoke (ListSetupNames doc) ;;
  invoke (LoggerInfo (comp_id ++ ": Found "
                      ++ str_of_nat (length setup_names)
                      ++ " CAM setup(s): " ++ join ", " setup_names)) ;;
  match setup_names with
  | [] => ret (false, comp_id ++ ": No CAM setups found in document")
  | _ :: _ =>
  invoke (MessageBox ("Found " ++ str_of_nat (length setup_names)
                      ++ " CAM setup(s):" ++ nl ++ "  • "
                      ++ join (nl ++ "  • ") setup_names
                      ++ nl ++ nl ++ "Regenerating toolpaths...")
                     "CAM Setups Found") ;;
  invoke (LoggerInfo (comp_id ++ ": Regenerating toolpaths for all setups")) ;;
  ' (regen_success, regen_msg, regen_results) <-
      invoke (RegenerateAllToolpaths doc) ;;
  for_each (fun r : setup_result =>
              let line := comp_id ++ ": Setup " ++ dq ++ fst (fst r) ++ dq
                          ++ ": " ++ snd r in
              if success_of r then invoke (LoggerInfo line)
              else invoke (LoggerError line))
           regen_results ;;
  if negb regen_success then
    invoke (LoggerError (comp_id ++ ": Toolpath regeneration failed: "
                         ++ regen_msg)) ;;
    invoke (MessageBox (comp_id ++ ": Toolpath regeneration FAILED!"
                        ++ nl ++ nl ++ regen_msg ++ nl ++ nl
                        ++ failed_regen_details regen_results)
                       "Toolpath Generation Failed") ;;
    ret (false, comp_id ++ ": Toolpath regeneration failed: " ++ regen_msg)
  else
  invoke (LoggerInfo (comp_id ++ ": Starting post processing")) ;;
  invoke (NewPostProcessor output_dir) ;;
  all_setups <- invoke (GetAllSetups doc) ;;
  invoke (MessageBox ("Toolpaths regenerated successfully!" ++ nl ++ nl
                      ++ "Starting post processing for "
                      ++ str_of_nat (length all_setups) ++ " setup(s)...")
                     "Post Processing") ;;
  ' (post_success, post_msg, post_results) <-
      invoke (PostProcessAllSetups doc all_setups) ;;
  for_each (fun r : post_result =>
              let line := comp_id ++ ": Post " ++ dq ++ fst (fst (fst r))
                          ++ dq ++ ": " ++ snd (fst r) in
              if PostProcessor.posted r then invoke (LoggerInfo line)
              else invoke (LoggerError line))
           post_results ;;
  let successful_posts := filter PostProcessor.posted post_results in
  match successful_posts with
  | [] =>
      invoke (LoggerError (comp_id ++ ": All post processing failed")) ;;
      invoke (MessageBox (comp_id ++ ": Post processing FAILED!"
                          ++ nl ++ nl ++ post_msg ++ nl ++ nl
                          ++ failed_post_details post_results)
                         "Post Processing Failed") ;;
      ret (false, comp_id ++ ": Post processing failed: " ++ post_msg)
  | _ :: _ =>
  invoke (LoggerInfo (comp_id ++ ": All operations complete")) ;;
  let final_msg :=
    comp_id ++ ": Processing complete!" ++ nl ++ nl
    ++ "✓ Updated " ++ str_of_nat n_params ++ " parameter(s)" ++ nl
    ++ "✓ Regenerated " ++ str_of_nat (length setup_names)
    ++ " CAM setup(s)" ++ nl
    ++ "✓ Generated " ++ str_of_nat (length successful_posts) ++ "/"
    ++ str_of_nat (length all_setups) ++ " NC program(s):" ++ nl
    ++ String.concat "" (map program_line post_results)
    ++ nl ++ "Output: " ++ output_dir in
  invoke (MessageBox final_msg "Component Complete") ;;
  ret (true, comp_id ++ ": Complete - "
             ++ str_of_nat (length successful_posts)
             ++ " NC file(s) generated")
  end end end end.

(** The [except] clause of [process_component]: it reads [comp_id],
    which is bound only if the first statement of the [try] ran. *)
Definition component_handler (comp_id : option string) (e : exn)
    : M (bool * string) :=
  match comp_id with
  | Some comp_id => ret (false, comp_id ++ ": Exception: " ++ exn_text e)
  | None => raise (unbound_local "comp_id")
  end.

Definition process_component (component : json)
    (comp_num total_comps : nat) : M (bool * string) :=
  match component with
  | JObj c =>
      let comp_id :=
        str (get_default c "componentId"
               (JStr ("Component" ++ str_of_nat comp_num))) in
      catch (component_steps c comp_id comp_num total_comps)
            (component_handler (Some comp_id))
  | _ => component_handler None (no_attribute component "get")
  end.

(** ** process_order *)

(** The loop over [enumerate(components)]; [idx] is the index of the
    head of [components]. *)
Fixpoint process_each (components : list json) (idx total : nat)
    : M (list (bool * string)) :=
  match components with
  | [] => ret []
  | component :: rest =>
      comp_result <- process_component component (idx + 1) total ;;
      results <- process_each rest (S idx) total ;;
      ret (comp_result :: results)
  end.

(** [f'  Component {i+1}: {msg}\n'] for the failed results, [i]
    counting from [idx]. *)
Fixpoint failed_lines (results : list (bool * string)) (idx : nat)
    : string :=
  match results with
  | [] => ""
  | (success, msg) :: rest =>
      (if negb success
       then "  Component " ++ str_of_nat (idx + 1) ++ ": " ++ msg ++ nl
       else "")
      ++ failed_lines rest (S idx)
  end.

Definition success_count (results : list (bool * string)) : nat :=
  length (filter fst results).

Definition summary (order_id : string) (results : list (bool * string))
    : bool * string :=
  let total_count := length results in
  if success_count results =? total_count then
    (true, "Order " ++ order_id ++ " completed successfully!" ++ nl ++ nl
           ++ "Processed " ++ str_of_nat total_count ++ " component(s)")
  else
    (false, "Order " ++ order_id ++ " partially completed." ++ nl ++ nl
            ++ str_of_nat (success_count results) ++ "/"
            ++ str_of_nat total_count ++ " components successful"
            ++ nl ++ nl ++ "Failed components:" ++ nl
            ++ failed_lines results 0).

Definition process_order (order_file_path : string) : M (bool * string) :=
  catch
    (invoke (LoggerInfo ("Loading order from: " ++ order_file_path)) ;;
     order <- load_order_file order_file_path ;;
     if negb (truthy order) then
       invoke (LoggerError "Failed to load order file") ;;
       ret (false, "Failed to load order file")
     else
     match order with
     | JObj o =>
         let order_id := str (get_default o "orderId" (JStr "unknown")) in
         let components := get_default o "components" (JArr []) in
         n <- lift (py_len components) ;;
         invoke (LoggerInfo ("Processing order: " ++ order_id ++ " with "
                             ++ str_of_nat n ++ " component(s)")) ;;
         if negb (truthy components) then
           ret (false, "No components found in order")
         else
           items <- lift (py_iter components) ;;
           results <- process_each items 0 n ;;
           ret (summary order_id results)
     | _ => raise (no_attribute order "get")
     end)
    (fun e => ret (false, "Order processing failed: " ++ exn_text e)).

(** A run from an empty record. *)
Definition run {A} (m : M A) (w : World) : result A * state := m (w, []).

End WithHost.

End OrderProcessor.

(* ===================================================================== *)
(** * Properties *)
(* ===================================================================== *)

(** ** Text and numbers *)

Section TextFacts.

Variable u : runtime.

(** An ASCII text without a blank. *)
Definition plain (s : string) : bool :=
  all_chars (fun c => is_ascii c && negb (is_space c)) s.

Definition single (c : ascii) : string := String c EmptyString.

Lemma plain_ascii s : plain s = true -> all_chars is_ascii s = true.
Proof.
  unfold plain. induction s as [|c r IH]; cbn [all_chars]; [reflexivity|].
  intros H. apply andb_prop in H as [Hc Hr]. apply andb_prop in Hc as [Hc _].
  now rewrite Hc, IH.
Qed.

Lemma characters_ascii s :
  all_chars is_ascii s = true ->
  characters s = map single (list_ascii_of_string s).
Proof.
  induction s as [|c r IH];
    cbn [all_chars characters list_ascii_of_string map]; [reflexivity|].
  intros H. apply andb_prop in H as [Hc Hr]. rewrite Hc. cbn [negb andb].
  now rewrite IH.
Qed.

Lemma concat_singles (l : list ascii) :
  String.concat "" (map single l) = string_of_list_ascii l.
Proof.
  induction l as [|c r IH]; [reflexivity|].
  cbn [map string_of_list_ascii]. rewrite <- IH.
  destruct r as [|d r]; reflexivity.
Qed.

Lemma drop_spaces_head (l : list ascii) :
  match l with
  | [] => True
  | c :: _ => is_ascii c && negb (is_space c) = true
  end ->
  drop_spaces u (map single l) = map single l.
Proof.
  destruct l as [|c r]; [reflexivity|]. intros H.
  apply andb_prop in H as [Ha Hs]. apply negb_true_iff in Hs.
  cbn [map drop_spaces]. unfold space_character, in_class, single.
  now rewrite Ha, Hs.
Qed.

Lemma plain_head (l : list ascii) :
  forallb (fun c => is_ascii c && negb (is_space c)) l = true ->
  match l with
  | [] => True
  | c :: _ => is_ascii c && negb (is_space c) = true
  end.
Proof.
  destruct l as [|c r]; [easy|]. cbn [forallb]. intros H.
  now apply andb_prop in H as [H _].
Qed.

Lemma plain_forallb s :
  plain s = true ->
  forallb (fun c => is_ascii c && negb (is_space c))
          (list_ascii_of_string s) = true.
Proof.
  unfold plain. induction s as [|c r IH];
    cbn [all_chars list_ascii_of_string forallb]; [reflexivity|].
  intros H. apply andb_prop in H as [Hc Hr]. now rewrite Hc, IH.
Qed.

Lemma strip_plain s : plain s = true -> strip u s = s.
Proof.
  intros H. unfold strip.
  rewrite (characters_ascii s (plain_ascii s H)).
  pose proof (plain_forallb s H) as F.
  rewrite (drop_spaces_head _ (plain_head _ F)).
  rewrite <- map_rev.
  assert (Fr : forallb (fun c => is_ascii c && negb (is_space c))
                       (rev (list_ascii_of_string s)) = true).
  { apply forallb_forall. intros c Hc. apply in_rev in Hc.
    now apply (proj1 (forallb_forall _ _) F). }
  rewrite (drop_spaces_head _ (plain_head _ Fr)).
  rewrite <- map_rev, rev_involutive, concat_singles.
  apply string_of_list_ascii_of_string.
Qed.

Lemma digits_plain (d : Decimal.uint) :
  plain (NilEmpty.string_of_uint d) = true.
Proof. induction d; simpl; auto. Qed.

Lemma digits_counted (d : Decimal.uint) :
  digit_count (NilEmpty.string_of_uint d)
  = String.length (NilEmpty.string_of_uint d).
Proof. induction d; simpl; auto. Qed.

(** One digit of [str] read by [scan_digits]. *)
Ltac read_digit :=
  cbn [NilEmpty.string_of_uint scan_digits Pos.of_uint_acc Pos.of_uint
       String.length];
  match goal with
  | |- context [is_digit ?c] => change (is_digit c) with true
  end;
  cbv iota.

(** Reading back the digits [str] wrote, above a positive prefix. *)
Lemma scan_digits_acc (d : Decimal.uint) :
  forall (acc : positive) (n : nat) (b : bool),
    d <> Decimal.Nil \/ b = true ->
    scan_digits (NilEmpty.string_of_uint d) (Z.pos acc) n b
    = Some (Z.pos (Pos.of_uint_acc d acc),
            n + String.length (NilEmpty.string_of_uint d), "").
Proof.
  induction d; intros acc n b H;
    [ simpl; destruct H as [H | ->]; [congruence|];
      now rewrite Nat.add_0_r
    | read_digit;
      match goal with
      | |- scan_digits _ ?z _ true = Some (Z.pos (Pos.of_uint_acc _ ?p), _, _) =>
          replace z with (Z.pos p)
            by (unfold digit_value;
                match goal with
                | |- context [Z.of_nat ?m] =>
                    let v := eval vm_compute in (Z.of_nat m) in
                    change (Z.of_nat m) with v
                end; lia)
      end;
      rewrite IHd by (now right); rewrite Nat.add_succ_r; reflexivity .. ].
Qed.

Lemma scan_digits_zero (d : Decimal.uint) :
  forall (n : nat) (b : bool),
    d <> Decimal.Nil \/ b = true ->
    scan_digits (NilEmpty.string_of_uint d) 0 n b
    = Some (Z.of_N (Pos.of_uint d),
            n + String.length (NilEmpty.string_of_uint d), "").
Proof.
  induction d; intros n b H;
    [ simpl; destruct H as [H | ->]; [congruence|];
      now rewrite Nat.add_0_r
    | read_digit;
      change (10 * 0 + digit_value "0")%Z with 0%Z;
      rewrite IHd by (now right); rewrite Nat.add_succ_r; reflexivity
    | read_digit;
      match goal with
      | |- scan_digits _ ?z _ true
           = Some (Z.of_N (N.pos (Pos.of_uint_acc _ ?p)), _, _) =>
          change z with (Z.pos p); cbn [Z.of_N];
          rewrite scan_digits_acc by (now right);
          rewrite Nat.add_succ_r; reflexivity
      end .. ].
Qed.

Lemma within_bound (n : nat) :
  negb (exceeds u n) = true -> exceeds u n = false.
Proof. now destruct (exceeds u n). Qed.

(** [int] of the digits of a positive number, with or without the
    sign in front. *)
Lemma py_int_digits (p : positive) (negative : bool) :
  exceeds u (String.length (NilEmpty.string_of_uint (Pos.to_uint p)))
  = false ->
  py_int u (if negative
            then String "-" (NilEmpty.string_of_uint (Pos.to_uint p))
            else NilEmpty.string_of_uint (Pos.to_uint p))
  = Ok (if negative then Z.neg p else Z.pos p).
Proof.
  intros Hx. unfold py_int.
  assert (Ha : all_chars is_ascii
                 (if negative
                  then String "-" (NilEmpty.string_of_uint (Pos.to_uint p))
                  else NilEmpty.string_of_uint (Pos.to_uint p)) = true).
  { destruct negative; cbn [all_chars];
      now rewrite (plain_ascii _ (digits_plain _)). }
  rewrite Ha.
  pose proof (scan_digits_zero (Pos.to_uint p) 0 false
                (or_introl (DecimalPos.Unsigned.to_uint_nonnil p))) as H.
  rewrite DecimalPos.Unsigned.of_to in H. cbn [Z.of_N Nat.add] in H.
  destruct negative.
  - cbn [skip_blanks]. change (c_space "-") with false. cbv iota beta.
    rewrite H, Hx. reflexivity.
  - pose proof (DecimalPos.Unsigned.to_uint_nonnil p) as Hn.
    destruct (Pos.to_uint p) eqn:E; [congruence | ..];
      cbn [NilEmpty.string_of_uint skip_blanks] in *;
      match goal with
      | |- context [c_space ?c] => change (c_space c) with false
      end;
      cbv iota beta; rewrite H, Hx; reflexivity.
Qed.

(** [int(str(z)) = z], also through [strip], for a number [str] can
    write. *)
Lemma py_int_str_of_Z (z : Z) :
  printable u z = true -> py_int u (strip u (str_of_Z z)) = Ok z.
Proof.
  assert (Hpos : forall p, NilZero.string_of_uint (Pos.to_uint p)
                           = NilEmpty.string_of_uint (Pos.to_uint p)).
  { intros p. pose proof (DecimalPos.Unsigned.to_uint_nonnil p).
    now destruct (Pos.to_uint p). }
  unfold printable, str_of_Z. intros Hp. apply within_bound in Hp.
  destruct z as [|p|p]; cbn [Z.to_int NilZero.string_of_int] in *.
  - change (exceeds u 1 = false) in Hp.
    change (NilZero.string_of_uint (Decimal.D0 Decimal.Nil)) with "0".
    rewrite strip_plain by reflexivity.
    change (py_int u "0")
      with (if exceeds u 1 then Raise (too_many_digits u 1) else Ok 0%Z).
    now rewrite Hp.
  - rewrite Hpos in *. rewrite (strip_plain _ (digits_plain _)).
    rewrite digits_counted in Hp.
    exact (py_int_digits p false Hp).
  - rewrite Hpos in *.
    assert (Hs : plain (String "-" (NilEmpty.string_of_uint (Pos.to_uint p)))
                 = true).
    { unfold plain. simpl. apply digits_plain. }
    rewrite (strip_plain _ Hs).
    cbn [digit_count] in Hp. change (is_digit "-") with false in Hp.
    cbn [Nat.add] in Hp. rewrite digits_counted in Hp.
    exact (py_int_digits p true Hp).
Qed.

End TextFacts.

(** A run-time for the examples: it has no digit and no blank outside
    ASCII, reads no text with other characters as a number, and converts
    at most 4300 digits, as CPython does from 3.11 on. *)
Definition ascii_runtime : runtime :=
  {| digit_char := fun _ => false;
     space_char := fun _ => false;
     int_text := fun s =>
       Raise (mkExn ValueError
                ("invalid literal for int() with base 10: '" ++ s ++ "'"));
     int_max_str_digits := 4300;
     str_repr := fun s => "'" ++ s ++ "'" |}.

(** U+00B2, the superscript two, and the Arabic-Indic digits zero and
    one, as UTF-8. *)
Definition superscript_two : string :=
  String (ascii_of_nat 194) (String (ascii_of_nat 178) EmptyString).

Definition arabic_zero : string :=
  String (ascii_of_nat 217) (String (ascii_of_nat 160) EmptyString).

Definition arabic_one : string :=
  String (ascii_of_nat 217) (String (ascii_of_nat 161) EmptyString).

(** A run-time that knows these three characters as CPython does: all
    three are digits for [str.isdigit], and [int] reads the Arabic-Indic
    text for 1001 as that number. *)
Definition wide_runtime : runtime :=
  {| digit_char := fun ch =>
       String.eqb ch superscript_two || String.eqb ch arabic_zero
       || String.eqb ch arabic_one;
     space_char := fun _ => false;
     int_text := fun s =>
       if String.eqb s (arabic_one ++ arabic_zero ++ arabic_zero
                        ++ arabic_one)
       then Ok 1001%Z
       else Raise (mkExn ValueError
                     ("invalid literal for int() with base 10: '" ++ s
                      ++ "'"));
     int_max_str_digits := 4300;
     str_repr := fun s => "'" ++ s ++ "'" |}.

(** ** validator.py *)

Section ValidatorFacts.
Import Validator.






(** Values the parameter check turns down, and values it lets pass. *)
Definition rejected_value (v : json) : bool :=
  match v with JNull | JArr _ | JObj _ => true | _ => false end.

Definition accepted_value (v : json) : bool :=
  match v with JStr _ | JFloat _ | JInt _ => true | _ => false end.

Lemma contains_prefix pat s : contains pat (pat ++ s) = true.
Proof.
  assert (H : String.prefix pat (pat ++ s) = true).
  { induction pat as [|c r IH]; simpl.
    - now destruct s.
    - rewrite IH. now destruct (ascii_dec c c). }
  destruct (pat ++ s); simpl in *; rewrite H; reflexivity.
Qed.

Lemma contains_skip pat a s :
  contains pat s = true -> contains pat (a ++ s) = true.
Proof.
  induction a as [|c r IH]; simpl; [easy|].
  intros H. rewrite (IH H). apply orb_true_r.
Qed.

Lemma contains_self pat : contains pat pat = true.
Proof.
  assert (H : String.prefix pat pat = true).
  { induction pat as [|c r IH]; cbn; [reflexivity|].
    now destruct (ascii_dec c c). }
  destruct pat; cbn [contains]; now rewrite H.
Qed.

Lemma prefix_left pat a b :
  String.prefix pat a = true -> String.prefix pat (a ++ b) = true.
Proof.
  revert a. induction pat as [|c r IH]; intros a;
    [now destruct (a ++ b)|].
  destruct a as [|c' a]; cbn; [discriminate|].
  destruct (ascii_dec c c'); [apply IH | discriminate].
Qed.

Lemma contains_left pat a b :
  contains pat a = true -> contains pat (a ++ b) = true.
Proof.
  induction a as [|c r IH]; cbn [contains append].
  - rewrite orb_false_r. destruct pat; [|discriminate].
    intros _. now destruct b.
  - intros H. apply orb_true_iff in H as [H|H].
    + change (String c (r ++ b)) with (String c r ++ b).
      now rewrite (prefix_left _ _ _ H).
    + rewrite (IH H). apply orb_true_r.
Qed.

Lemma invalid_value_type_text pfx param_name :
  contains "Invalid value type" (invalid_value_type pfx param_name) = true.
Proof.
  unfold invalid_value_type.
  repeat (apply contains_skip).
  apply (contains_prefix "Invalid value type"
           " (must be number, string, or integer)").
Qed.

Lemma _validate_parameters_rejects ps pfx param_name value :
  In (param_name, value) ps -> param_name <> "" ->
  rejected_value value = true ->
  In (invalid_value_type pfx param_name) (_validate_parameters ps pfx).
Proof.
  induction ps as [|[k v] r IH]; simpl; [easy|].
  intros [[= -> ->] | Hin] Hne Hrej; apply in_or_app.
  - left. destruct param_name; [congruence|].
    destruct value; try discriminate; simpl; auto.
  - right. now apply IH.
Qed.

Lemma _validate_parameters_accepts ps pfx :
  (forall param_name value,
      In (param_name, value) ps ->
      param_name <> "" /\ accepted_value value = true) ->
  _validate_parameters ps pfx = [].
Proof.
  induction ps as [|[k v] r IH]; simpl; [easy|].
  intros H. rewrite IH by (intros; apply H; now right).
  destruct (H k v (or_introl eq_refl)) as [Hne Hacc].
  destruct k; [congruence|].
  destruct v; try discriminate; reflexivity.
Qed.

(** C4, as the code has it.  For a component object: a [parameters]
    field that holds a list fails validation with the error
    "parameters must be an object"; when it holds an object, every
    entry with a non-empty name whose value is null, an object or an
    array fails validation with an "Invalid value type" error naming
    the entry; and entries whose values are strings, floating-point
    numbers or integers, such as "96 in", 36.5 and 1, produce no
    error. *)
Theorem parameter_values_checked :
  forall (c : list (string * json)) (index : nat),
    (forall items,
        lookup "parameters" c = Some (JArr items) ->
        In (prefix_of index ++ ": parameters must be an object")
           (_validate_component (JObj c) index))
    /\ (forall ps param_name value,
           lookup "parameters" c = Some (JObj ps) ->
           In (param_name, value) ps -> param_name <> "" ->
           rejected_value value = true ->
           In (invalid_value_type (prefix_of index) param_name)
              (_validate_component (JObj c) index)
           /\ contains "Invalid value type"
                (invalid_value_type (prefix_of index) param_name) = true)
    /\ (forall ps,
           (forall param_name value,
               In (param_name, value) ps ->
               param_name <> "" /\ accepted_value value = true) ->
           _validate_parameters ps (prefix_of index) = [])
    /\ _validate_parameters
         [("component_height", JStr "96 in");
          ("component_width", JFloat (73 # 2));
          ("door_hinging_right", JInt 1)] (prefix_of index) = [].
Proof.
  intros c index. split; [|split; [|split]].
  - intros items H. unfold _validate_component, get. rewrite H.
    apply in_or_app. left. apply in_or_app. left.
    apply in_or_app. right. now left.
  - intros ps param_name value H Hin Hne Hrej. split.
    + unfold _validate_component, get. rewrite H.
      apply in_or_app. left. apply in_or_app. left.
      apply in_or_app. right.
      now apply (_validate_parameters_rejects ps _ param_name value).
    + apply invalid_value_type_text.
  - intros ps H. now apply _validate_parameters_accepts.
  - reflexivity.
Qed.

Lemma parameter_values_checked_witness :
  In (invalid_value_type (prefix_of 0) "invalid")
     (_validate_component
        (JObj [("componentId", JStr "comp-001");
               ("fusionModelPath", JStr "test.f3d");
               ("parameters", JObj [("invalid", JNull)])]) 0)
  /\ contains "Invalid value type"
       (invalid_value_type (prefix_of 0) "invalid") = true.
Proof.
  apply (proj1 (proj2 (parameter_values_checked
           [("componentId", JStr "comp-001");
            ("fusionModelPath", JStr "test.f3d");
            ("parameters", JObj [("invalid", JNull)])] 0))
           [("invalid", JNull)] "invalid" JNull).
  - reflexivity.
  - simpl; auto.
  - discriminate.
  - reflexivity.
Defined.

(** C4 as stated fails: a [parameters] field holding a list is turned
    down, but not with an "Invalid value type" error. *)
Lemma list_parameters_other_error :
  _validate_component
    (JObj [("componentId", JStr "comp-001");
           ("fusionModelPath", JStr "test.f3d");
           ("parameters", JArr [])]) 0
  = ["Component[0]: parameters must be an object"]
  /\ existsb (contains "Invalid value type")
       (_validate_component
          (JObj [("componentId", JStr "comp-001");
                 ("fusionModelPath", JStr "test.f3d");
                 ("parameters", JArr [])]) 0) = false.
Proof. split; reflexivity. Qed.

(** A [parameters] field holding [null] passes unchecked, and so does
    a boolean value. *)
Example null_parameters_pass :
  _validate_component
    (JObj [("componentId", JStr "comp-001");
           ("fusionModelPath", JStr "test.f3d");
           ("parameters", JNull)]) 0 = [].
Proof. reflexivity. Qed.

Example boolean_value_passes :
  _validate_component
    (JObj [("componentId", JStr "comp-001");
           ("fusionModelPath", JStr "test.f3d");
           ("parameters", JObj [("door_hinging_right", JBool true)])]) 0
  = [].
Proof. reflexivity. Qed.

(** C9.  [validate_order] raises on a components list that holds a
    value that is not an object: [_validate_component] reports it, and
    the duplicate check then calls [component.get] on it. *)
Theorem validate_order_raises_on_non_object_component :
  forall (u : runtime) (repr : json -> string),
    validate_order u repr
      (JObj [("version", JStr "1.0.0"); ("orderId", JStr "TEST-001");
             ("components", JArr [JInt 5])])
    = Raise (mkExn AttributeError "'int' object has no attribute 'get'").
Proof. intros u repr. reflexivity. Qed.

(** The same loop raises when a [componentId] is a non-empty list or
    object, which the set of seen ids cannot hash. *)
Example validate_order_raises_on_unhashable_id :
  forall (u : runtime) (repr : json -> string),
    validate_order u repr
      (JObj [("version", JStr "1.0.0"); ("orderId", JStr "TEST-001");
             ("components",
              JArr [JObj [("componentId", JArr [JInt 1]);
                          ("fusionModelPath", JStr "test.f3d");
                          ("parameters", JObj [])]])])
    = Raise (mkExn TypeError "unhashable type: 'list'").
Proof. intros u repr. reflexivity. Qed.

(** On objects only, the loop over the components returns. *)
Lemma validate_components_objects repr :
  forall components idx errors seen,
    Forall (fun c => match c with
                     | JObj items => hashable (get items "componentId") = true
                     | _ => False
                     end) components ->
    exists errors',
      validate_components repr components idx errors seen = Ok errors'.
Proof.
  induction components as [|c r IH]; intros idx errors seen H; simpl.
  - now exists errors.
  - inversion H as [|? ? Hc Hr]; subst.
    destruct c; try contradiction.
    destruct (truthy (get items "componentId")); [rewrite Hc|];
      now apply IH.
Qed.

End ValidatorFacts.

(** ** parameter_manager.py *)

Section ParameterManagerFacts.
Import ParameterManager.

Variable repr : json -> string.
Variable set_expression : store -> string -> json -> result string.

Let batch := update_parameters_batch repr set_expression.

Lemma write_lookup_other name text params n :
  n <> name -> lookup n (write name text params) = lookup n params.
Proof.
  intros Hne. induction params as [|[k old] r IH]; simpl; [reflexivity|].
  destruct (String.eqb_spec name k) as [->|Hk]; simpl.
  - destruct (String.eqb_spec n k); [congruence | reflexivity].
  - destruct (String.eqb_spec n k); [reflexivity | apply IH].
Qed.

Lemma write_lookup_same name text params old :
  lookup name params = Some old ->
  lookup name (write name text params) = Some text.
Proof.
  induction params as [|[k v] r IH]; simpl; [discriminate|].
  destruct (String.eqb_spec name k) as [->|Hk]; simpl.
  - now rewrite String.eqb_refl.
  - destruct (String.eqb_spec name k); [congruence | exact IH].
Qed.

Lemma write_keeps_names name text params n :
  lookup n (write name text params) = None <-> lookup n params = None.
Proof.
  destruct (String.eqb_spec n name) as [->|Hne].
  - destruct (lookup name params) eqn:E.
    + rewrite (write_lookup_same _ text _ _ E). split; discriminate.
    + assert (H : write name text params = params).
      { clear -E. induction params as [|[k v] r IH]; simpl in *; [easy|].
        destruct (String.eqb name k); [discriminate|].
        now rewrite IH. }
      now rewrite H, E.
  - now rewrite write_lookup_other.
Qed.

Lemma update_parameter_keeps_names param_name new_value params n :
  lookup n (snd (update_parameter repr set_expression
                   param_name new_value params)) = None
  <-> lookup n params = None.
Proof.
  unfold update_parameter.
  destruct (lookup param_name params); [|reflexivity].
  destruct (set_expression params param_name new_value); simpl;
    [apply write_keeps_names | reflexivity].
Qed.

Lemma batch_cons param_name new_value rest params :
  batch ((param_name, new_value) :: rest) params
  = let r := update_parameter repr set_expression
               param_name new_value params in
    ((param_name, fst (fst r), snd (fst r)) :: fst (batch rest (snd r)),
     snd (batch rest (snd r))).
Proof.
  unfold batch. simpl.
  destruct (update_parameter repr set_expression param_name new_value params)
    as [[success message] params'].
  simpl. now destruct (update_parameters_batch _ _ rest params').
Qed.

Lemma batch_app before after params :
  batch (before ++ after) params
  = (fst (batch before params) ++ fst (batch after (snd (batch before params))),
     snd (batch after (snd (batch before params))))%list.
Proof.
  revert params. induction before as [|[k v] r IH]; intros params.
  - simpl. now destruct (batch after params).
  - rewrite <- app_comm_cons, !batch_cons. cbv zeta. rewrite IH.
    reflexivity.
Qed.

Lemma batch_names parameters params :
  map (fun r => fst (fst r)) (fst (batch parameters params))
  = map fst parameters.
Proof.
  revert params. induction parameters as [|[k v] r IH]; intros params.
  - reflexivity.
  - rewrite batch_cons. cbv zeta. simpl. now rewrite IH.
Qed.

Lemma batch_keeps_names parameters params n :
  lookup n (snd (batch parameters params)) = None <-> lookup n params = None.
Proof.
  revert params. induction parameters as [|[k v] r IH]; intros params.
  - reflexivity.
  - rewrite batch_cons. cbv zeta. simpl. rewrite IH.
    apply update_parameter_keeps_names.
Qed.

Lemma batch_length parameters params :
  length (fst (batch parameters params)) = length parameters.
Proof.
  rewrite <- (length_map (fun r => fst (fst r))), batch_names.
  apply length_map.
Qed.

Lemma batch_nth before param_name new_value after params :
  nth_error (fst (batch (before ++ (param_name, new_value) :: after) params))
            (length before)
  = Some (param_name,
          fst (fst (update_parameter repr set_expression param_name
                      new_value (snd (batch before params)))),
          snd (fst (update_parameter repr set_expression param_name
                      new_value (snd (batch before params))))).
Proof.
  rewrite batch_app. cbn [fst].
  rewrite nth_error_app2 by (rewrite batch_length; lia).
  rewrite batch_length, Nat.sub_diag, batch_cons. reflexivity.
Qed.

Lemma batch_snoc before param_name new_value params :
  snd (batch (before ++ [(param_name, new_value)]) params)
  = snd (update_parameter repr set_expression param_name new_value
           (snd (batch before params))).
Proof. rewrite batch_app, batch_cons. reflexivity. Qed.

End ParameterManagerFacts.

Section ParameterManagerClaims.
Import ParameterManager.

(** C5, as the code has it.  The batch returns one result per entry,
    in the order of the entries.  Whatever the earlier entries did,
    each entry is attempted on the store they left: a name absent from
    the store gives [success = false] and a message naming the missing
    parameter; a name present in the store whose write the host takes
    gives [success = true], a message with the old and the new value,
    and the new expression in the store; a name present in the store
    whose write the host refuses gives [success = false], a message
    with the failure text, and an unchanged store. *)
Theorem update_parameters_batch_attempts_all :
  forall (repr : json -> string)
         (set_expression : store -> string -> json -> result string)
         (parameters : list (string * json)) (params : store),
    let batch := update_parameters_batch repr set_expression in
    let results := fst (batch parameters params) in
    map (fun r => fst (fst r)) results = map fst parameters
    /\ forall before param_name new_value after,
        parameters = before +++ (param_name, new_value) :: after ->
        let current := snd (batch before params) in
        let next :=
          snd (batch (before +++ [(param_name, new_value)]) params) in
        (lookup param_name current = None
         <-> lookup param_name params = None)
        /\ match lookup param_name current with
           | None =>
               nth_error results (length before)
               = Some (param_name, false,
                       "Parameter '" ++ param_name ++ "' not found in model")
               /\ next = current
           | Some old_value =>
               match set_expression current param_name new_value with
               | Ok text =>
                   nth_error results (length before)
                   = Some (param_name, true,
                           "Updated '" ++ param_name ++ "' from '"
                           ++ old_value ++ "' to '"
                           ++ py_str repr new_value ++ "'")
                   /\ lookup param_name next = Some text
               | Raise e =>
                   nth_error results (length before)
                   = Some (param_name, false,
                           "Failed to update '" ++ param_name ++ "': "
                           ++ exn_text e)
                   /\ next = current
               end
           end.
Proof.
  intros repr set_expression parameters params batch results. split.
  - apply batch_names.
  - intros before param_name new_value after -> current next. split.
    + apply batch_keeps_names.
    + subst results next. unfold batch.
      rewrite batch_nth, batch_snoc. fold batch. fold current.
      unfold update_parameter.
      destruct (lookup param_name current) as [old_value|] eqn:E.
      * destruct (set_expression current param_name new_value) as [text|e];
          cbn [fst snd]; split; try reflexivity.
        now apply (write_lookup_same _ _ _ old_value).
      * cbn [fst snd]. now split.
Qed.

(** A host that refuses an empty expression and anything that is not
    text. *)
Definition refusing_host (params : store) (param_name : string)
    (value : json) : result string :=
  match value with
  | JStr EmptyString => Raise (mkExn RuntimeError "invalid expression")
  | JStr text => Ok text
  | _ => Raise (mkExn TypeError "expression must be a string")
  end.

Lemma update_parameters_batch_attempts_all_witness :
  nth_error
    (fst (update_parameters_batch (fun _ => "") refusing_host
            [("A", JStr "10mm"); ("B", JStr "20mm")] [("A", "5 mm")]))
    1
  = Some ("B", false, "Parameter 'B' not found in model")
  /\ snd (update_parameters_batch (fun _ => "") refusing_host
            ([("A", JStr "10mm")] +++ [("B", JStr "20mm")]) [("A", "5 mm")])
     = snd (update_parameters_batch (fun _ => "") refusing_host
              [("A", JStr "10mm")] [("A", "5 mm")]).
Proof.
  exact (proj2 (proj2 (update_parameters_batch_attempts_all
                         (fun _ => "") refusing_host
                         [("A", JStr "10mm"); ("B", JStr "20mm")]
                         [("A", "5 mm")]) [("A", JStr "10mm")] "B"
                      (JStr "20mm") [] eq_refl)).
Defined.

(** C5 as stated fails: the parameter is in the store, the host
    refuses the write, and the entry is reported as failed. *)
Lemma present_parameter_write_refused :
  lookup "A" [("A", "5 mm")] = Some "5 mm"
  /\ update_parameters_batch (fun _ => "") refusing_host
       [("A", JStr ""); ("B", JStr "20mm")] [("A", "5 mm"); ("B", "1 mm")]
     = ([("A", false, "Failed to update 'A': invalid expression");
         ("B", true, "Updated 'B' from '1 mm' to '20mm'")],
        [("A", "5 mm"); ("B", "20mm")]).
Proof. split; reflexivity. Qed.

End ParameterManagerClaims.

(** ** cam_manager.py *)

Section CAMManagerFacts.
Import CAMManager.

Variable u : runtime.

(** An operation that ends up with a toolpath and is counted. *)
Definition regenerated (o : operation) : bool :=
  negb (isSuppressed o) && hasToolpath o.

Lemma check_operation_counts t o :
  operations_total (check_operation u t o) = S (operations_total t)
  /\ operations_with_toolpaths (check_operation u t o)
     = operations_with_toolpaths t + (if regenerated o then 1 else 0)
  /\ length (warning_messages t) + (if regenerated o then 0 else 1)
     <= length (warning_messages (check_operation u t o)).
Proof.
  unfold check_operation, regenerated.
  destruct (isSuppressed o); cbn [negb andb].
  - cbn. rewrite length_app. cbn. repeat split; lia.
  - destruct (hasToolpath o); [|destruct (has_text u (error o))];
      (destruct (warning o); [destruct (has_text u _)|]); cbn;
      rewrite ?length_app; cbn; repeat split; lia.
Qed.

Lemma check_operations_counts ops :
  forall t,
    let t' := fold_left (check_operation u) ops t in
    operations_total t' = operations_total t + length ops
    /\ operations_with_toolpaths t'
       = operations_with_toolpaths t + length (filter regenerated ops)
    /\ length (warning_messages t) + length ops
       <= length (warning_messages t') + length (filter regenerated ops).
Proof.
  induction ops as [|o r IH]; intros t; cbn [fold_left length filter].
  - cbv zeta. repeat split; lia.
  - destruct (IH (check_operation u t o)) as [H1 [H2 H3]].
    destruct (check_operation_counts t o) as [G1 [G2 G3]].
    cbv zeta in *. destruct (regenerated o); cbn [length]; repeat split; lia.
Qed.

(** What the verification of a setup decides, operation by operation. *)
Lemma verify_setup_success (s : setup) :
  success_of (verify_setup u s)
  = match allOperations s with [] => false | _ :: _ => true end.
Proof.
  unfold verify_setup, check_operations.
  destruct (check_operations_counts (allOperations s)
              {| warning_messages := []; operations_with_toolpaths := 0;
                 operations_total := 0 |}) as [H1 [H2 H3]].
  cbv zeta in *. cbn [warning_messages operations_with_toolpaths
                      operations_total length] in *.
  set (t := fold_left (check_operation u) (allOperations s) _) in *.
  destruct (Nat.ltb_spec 0 (operations_with_toolpaths t)) as [Hw|Hw].
  - unfold success_of. cbn [fst snd].
    destruct (allOperations s); [cbn in *; lia | reflexivity].
  - destruct (Nat.ltb_spec 0 (operations_total t)) as [Ht|Ht];
      destruct (Nat.leb_spec (operations_total t)
                             (length (warning_messages t))) as [Hl|Hl];
      cbn [andb]; unfold success_of; cbn [fst snd];
      destruct (allOperations s); cbn [length] in *; try reflexivity; lia.
Qed.

(** The loop over the setups: the results of the setups read without
    a fault, up to the end or to the first fault. *)
Lemma verify_setups_spec (read_fault : nat -> option exn) live :
  forall i results all_success,
    match verify_setups u read_fault i live results all_success with
    | (results', Ok flag) =>
        results' = results +++ map (verify_setup u) live
        /\ flag = all_success
                  && forallb success_of (map (verify_setup u) live)
        /\ (forall j, j < length live -> read_fault (i + j) = None)
    | (results', Raise e) =>
        exists k,
          k < length live
          /\ results' = results +++ map (verify_setup u) (firstn k live)
          /\ read_fault (i + k) = Some e
          /\ (forall j, j < k -> read_fault (i + j) = None)
    end.
Proof.
  induction live as [|s r IH]; intros i results all_success;
    cbn [verify_setups].
  - cbn. rewrite app_nil_r, andb_true_r. repeat split. intros j Hj. lia.
  - destruct (read_fault i) as [e|] eqn:F.
    + exists 0. cbn. rewrite app_nil_r, Nat.add_0_r.
      repeat split; [lia | exact F | intros j Hj; lia].
    + specialize (IH (S i) (results +++ [verify_setup u s])
                     (if snd (fst (verify_setup u s))
                      then all_success else false)).
      destruct (verify_setups u read_fault (S i) r _ _)
        as [results' [flag|e]].
      * destruct IH as [H1 [H2 H3]]. rewrite H1, H2, <- app_assoc.
        cbn [map forallb app length]. repeat split.
        -- unfold success_of.
           destruct (snd (fst (verify_setup u s))), all_success; reflexivity.
        -- intros [|j] Hj; [now rewrite Nat.add_0_r|].
           rewrite Nat.add_succ_r. apply (H3 j). lia.
      * destruct IH as [k [H1 [H2 [H3 H4]]]]. exists (S k).
        rewrite H2, <- app_assoc. cbn [firstn map app length].
        repeat split.
        -- lia.
        -- now rewrite Nat.add_succ_r.
        -- intros [|j] Hj; [now rewrite Nat.add_0_r|].
           rewrite Nat.add_succ_r. apply (H4 j). lia.
Qed.

Lemma verify_setups_flag (read_fault : nat -> option exn) live :
  (forall i, read_fault i = None) ->
  forall i results all_success,
    verify_setups u read_fault i live results all_success
    = (results +++ map (verify_setup u) live,
       Ok (all_success && forallb success_of (map (verify_setup u) live))).
Proof.
  intros Hf i results all_success.
  pose proof (verify_setups_spec read_fault live i results all_success) as H.
  destruct (verify_setups u read_fault i live results all_success)
    as [results' [flag|e]].
  - destruct H as [-> [-> _]]. reflexivity.
  - destruct H as [k [_ [_ [H _]]]]. rewrite Hf in H. discriminate.
Qed.

Lemma as_read_length setups live :
  length (as_read setups live) = length setups.
Proof.
  revert live. induction setups as [|s r IH]; intros [|l live];
    cbn [as_read length]; try reflexivity.
  now rewrite IH.
Qed.

Lemma forallb_failed {A} (f : A -> setup_result) (l : list A)
    (results : list setup_result) :
  (forall a, success_of (f a) = false) -> l <> [] ->
  forallb success_of (results +++ map f l) = false.
Proof.
  intros Hf Hl. rewrite forallb_app.
  destruct l as [|a r]; [congruence|]. cbn [map forallb].
  rewrite Hf. cbn [andb]. apply andb_false_r.
Qed.

(** The part of C2 that holds: on a document with setups, the overall
    flag is the conjunction of the per-setup results. *)
Lemma all_success_is_conjunction
    (generate : list setup -> result (bool * list setup))
    (read_fault : nat -> option exn) (p : product) :
  is_cam p = true -> setups p <> [] ->
  let '(all_success, _, results) :=
    regenerate_all_toolpaths u generate read_fault (Some p) in
  all_success = forallb success_of results.
Proof.
  intros Hcam Hne. unfold regenerate_all_toolpaths, get_all_setups.
  rewrite Hcam. cbn [negb].
  destruct (setups p) as [|s0 rest] eqn:E; [congruence|].
  destruct (generate (s0 :: rest)) as [[completed live]|e].
  - assert (Hl : as_read (s0 :: rest) live <> []).
    { intros H. apply (f_equal (@length _)) in H.
      rewrite as_read_length in H. discriminate. }
    cbv zeta. destruct completed; cbn [negb].
    + pose proof (verify_setups_spec read_fault
                    (as_read (s0 :: rest) live) 0 [] true) as H.
      destruct (verify_setups u read_fault 0 _ [] true)
        as [results [flag|e]].
      * destruct H as [-> [-> _]]. reflexivity.
      * symmetry. now apply forallb_failed.
    + symmetry. now apply (forallb_failed _ _ []).
  - symmetry.
    apply (forallb_failed
             (fun s => (name s, false, "Exception: " ++ exn_text e))
             (s0 :: rest) []); [reflexivity | discriminate].
Qed.

(** C2.  A setup whose only operation is live, has no toolpath after
    generation and carries no error of its own is still recorded with
    [success = true], under the message for pre-existing errors, and the
    call reports overall success. *)
Theorem regenerate_accepts_unexplained_failure :
  regenerate_all_toolpaths u
    (fun setups => Ok (true, setups))
    (fun _ => None)
    (Some {| is_cam := true;
             setups := [ {| name := "Setup1";
                            allOperations :=
                              [ {| op_name := "Pocket1";
                                   isSuppressed := false;
                                   hasToolpath := false;
                                   error := None;
                                   warning := None |} ] |} ] |})
  = (true,
     "All toolpaths regenerated successfully for 1 setup(s)",
     [("Setup1", true, "All 1 operation(s) have errors - none regenerated")]).
Proof. reflexivity. Qed.

(** Conversely a setup without operations, in which nothing failed, is
    recorded as failed. *)
Example regenerate_rejects_empty_setup :
  regenerate_all_toolpaths u
    (fun setups => Ok (true, setups))
    (fun _ => None)
    (Some {| is_cam := true;
             setups := [ {| name := "Setup1"; allOperations := [] |} ] |})
  = (false,
     "Toolpath regeneration failed for setup(s): Setup1",
     [("Setup1", false, "No operations regenerated (0 total)")]).
Proof. reflexivity. Qed.

End CAMManagerFacts.

(** ** post_processor.py *)

Section PostProcessorFacts.
Import CAMManager PostProcessor.

Variable u : runtime.
Variable time : nat -> Q.
Variable nc_path : string -> string.
Variable genericPostFolder : string.
Variable path_exists : string -> bool.
Variable postProcess : setup -> string -> directory -> result unit * directory.
Variable write_fault : world -> Z -> option (exn * file_state).
Variable box_fault : string -> world -> option exn.

Let next_number := get_next_program_number u time write_fault.
Let post_setup :=
  post_process_setup nc_path genericPostFolder path_exists postProcess.
Let post_loop :=
  post_each u time nc_path genericPostFolder path_exists postProcess
            write_fault box_fault.
Let post_all :=
  post_process_all_setups u time nc_path genericPostFolder path_exists
                          postProcess write_fault box_fault.

(** The number the counter file stands for: 1000 before the first
    allocation, nothing when the file cannot be read as an integer. *)
Definition counter_value (f : file_state) : option Z :=
  match f with
  | Absent => Some 1000%Z
  | Unreadable => None
  | Content text =>
      match py_int u (strip u text) with
      | Ok n => Some n
      | Raise _ => None
      end
  end.

(** [k] allocations in a row. *)
Fixpoint allocate (k : nat) (w : world) : list Z * world :=
  match k with
  | 0 => ([], w)
  | S k' =>
      let '(n, w) := get_next_program_number u time write_fault w in
      let '(ns, w) := allocate k' w in
      (n :: ns, w)
  end.

(** The file system takes every write of the counter. *)
Definition writes_succeed : Prop :=
  forall (w : world) (n : Z), write_fault w n = None.

(** Every message box is shown. *)
Definition boxes_shown : Prop :=
  forall (text : string) (w : world), box_fault text w = None.

Lemma counter_value_written n :
  printable u n = true -> counter_value (Content (str_of_Z n)) = Some n.
Proof. intros H. unfold counter_value. now rewrite py_int_str_of_Z. Qed.

Lemma read_next_counter f :
  read_next u f = match counter_value f with
                  | Some c => Ok (c + 1)%Z
                  | None => read_next u f
                  end
  /\ (counter_value f = None -> raised (read_next u f) = true).
Proof.
  destruct f as [| |text]; cbn; try (split; [reflexivity | easy]).
  destruct (py_int u (strip u text)); cbn; split; easy.
Qed.

Lemma next_number_counted w c :
  counter_value (counter_file w) = Some c ->
  write_fault w (c + 1)%Z = None ->
  printable u (c + 1) = true ->
  next_number w
  = ((c + 1)%Z, set_counter (Content (str_of_Z (c + 1))) w).
Proof.
  intros H Hw Hp. unfold next_number, get_next_program_number.
  rewrite (proj1 (read_next_counter _)), H, Hw, Hp. reflexivity.
Qed.

Lemma next_number_fallback w :
  counter_value (counter_file w) = None ->
  next_number w = (time_derived (time (time_reads w)), tick w).
Proof.
  intros H. unfold next_number, get_next_program_number.
  pose proof (proj2 (read_next_counter (counter_file w)) H) as Hr.
  now destruct (read_next u (counter_file w)).
Qed.





(** The program numbers handed to [setups] when the counter stands at
    [c]. *)
Fixpoint numbered (c : Z) (setups : list setup) : list (setup * Z) :=
  match setups with
  | [] => []
  | s :: rest => (s, (c + 1)%Z) :: numbered (c + 1) rest
  end.


Definition setup_of (r : post_result) : string := fst (fst (fst r)).

Lemma post_setup_frame s n w :
  counter_file (snd (post_setup s n w)) = counter_file w
  /\ shown (snd (post_setup s n w)) = shown w.
Proof.
  unfold post_setup, post_process_setup.
  destruct (has_valid_toolpath s); cbn [negb]; [|easy].
  destruct (path_exists _); cbn [negb]; [|easy].
  destruct (postProcess s (str_of_Z n) (output_files w)) as [[[]|e] files];
    [destruct (lookup _ files)|]; easy.
Qed.



Lemma post_loop_returns setups :
  boxes_shown ->
  forall results successful_posts w,
    exists r w', post_loop setups results successful_posts w = (Ok r, w').
Proof.
  intros Hb. induction setups as [|s rest IH];
    intros results successful_posts w.
  - now eexists _, _.
  - unfold post_loop. cbn [post_each].
    destruct (get_next_program_number u time write_fault w)
      as [program_number w1].
    rewrite Hb.
    destruct (post_process_setup _ _ _ _ s program_number _)
      as [[[success message] file_path] w3].
    apply IH.
Qed.



Lemma post_all_returns setups w :
  boxes_shown -> exists r w', post_all setups w = (Ok r, w').
Proof.
  intros Hb. unfold post_all, post_process_all_setups. fold post_loop.
  destruct (post_loop_returns setups Hb [] 0 w) as [[results posts] [w' E]].
  rewrite E.
  destruct (_ =? _); [|destruct (_ <? _)]; now eexists _, _.
Qed.

End PostProcessorFacts.

Section PostProcessorClaims.
Import CAMManager PostProcessor.


(** A world before the first run: no counter file, an empty output
    directory. *)
Definition fresh_world : world :=
  {| counter_file := Absent; output_files := []; shown := [];
     time_reads := 0 |}.

(** Hosts for the examples: a clock that stands at 1700012345.5
    seconds, a file system that takes every write and one that takes
    none, message boxes that are shown, and an output directory [NC]. *)
Definition wall_clock (k : nat) : Q := 3400024691 # 2.

Definition writable (w : world) (n : Z) : option (exn * file_state) := None.

Definition read_only (w : world) (n : Z) : option (exn * file_state) :=
  Some (mkExn OSError "Permission denied", counter_file w).

Definition shows (text : string) (w : world) : option exn := None.

Definition in_nc (file_name : string) : string := "NC/" ++ file_name.


(** C8, as the code has it.  A setup without a live operation that has
    a toolpath is turned down before the engine is called, and the
    world is left as it was.  When the engine has run without raising,
    the outcome is decided by whether the file [<programNumber>.nc] is
    in the output directory: if it is, the call succeeds and reports
    the size of the file, whatever it is; if it is not, the call
    fails. *)
Theorem post_process_setup_checks_output_file :
  forall (nc_path : string -> string) (genericPostFolder : string)
         (path_exists : string -> bool)
         (postProcess : setup -> string -> directory
                        -> result unit * directory)
         (s : setup) (program_number : Z) (w : world),
    let post := post_process_setup nc_path genericPostFolder
                                   path_exists postProcess in
    let output_filename := str_of_Z program_number ++ ".nc" in
    (has_valid_toolpath s = false ->
     post s program_number w
     = ((false, "Setup '" ++ name s ++ "' has no valid toolpaths to post",
         None), w))
    /\ (forall files,
           has_valid_toolpath s = true ->
           path_exists (genericPostFolder ++ "/richauto.cps") = true ->
           postProcess s (str_of_Z program_number) (output_files w)
           = (Ok tt, files) ->
           match lookup output_filename files with
           | Some file_size =>
               post s program_number w
               = ((true, "Generated " ++ output_filename ++ " ("
                         ++ str_of_Z file_size ++ " bytes)",
                   Some (nc_path output_filename)),
                  set_output files w)
           | None =>
               post s program_number w
               = ((false, "Post process completed but file not found: "
                          ++ output_filename, None),
                  set_output files w)
           end).
Proof.
  intros nc_path genericPostFolder path_exists postProcess s
         program_number w post output_filename.
  subst post output_filename. unfold post_process_setup. split.
  - intros H. now rewrite H.
  - intros files Hs Hp He. rewrite Hs, Hp, He. cbn [negb].
    now destruct (lookup _ files).
Qed.

(** An engine that writes the program as an empty file. *)
Definition empty_file_engine (s : setup) (program : string)
    (files : directory) : result unit * directory :=
  (Ok tt, (program ++ ".nc", 0%Z) :: files).

(** An engine that writes a program of 2048 bytes. *)
Definition writing_engine (s : setup) (program : string)
    (files : directory) : result unit * directory :=
  (Ok tt, (program ++ ".nc", 2048%Z) :: files).

Definition milled : operation :=
  {| op_name := "Contour1"; isSuppressed := false; hasToolpath := true;
     error := None; warning := None |}.

Definition unmilled : operation :=
  {| op_name := "Pocket1"; isSuppressed := false; hasToolpath := false;
     error := None; warning := None |}.

Definition setup_with (setup_name : string) (o : operation) : setup :=
  {| name := setup_name; allOperations := [o] |}.

Lemma post_process_setup_checks_output_file_witness :
  post_process_setup in_nc "posts" (fun _ => true) writing_engine
    (setup_with "Setup1" unmilled) 1001 fresh_world
  = ((false, "Setup 'Setup1' has no valid toolpaths to post", None),
     fresh_world).
Proof.
  apply (proj1 (post_process_setup_checks_output_file
                  in_nc "posts" (fun _ => true) writing_engine
                  (setup_with "Setup1" unmilled) 1001 fresh_world)).
  reflexivity.
Defined.

(** C8 as stated fails: the engine reports success and leaves an empty
    file, and the call succeeds. *)
Lemma empty_output_file_accepted :
  post_process_setup in_nc "posts" (fun _ => true) empty_file_engine
    (setup_with "Setup1" milled) 1001 fresh_world
  = ((true, "Generated 1001.nc (0 bytes)", Some "NC/1001.nc"),
     set_output [("1001.nc", 0%Z)] fresh_world).
Proof. reflexivity. Qed.


(** The results of the run of the examples below: the second setup
    has nothing to post. *)
Definition three_results : list post_result :=
  [("Setup1", true, "Generated 1001.nc (2048 bytes)", Some "NC/1001.nc");
   ("Setup2", false, "Setup 'Setup2' has no valid toolpaths to post", None);
   ("Setup3", true, "Generated 1003.nc (2048 bytes)", Some "NC/1003.nc")].


(** A setup that fails consumes its number: the files emitted here are
    1001 and 1003. *)
Example failed_setup_leaves_gap :
  fst (post_process_all_setups ascii_runtime wall_clock in_nc "posts"
         (fun _ => true) writing_engine writable shows
         [setup_with "Setup1" milled; setup_with "Setup2" unmilled;
          setup_with "Setup3" milled] fresh_world)
  = Ok (true, "2/3 setup(s) post processed successfully", three_results).
Proof. reflexivity. Qed.


(** A counter file that does not hold an integer is not advanced. *)
Example corrupt_counter_not_advanced :
  counter_file
    (snd (post_process_all_setups ascii_runtime wall_clock in_nc "posts"
            (fun _ => true) writing_engine writable shows
            [setup_with "Setup1" milled]
            (set_counter (Content "10O1") fresh_world)))
  = Content "10O1".
Proof. reflexivity. Qed.

(** A message box that raises ends the call: the number of the first
    setup is used up and nothing is posted. *)
Example raising_box_ends_the_call :
  post_process_all_setups ascii_runtime wall_clock in_nc "posts"
    (fun _ => true) writing_engine writable
    (fun _ _ => Some (mkExn RuntimeError "no user interface"))
    [setup_with "Setup1" milled; setup_with "Setup3" milled] fresh_world
  = (Raise (mkExn RuntimeError "no user interface"),
     set_counter (Content "1001") fresh_world).
Proof. reflexivity. Qed.

End PostProcessorClaims.

(** ** order_processor.py *)

Section OrderProcessorFacts.
Import CAMManager OrderProcessor.

Variables Document Design World : Type.
Variable host :
  forall X, call Document Design X -> World -> result X * World.
Variable repr : json -> string.
Variable basename : string -> string.

#[local] Abbreviation entry := (OrderProcessor.entry Document Design).
#[local] Abbreviation M := (OrderProcessor.M Document Design World).
#[local] Abbreviation state := (OrderProcessor.state Document Design World).
#[local] Abbreviation invoke :=
  (@OrderProcessor.invoke Document Design World host).

(** *** Reading a record of calls *)

(** Calls that only report: the logger and the message box. *)
Definition is_report {X} (c : call Document Design X) : bool :=
  match c with
  | LoggerInfo _ _ _ | LoggerError _ _ _ | MessageBox _ _ _ _ => true
  | _ => false
  end.

Definition reporting (e : entry) : bool :=
  match e with Called _ _ _ c _ => is_report c end.

(** Calls of the G-code emitter. *)
Definition is_emission {X} (c : call Document Design X) : bool :=
  match c with
  | NewPostProcessor _ _ _ | PostProcessAllSetups _ _ _ _ => true
  | _ => false
  end.

Definition emission (e : entry) : bool :=
  match e with Called _ _ _ c _ => is_emission c end.

Definition is_regeneration {X} (c : call Document Design X) : bool :=
  match c with
  | RegenerateAllToolpaths _ _ _ => true
  | _ => false
  end.

(** The answer of a regeneration with [success = false]. *)
Definition reports_failure {X} (c : call Document Design X)
    : result X -> bool :=
  match c in call _ _ X return result X -> bool with
  | RegenerateAllToolpaths _ _ _ =>
      fun answer =>
        match answer with
        | Ok (false, _, _) => true
        | _ => false
        end
  | _ => fun _ => false
  end.

Definition regeneration_failed (e : entry) : bool :=
  match e with Called _ _ _ c answer => reports_failure c answer end.

(** After the first regeneration failure of the record, nothing but
    reports. *)
Fixpoint only_reports_after_failure (seen : bool) (record : list entry)
    : bool :=
  match record with
  | [] => true
  | e :: rest =>
      if seen then reporting e && only_reports_after_failure true rest
      else only_reports_after_failure (regeneration_failed e) rest
  end.

(** *** A monitor for the record *)

Inductive phase := Before | Failed | Passed | Broken.

Definition step (p : phase) (e : entry) : phase :=
  match p with
  | Before =>
      if regeneration_failed e then Failed
      else if emission e then Broken
      else match e with
           | Called _ _ _ c _ => if is_regeneration c then Passed else Before
           end
  | Failed => if reporting e then Failed else Broken
  | Passed => if regeneration_failed e then Broken else Passed
  | Broken => Broken
  end.

Definition phase_from (p : phase) (record : list entry) : phase :=
  fold_left step record p.

Lemma phase_from_app p a b :
  phase_from p (a +++ b) = phase_from (phase_from p a) b.
Proof. apply fold_left_app. Qed.

Lemma phase_broken record : phase_from Broken record = Broken.
Proof. induction record; cbn; auto. Qed.

Lemma reporting_not_failed e : reporting e = true -> regeneration_failed e = false.
Proof. destruct e as [X c answer]. now destruct c. Qed.

Lemma reporting_not_emission e : reporting e = true -> emission e = false.
Proof. destruct e as [X c answer]. now destruct c. Qed.

Lemma step_report p e : reporting e = true -> step p e = p.
Proof.
  intros H. destruct p; cbn; rewrite ?H, ?(reporting_not_failed e H),
    ?(reporting_not_emission e H); try reflexivity.
  destruct e as [X c answer]. now destruct c.
Qed.

Lemma phase_from_cons p e rest :
  phase_from p (e :: rest) = phase_from (step p e) rest.
Proof. reflexivity. Qed.

Lemma phase_failed_stays rest :
  phase_from Passed rest <> Failed.
Proof.
  induction rest as [|e r IH]; [discriminate|].
  rewrite phase_from_cons. cbn [step].
  destruct (regeneration_failed e); [now rewrite phase_broken | exact IH].
Qed.

Lemma phase_after_failure rest :
  phase_from Failed rest = Failed \/ phase_from Failed rest = Broken.
Proof.
  induction rest as [|e r IH]; [now left|].
  rewrite phase_from_cons. cbn [step].
  destruct (reporting e); [exact IH | right; apply phase_broken].
Qed.

Lemma phase_failed_sound record :
  forall p,
    phase_from p record = Failed ->
    match p with
    | Before =>
        existsb emission record = false
        /\ only_reports_after_failure false record = true
    | Failed =>
        existsb emission record = false
        /\ only_reports_after_failure true record = true
    | _ => False
    end.
Proof.
  induction record as [|e rest IH]; intros p H.
  - cbn in H. subst p. now split.
  - rewrite phase_from_cons in H. specialize (IH _ H).
    destruct p; cbn [step] in IH, H;
      cbn [existsb only_reports_after_failure].
    + destruct (regeneration_failed e) eqn:Ef.
      * destruct IH as [I1 I2]. split; [|exact I2].
        rewrite I1, orb_false_r.
        destruct e as [X c answer]. now destruct c.
      * destruct (emission e) eqn:Ee; [now rewrite phase_broken in H|].
        destruct e as [X c answer].
        destruct (is_regeneration c); [contradiction | exact IH].
    + destruct (reporting e) eqn:Er; [|now rewrite phase_broken in H].
      destruct IH as [I1 I2]. rewrite I1, I2, (reporting_not_emission e Er).
      now split.
    + now apply (phase_failed_stays (e :: rest)).
    + now rewrite phase_broken in H.
Qed.

Lemma phase_quiet_sound record :
  forall p,
    (p = Before \/ p = Passed) ->
    (phase_from p record = Before \/ phase_from p record = Passed) ->
    existsb regeneration_failed record = false.
Proof.
  induction record as [|e rest IH]; intros p Hp H; [reflexivity|].
  rewrite phase_from_cons in H. cbn [existsb].
  destruct Hp as [-> | ->]; cbn [step] in H.
  - destruct (regeneration_failed e) eqn:Ef.
    + destruct (phase_after_failure rest) as [R|R]; rewrite R in H;
        destruct H; discriminate.
    + destruct (emission e);
        [rewrite phase_broken in H; destruct H; discriminate|].
      destruct e as [X c answer].
      destruct (is_regeneration c); cbn [orb];
        (eapply IH; [|exact H]); auto.
  - destruct (regeneration_failed e) eqn:Ef;
      [rewrite phase_broken in H; destruct H; discriminate|].
    cbn [orb]. eapply IH; [|exact H]. auto.
Qed.

(** *** Running a program against the monitor *)

(** From a record in phase [p], the program [m] ends with a result and
    a phase that satisfy [Q]. *)
Definition ok_from {A} (p : phase) (m : M A)
    (Q : result A -> phase -> Prop) : Prop :=
  forall (w : World) (record : list entry),
    phase_from Before record = p ->
    Q (fst (m (w, record)))
      (phase_from Before (snd (snd (m (w, record))))).

Lemma okf_ret {A} p (a : A) Q :
  Q (Ok a) p -> ok_from p (ret Document Design World a) Q.
Proof. intros H w record <-. exact H. Qed.

Lemma okf_raise {A} p e (Q : result A -> phase -> Prop) :
  Q (Raise e) p -> ok_from p (raise Document Design World e) Q.
Proof. intros H w record <-. exact H. Qed.

Lemma okf_lift {A} p (r : result A) Q :
  Q r p -> ok_from p (lift Document Design World r) Q.
Proof. intros H w record <-. exact H. Qed.

Lemma okf_bind {A B} p (m : M A) (k : A -> M B) Q :
  ok_from p m (fun r p' =>
                 match r with
                 | Ok a => ok_from p' (k a) Q
                 | Raise e => Q (Raise e) p'
                 end) ->
  ok_from p (mbind Document Design World m k) Q.
Proof.
  intros H w record Hp. specialize (H w record Hp). unfold mbind.
  destruct (m (w, record)) as [[a|e] [w' record']]; cbn [fst snd] in *.
  - now apply H.
  - exact H.
Qed.

Lemma okf_catch {A} p (m : M A) (h : exn -> M A) Q :
  ok_from p m (fun r p' =>
                 match r with
                 | Ok a => Q (Ok a) p'
                 | Raise e => ok_from p' (h e) Q
                 end) ->
  ok_from p (catch Document Design World m h) Q.
Proof.
  intros H w record Hp. specialize (H w record Hp). unfold catch.
  destruct (m (w, record)) as [[a|e] [w' record']]; cbn [fst snd] in *.
  - exact H.
  - now apply H.
Qed.

Lemma okf_invoke {X} p (c : call Document Design X) Q :
  (forall answer, Q answer (step p (Called Document Design X c answer))) ->
  ok_from p (invoke c) Q.
Proof.
  intros H w record <-. unfold OrderProcessor.invoke. cbn [fst snd].
  destruct (host X c w) as [answer w']. cbn [fst snd].
  rewrite phase_from_app. apply H.
Qed.

(** A step that only reports. *)
Definition reports {A} (m : M A) : Prop :=
  exists c : call Document Design A, m = invoke c /\ is_report c = true.

Lemma okf_for_each {A} p (f : A -> M unit) (l : list A)
    (Q : result unit -> phase -> Prop) :
  (forall a, reports (f a)) ->
  Q (Ok tt) p -> (forall e, Q (Raise e) p) ->
  ok_from p (for_each Document Design World f l) Q.
Proof.
  intros Hf Hok Hraise. induction l as [|a r IH]; cbn [for_each].
  - now apply okf_ret.
  - apply okf_bind. destruct (Hf a) as [c [-> Hc]].
    apply okf_invoke. intros answer.
    rewrite (step_report p (Called Document Design unit c answer) Hc).
    destruct answer; [exact IH | apply Hraise].
Qed.

(** What a run of the steps of a component leaves behind: a record the
    monitor accepts, and a failure when regeneration failed. *)
Definition settled (r : result (bool * string)) (p : phase) : Prop :=
  p <> Broken
  /\ (p = Failed ->
      match r with
      | Ok (success, _) => success = false
      | Raise _ => True
      end).

Ltac settle :=
  let H := fresh "H" in
  cbn [step regeneration_failed reports_failure emission is_emission
       is_regeneration reporting is_report];
  split; [discriminate | intros H; first [discriminate H | reflexivity]].

Ltac report_step :=
  let r := fresh "r" in
  intros r; unfold reports;
  match goal with
  | |- context [if ?b then _ else _] => destruct b
  | _ => idtac
  end;
  eexists; split; reflexivity.

Ltac exec :=
  cbn beta iota zeta;
  cbn [step regeneration_failed reports_failure emission is_emission
       is_regeneration reporting is_report negb];
  lazymatch goal with
  | |- settled _ _ => settle
  | |- ok_from _ (mbind _ _ _ _ _) _ => apply okf_bind; exec
  | |- ok_from _ (catch _ _ _ _ _) _ => apply okf_catch; exec
  | |- ok_from _ (ret _ _ _ _) _ => apply okf_ret; exec
  | |- ok_from _ (raise _ _ _ _) _ => apply okf_raise; exec
  | |- ok_from _ (lift _ _ _ ?r) _ =>
      apply okf_lift; destruct r; exec
  | |- ok_from _ (for_each _ _ _ _ _) _ =>
      apply okf_for_each; [report_step | exec | intros ?; exec]
  | |- ok_from _ (OrderProcessor.invoke _ _ _ _ (RegenerateAllToolpaths _ _ _)) _ =>
      apply okf_invoke; intros [[[[|] ?] ?]|?]; exec
  | |- ok_from _ (OrderProcessor.invoke _ _ _ _ _) _ =>
      apply okf_invoke; intros [?|?]; exec
  | |- ok_from _ (if ?b then _ else _) _ => destruct b; exec
  | |- ok_from _ (match ?x with _ => _ end) _ => destruct x; exec
  | |- ok_from _ (let '(_, _) := ?x in _) _ => destruct x; exec
  | |- _ => idtac
  end.

Lemma component_steps_settled c comp_id comp_num total_comps :
  ok_from Before
    (component_steps Document Design World host repr basename
       c comp_id comp_num total_comps)
    settled.
Proof.
  unfold component_steps. exec.
Qed.

Lemma okf_weaken {A} p (m : M A) (Q Q' : result A -> phase -> Prop) :
  ok_from p m Q -> (forall r p', Q r p' -> Q' r p') -> ok_from p m Q'.
Proof. intros H HQ w record Hp. apply HQ. now apply H. Qed.

(** A component that is an object always gets a result. *)
Lemma process_component_object_returns c comp_num total_comps (s : state) :
  exists r s',
    process_component Document Design World host repr basename
      (JObj c) comp_num total_comps s = (Ok r, s').
Proof.
  unfold process_component, catch.
  destruct (component_steps _ _ _ _ _ _ _ _ _ _ s) as [[r|e] s'].
  - now exists r, s'.
  - cbn. now eexists _, _.
Qed.

Lemma process_component_settled c comp_num total_comps :
  ok_from Before
    (process_component Document Design World host repr basename
       (JObj c) comp_num total_comps)
    (fun r p =>
       exists success message,
         r = Ok (success, message)
         /\ p <> Broken /\ (p = Failed -> success = false)).
Proof.
  unfold process_component. apply okf_catch.
  eapply okf_weaken; [apply component_steps_settled|].
  intros [[success message]|e] p [H1 H2].
  - now exists success, message.
  - cbn [component_handler]. apply okf_ret. eexists _, _.
    split; [reflexivity | split; [exact H1 | reflexivity]].
Qed.

(** C7.  In a run of [process_component] in which the regeneration of
    the toolpaths reports failure, the component is returned as failed,
    the G-code emitter is never called (neither its construction nor
    [post_process_all_setups]), and after the failing answer the run
    calls nothing but the logger and the message box. *)
Theorem regeneration_failure_prevents_emission :
  forall (component : json) (comp_num total_comps : nat) (w : World),
    let outcome :=
      run Document Design World
        (process_component Document Design World host repr basename
           component comp_num total_comps) w in
    let record := snd (snd outcome) in
    existsb regeneration_failed record = true ->
    (exists message, fst outcome = Ok (false, message))
    /\ existsb emission record = false
    /\ length (filter emission record) = 0
    /\ only_reports_after_failure false record = true.
Proof.
  intros component comp_num total_comps w outcome record Hfail.
  subst record outcome. unfold run in *.
  destruct component as [| | | | | |c];
    try (cbn in Hfail; discriminate).
  pose proof (process_component_settled c comp_num total_comps w [] eq_refl)
    as [success [message [Hr [Hb Hf]]]].
  destruct (process_component _ _ _ _ _ _ (JObj c) _ _ (w, []))
    as [r [w' record]].
  cbn [fst snd] in *. subst r.
  destruct (phase_from Before record) eqn:Ep.
  - rewrite (phase_quiet_sound record Before) in Hfail;
      [discriminate | now left | now left].
  - destruct (phase_failed_sound record Before Ep) as [He Ho].
    rewrite (Hf eq_refl). repeat split; try assumption.
    + now exists message.
    + clear -He. induction record as [|e r IH]; [reflexivity|].
      cbn in He |- *. apply orb_false_elim in He as [H1 H2].
      rewrite H1. now apply IH.
  - rewrite (phase_quiet_sound record Before) in Hfail;
      [discriminate | now left | now right].
  - congruence.
Qed.

(** *** The loop over the components *)

(** The components of [items] were processed one after the other from
    the state [s], each on the state its predecessor left, giving
    [results] and the state [s']. *)
Inductive attempted_in_order (total : nat)
    : list json -> nat -> state -> list (bool * string) -> state -> Prop :=
| attempted_none idx s : attempted_in_order total [] idx s [] s
| attempted_next component rest idx s r s1 results s2 :
    process_component Document Design World host repr basename
      component (idx + 1) total s = (Ok r, s1) ->
    attempted_in_order total rest (S idx) s1 results s2 ->
    attempted_in_order total (component :: rest) idx s (r :: results) s2.

Lemma process_each_objects total items :
  forall idx (s : state),
    forallb is_dict items = true ->
    exists results s',
      process_each Document Design World host repr basename
        items idx total s = (Ok results, s')
      /\ attempted_in_order total items idx s results s'
      /\ length results = length items.
Proof.
  induction items as [|component rest IH]; intros idx s H.
  - exists [], s. repeat split. constructor.
  - cbn [forallb] in H. apply andb_prop in H as [Hc Hr].
    destruct component; try discriminate.
    destruct (process_component_object_returns items (idx + 1) total s)
      as [r [s1 E1]].
    destruct (IH (S idx) s1 Hr) as [results [s2 [E2 [A2 L2]]]].
    exists (r :: results), s2. cbn [process_each]. unfold mbind at 1.
    rewrite E1. unfold mbind at 1. rewrite E2. cbn [ret length].
    repeat split; [econstructor; eassumption | now rewrite L2].
Qed.

Lemma summary_success order_id results :
  fst (summary order_id results) = forallb fst results.
Proof.
  unfold summary, success_count.
  assert (H : (length (filter fst results) =? length results)
              = forallb fst results).
  { induction results as [|[b m] r IH]; [reflexivity|].
    cbn [filter forallb fst length]. destruct b; cbn [andb length].
    - exact IH.
    - pose proof (filter_length_le fst r).
      apply Nat.eqb_neq. lia. }
  rewrite H. now destruct (forallb fst results).
Qed.

(** The message of an order in which some component failed. *)
Lemma summary_partial order_id results :
  forallb fst results = false ->
  summary order_id results
  = (false,
     "Order " ++ order_id ++ " partially completed." ++ nl ++ nl
     ++ str_of_nat (success_count results) ++ "/"
     ++ str_of_nat (length results) ++ " components successful"
     ++ nl ++ nl ++ "Failed components:" ++ nl
     ++ failed_lines results 0).
Proof.
  intros H. pose proof (summary_success order_id results) as Hs.
  rewrite H in Hs. unfold summary in *.
  now destruct (success_count results =? length results).
Qed.

(** Every failed component has its line in the list. *)
Lemma failed_lines_itemized results :
  forall idx i message,
    nth_error results i = Some (false, message) ->
    contains ("  Component " ++ str_of_nat (idx + i + 1) ++ ": "
              ++ message ++ nl)
             (failed_lines results idx) = true.
Proof.
  induction results as [|[success msg] rest IH]; intros idx i message H.
  - now destruct i.
  - destruct i as [|i]; cbn [nth_error failed_lines] in *.
    + injection H as -> ->. cbn [negb]. rewrite Nat.add_0_r.
      apply contains_left, contains_self.
    + apply contains_skip.
      replace (idx + S i + 1) with (S idx + i + 1) by lia.
      now apply IH.
Qed.

(** The failed components of [results], each with its position counted
    from one and its message, the first at position [idx + 1]. *)
Definition failing_from (idx : nat) (results : list (bool * string))
    : list (nat * string) :=
  map (fun ir => (fst ir + 1, snd (snd ir)))
      (filter (fun ir => negb (fst (snd ir)))
              (combine (seq idx (length results)) results)).

Definition failing_items (results : list (bool * string))
    : list (nat * string) :=
  failing_from 0 results.

(** The line of the report for a failed component. *)
Definition item_line (item : nat * string) : string :=
  "  Component " ++ str_of_nat (fst item) ++ ": " ++ snd item ++ nl.

Lemma failed_lines_items results :
  forall idx,
    failed_lines results idx
    = fold_right String.append "" (map item_line (failing_from idx results)).
Proof.
  unfold failing_from.
  induction results as [|[success msg] rest IH]; intros idx; [reflexivity|].
  cbn [failed_lines length seq combine filter fst snd].
  rewrite IH. destruct success; cbn [negb map fold_right fst snd];
    reflexivity.
Qed.

(** On an order whose components are objects, [process_order] runs
    through every component and folds the results. *)
Lemma process_order_objects order_file_path (w w1 w2 w3 : World)
    (record : list entry) (o : list (string * json))
    (components : list json) :
  let order_id := str repr (get_default o "orderId" (JStr "unknown")) in
  let loading := LoggerInfo Document Design
                   ("Loading order from: " ++ order_file_path) in
  let reading := ReadOrderFile Document Design order_file_path in
  let starting := LoggerInfo Document Design
                    ("Processing order: " ++ order_id ++ " with "
                     ++ str_of_nat (length components) ++ " component(s)") in
  host unit loading w = (Ok tt, w1) ->
  host json reading w1 = (Ok (JObj o), w2) ->
  host unit starting w2 = (Ok tt, w3) ->
  get_default o "components" (JArr []) = JArr components ->
  components <> [] ->
  forallb is_dict components = true ->
  exists results s',
    process_order Document Design World host repr basename
      order_file_path (w, record)
    = (Ok (summary order_id results), s')
    /\ attempted_in_order (length components) components 0
         (w3, record +++ [Called _ _ _ loading (Ok tt)]
                     +++ [Called _ _ _ reading (Ok (JObj o))]
                     +++ [Called _ _ _ starting (Ok tt)])
         results s'
    /\ length results = length components.
Proof.
  intros order_id loading reading starting H1 H2 H3 Hc Hne Hobj.
  destruct (process_each_objects (length components) components 0
              (w3, record +++ [Called _ _ _ loading (Ok tt)]
                          +++ [Called _ _ _ reading (Ok (JObj o))]
                          +++ [Called _ _ _ starting (Ok tt)]) Hobj)
    as [results [s' [E [A L]]]].
  exists results, s'. split; [|split; assumption].
  assert (Ho : truthy (JObj o) = true).
  { destruct o; [|reflexivity]. cbn in Hc. injection Hc as <-.
    congruence. }
  unfold process_order, catch, load_order_file.
  unfold mbind at 1. unfold OrderProcessor.invoke at 1. cbn [fst snd].
  fold loading. rewrite H1.
  unfold mbind at 1. unfold catch at 1.
  unfold OrderProcessor.invoke at 1. cbn [fst snd].
  fold reading. rewrite H2. rewrite Ho. cbn [negb].
  rewrite Hc. cbn [py_len py_iter truthy].
  unfold mbind at 1. unfold lift at 1.
  unfold mbind at 1. unfold OrderProcessor.invoke at 1. cbn [fst snd].
  fold order_id. fold starting. rewrite H3.
  destruct components as [|c0 cs]; [congruence|]. cbn [negb].
  unfold mbind at 1. unfold lift at 1.
  unfold mbind at 1. rewrite E. reflexivity.
Qed.

End OrderProcessorFacts.

Section OrderProcessorClaims.
Import CAMManager OrderProcessor.

(** A host for the examples: documents and designs are numbers, the
    world carries nothing, the order file holds [order], every
    collaborator answers, and regeneration reports [regen_success]. *)
Definition scripted_host (order : json) (regen_success : bool)
    (X : Type) (c : call nat nat X) (w : unit) : result X * unit :=
  (match c in call _ _ X return result X with
   | LoggerInfo _ _ _ => Ok tt
   | LoggerError _ _ _ => Ok tt
   | MessageBox _ _ _ _ => Ok tt
   | ReadOrderFile _ _ _ => Ok order
   | OpenDocument _ _ _ => Ok (true, Some 0)
   | DesignOf _ _ _ => Ok (Some 0)
   | UpdateParametersBatch _ _ _ _ =>
       Ok [("width", true, "Updated 'width' from '30 in' to '36 in'")]
   | GetCamProduct _ _ _ => Ok (true, "CAM product accessed")
   | ListSetupNames _ _ _ => Ok ["Setup1"]
   | RegenerateAllToolpaths _ _ _ =>
       if regen_success then
         Ok (true, "All toolpaths regenerated successfully for 1 setup(s)",
             [("Setup1", true, "Regenerated 1/1 toolpaths")])
       else
         Ok (false, "Toolpath regeneration failed for setup(s): Setup1",
             [("Setup1", false, "No operations regenerated (0 total)")])
   | NewPostProcessor _ _ _ => Ok tt
   | GetAllSetups _ _ _ => Ok [setup_with "Setup1" milled]
   | PostProcessAllSetups _ _ _ _ =>
       Ok (true, "All 1 setup(s) post processed successfully",
           [("Setup1", true, "Generated 1001.nc (2048 bytes)",
             Some "NC/1001.nc")])
   end, w).

Definition panel : json :=
  JObj [("componentId", JStr "panel-1");
        ("fusionModelPath", JStr "panel.f3d");
        ("parameters", JObj [("width", JStr "36 in")])].

Lemma regeneration_failure_prevents_emission_witness :
  (exists message,
      fst (run nat nat unit
             (process_component nat nat unit (scripted_host JNull false)
                (fun _ => "") (fun p => p) panel 1 1) tt)
      = Ok (false, message))
  /\ existsb (emission nat nat)
       (snd (snd (run nat nat unit
                    (process_component nat nat unit (scripted_host JNull false)
                       (fun _ => "") (fun p => p) panel 1 1) tt))) = false
  /\ length
       (filter (emission nat nat)
          (snd (snd (run nat nat unit
                       (process_component nat nat unit
                          (scripted_host JNull false)
                          (fun _ => "") (fun p => p) panel 1 1) tt)))) = 0
  /\ only_reports_after_failure nat nat false
       (snd (snd (run nat nat unit
                    (process_component nat nat unit (scripted_host JNull false)
                       (fun _ => "") (fun p => p) panel 1 1) tt))) = true.
Proof.
  apply (regeneration_failure_prevents_emission nat nat unit
           (scripted_host JNull false) (fun _ => "") (fun p => p) panel 1 1 tt).
  reflexivity.
Defined.

(** With regeneration succeeding the same component is emitted. *)
Example component_emitted_after_regeneration :
  fst (run nat nat unit
         (process_component nat nat unit (scripted_host JNull true)
            (fun _ => "") (fun p => p) panel 1 1) tt)
  = Ok (true, "panel-1: Complete - 1 NC file(s) generated").
Proof. reflexivity. Qed.

Definition order_with (components : list json) : json :=
  JObj [("version", JStr "1.0.0"); ("orderId", JStr "ORD-1");
        ("components", JArr components)].

(** A component that is not an object is outside what
    [process_component] declares ([component: Dict]) and what
    [validate_json_file] lets through to [process_order].  On such an
    order the loop stops at that component: its failure leaves
    [process_component] through the [except] clause, which reads
    [comp_id] before it was bound; [process_order] returns the text of
    that second failure, and the second component is never attempted. *)
Example process_order_stops_at_non_object_component :
  run nat nat unit
    (process_order nat nat unit
       (scripted_host (order_with [JInt 5; panel]) true)
       (fun _ => "") (fun p => p) "order.json") tt
  = (Ok (false,
         "Order processing failed: cannot access local variable 'comp_id' "
         ++ "where it is not associated with a value"),
     (tt,
      [Called nat nat unit
         (LoggerInfo nat nat "Loading order from: order.json") (Ok tt);
       Called nat nat json
         (ReadOrderFile nat nat "order.json")
         (Ok (order_with [JInt 5; panel]));
       Called nat nat unit
         (LoggerInfo nat nat "Processing order: ORD-1 with 2 component(s)")
         (Ok tt)])).
Proof. reflexivity. Qed.

(** An order of two components that are objects is processed to the
    end. *)
Example process_order_two_objects :
  fst (run nat nat unit
         (process_order nat nat unit
            (scripted_host (order_with [panel; panel]) true)
            (fun _ => "") (fun p => p) "order.json") tt)
  = Ok (true,
        "Order ORD-1 completed successfully!" ++ nl ++ nl
        ++ "Processed 2 component(s)").
Proof. reflexivity. Qed.

(** A component that fails without raising does not stop the loop. *)
Example process_order_partial :
  fst (run nat nat unit
         (process_order nat nat unit
            (scripted_host
               (order_with [panel; JObj [("componentId", JStr "door-2")];
                            panel]) true)
            (fun _ => "") (fun p => p) "order.json") tt)
  = Ok (false,
        "Order ORD-1 partially completed." ++ nl ++ nl
        ++ "2/3 components successful" ++ nl ++ nl
        ++ "Failed components:" ++ nl
        ++ "  Component 2: door-2: No fusionFile specified" ++ nl).
Proof. reflexivity. Qed.

(** A host that keeps what the logger is told: the world is the list of
    the [info] messages so far; the other calls answer as
    [scripted_host] and leave the world alone. *)
Definition logging_host (order : json) (regen_success : bool)
    (X : Type) (c : call nat nat X) (w : list string)
    : result X * list string :=
  (fst (scripted_host order regen_success X c tt),
   match c with
   | LoggerInfo _ _ message => w +++ [message]
   | _ => w
   end).

(** C1.  On an order file read as an object whose [components] is a
    non-empty list of objects, with the logger answering the two lines
    that announce the order, [process_order] processes every component
    in the order of the list, each on the state its predecessor left,
    whatever the earlier components returned.  The outcome is success
    exactly when every component succeeded, with the message of a
    completed order; otherwise the message is the [partially completed]
    report: the count of successes over the total, and one line
    [Component <i>: <message>] for each failed component, in order,
    [i] counting from one. *)
Theorem process_order_attempts_every_component :
  forall (Document Design World : Type)
         (host : forall X, call Document Design X -> World
                           -> result X * World)
         (repr : json -> string) (basename : string -> string)
         (order_file_path : string) (w w1 w2 w3 : World)
         (record : list (entry Document Design))
         (o : list (string * json)) (components : list json),
    let order_id := str repr (get_default o "orderId" (JStr "unknown")) in
    let loading := LoggerInfo Document Design
                     ("Loading order from: " ++ order_file_path) in
    let reading := ReadOrderFile Document Design order_file_path in
    let starting := LoggerInfo Document Design
                      ("Processing order: " ++ order_id ++ " with "
                       ++ str_of_nat (length components)
                       ++ " component(s)") in
    host unit loading w = (Ok tt, w1) ->
    host json reading w1 = (Ok (JObj o), w2) ->
    host unit starting w2 = (Ok tt, w3) ->
    get_default o "components" (JArr []) = JArr components ->
    components <> [] ->
    forallb is_dict components = true ->
    exists (results : list (bool * string))
           (s' : state Document Design World),
      attempted_in_order Document Design World host repr basename
        (length components) components 0
        (w3, record +++ [Called _ _ _ loading (Ok tt)]
                    +++ [Called _ _ _ reading (Ok (JObj o))]
                    +++ [Called _ _ _ starting (Ok tt)])
        results s'
      /\ length results = length components
      /\ process_order Document Design World host repr basename
           order_file_path (w, record)
         = (Ok (forallb fst results,
                if forallb fst results
                then "Order " ++ order_id ++ " completed successfully!"
                     ++ nl ++ nl ++ "Processed "
                     ++ str_of_nat (length components) ++ " component(s)"
                else "Order " ++ order_id ++ " partially completed."
                     ++ nl ++ nl
                     ++ str_of_nat (length (filter fst results)) ++ "/"
                     ++ str_of_nat (length components)
                     ++ " components successful" ++ nl ++ nl
                     ++ "Failed components:" ++ nl
                     ++ fold_right String.append ""
                          (map item_line (failing_items results))),
            s').
Proof.
  intros Document Design World host repr basename order_file_path
         w w1 w2 w3 record o components order_id loading reading starting
         H1 H2 H3 Hc Hne Hobj.
  destruct (process_order_objects Document Design World host repr basename
              order_file_path w w1 w2 w3 record o components
              H1 H2 H3 Hc Hne Hobj) as [results [s' [E [A L]]]].
  exists results, s'. fold order_id in E.
  split; [exact A | split; [exact L|]].
  rewrite E. do 2 f_equal.
  pose proof (summary_success order_id results) as Hs.
  destruct (forallb fst results) eqn:F.
  - unfold summary in *. rewrite <- L.
    now destruct (success_count results =? length results).
  - rewrite (summary_partial order_id results F).
    unfold failing_items. rewrite <- failed_lines_items, <- L. reflexivity.
Qed.

(** The order of the specification's example: three components, the
    second without a model file. *)
Definition three_part_order : list (string * json) :=
  [("version", JStr "1.0.0"); ("orderId", JStr "ORD-1");
   ("components",
    JArr [panel; JObj [("componentId", JStr "door-2")]; panel])].

Lemma process_order_attempts_every_component_witness :
  exists (results : list (bool * string))
         (s' : state nat nat (list string)),
    attempted_in_order nat nat (list string)
      (logging_host (JObj three_part_order) true)
      (fun _ => "") (fun p => p) 3
      [panel; JObj [("componentId", JStr "door-2")]; panel] 0
      (["Loading order from: order.json";
        "Processing order: ORD-1 with 3 component(s)"],
       [Called nat nat unit
          (LoggerInfo nat nat "Loading order from: order.json") (Ok tt);
        Called nat nat json (ReadOrderFile nat nat "order.json")
          (Ok (JObj three_part_order));
        Called nat nat unit
          (LoggerInfo nat nat "Processing order: ORD-1 with 3 component(s)")
          (Ok tt)])
      results s'
    /\ length results = 3
    /\ process_order nat nat (list string)
         (logging_host (JObj three_part_order) true)
         (fun _ => "") (fun p => p) "order.json" ([], [])
       = (Ok (forallb fst results,
              if forallb fst results
              then "Order ORD-1 completed successfully!"
                   ++ nl ++ nl ++ "Processed 3 component(s)"
              else "Order ORD-1 partially completed."
                   ++ nl ++ nl
                   ++ str_of_nat (length (filter fst results)) ++ "/3"
                   ++ " components successful" ++ nl ++ nl
                   ++ "Failed components:" ++ nl
                   ++ fold_right String.append ""
                        (map item_line (failing_items results))),
          s').
Proof.
  apply (process_order_attempts_every_component nat nat (list string)
           (logging_host (JObj three_part_order) true)
           (fun _ => "") (fun p => p) "order.json"
           [] ["Loading order from: order.json"]
           ["Loading order from: order.json"]
           ["Loading order from: order.json";
            "Processing order: ORD-1 with 3 component(s)"]
           [] three_part_order
           [panel; JObj [("componentId", JStr "door-2")]; panel]).
  - reflexivity.
  - reflexivity.
  - reflexivity.
  - reflexivity.
  - discriminate.
  - reflexivity.
Defined.

(** On that order the run returns the report of the example: the third
    component is processed after the second has failed. *)
Example process_order_logged_partial :
  fst (process_order nat nat (list string)
         (logging_host (JObj three_part_order) true)
         (fun _ => "") (fun p => p) "order.json" ([], []))
  = Ok (false,
        "Order ORD-1 partially completed." ++ nl ++ nl
        ++ "2/3 components successful" ++ nl ++ nl
        ++ "Failed components:" ++ nl
        ++ "  Component 2: door-2: No fusionFile specified" ++ nl).
Proof. vm_compute. reflexivity. Qed.

End OrderProcessorClaims.

(* ===================================================================== *)
(** * Further properties of validator.py *)
(* ===================================================================== *)

Section VersionFormat.
Import Validator.

Variable u : runtime.

Definition no_dot (s : string) : bool :=
  all_chars (fun c => negb (Ascii.eqb c ".")) s.

Lemma characters_head (d : ascii) (r : string) :
  exists x t, characters (String d r) = String d x :: t.
Proof.
  cbn [characters]. destruct (negb (is_ascii d) && continues r).
  - destruct (characters r); now eexists _, _.
  - now eexists _, _.
Qed.

Lemma continuation_not_ascii (c : ascii) :
  is_continuation c = true -> is_ascii c = false.
Proof.
  unfold is_continuation, is_ascii. intros H.
  apply andb_prop in H as [H _]. apply Nat.leb_le in H.
  apply Nat.ltb_ge. exact H.
Qed.

(** A character is one byte, or bytes none of which is ASCII. *)
Definition character_shape (ch : string) : bool :=
  match ch with
  | String _ EmptyString => true
  | _ => all_chars (fun c => negb (is_ascii c)) ch
  end.

Lemma characters_shape s : forallb character_shape (characters s) = true.
Proof.
  induction s as [|c r IH]; [reflexivity|]. cbn [characters].
  destruct (negb (is_ascii c) && continues r) eqn:E; [|exact IH].
  apply andb_prop in E as [Ec Er].
  destruct r as [|d r']; [discriminate|]. cbn [continues] in Er.
  destruct (characters_head d r') as [x [t Hx]]. rewrite Hx in IH |- *.
  cbn [forallb] in IH |- *. apply andb_prop in IH as [Hh Ht].
  rewrite Ht, andb_true_r. cbn [character_shape all_chars].
  rewrite Ec, (continuation_not_ascii d Er). cbn [negb andb].
  destruct x as [|e x']; [reflexivity|].
  cbn [character_shape all_chars] in Hh.
  now apply andb_prop in Hh as [_ Hh].
Qed.

Lemma no_dot_characters s : forallb no_dot (characters s) = no_dot s.
Proof.
  unfold no_dot. induction s as [|c r IH]; [reflexivity|].
  cbn [characters all_chars]. rewrite <- IH.
  destruct (negb (is_ascii c) && continues r).
  - destruct (characters r) as [|h t]; cbn [forallb all_chars];
      [now rewrite !andb_true_r | now rewrite andb_assoc].
  - cbn [forallb all_chars]. now rewrite andb_true_r.
Qed.

Lemma not_ascii_no_dot ch :
  all_chars (fun c => negb (is_ascii c)) ch = true -> no_dot ch = true.
Proof.
  unfold no_dot. induction ch as [|c r IH]; cbn [all_chars]; [reflexivity|].
  intros H. apply andb_prop in H as [Hc Hr]. rewrite (IH Hr), andb_true_r.
  destruct (Ascii.eqb_spec c "."); [subst c; discriminate | reflexivity].
Qed.

Lemma digit_character_no_dot ch :
  character_shape ch = true -> digit_character u ch = true ->
  no_dot ch = true.
Proof.
  destruct ch as [|c [|d r]]; [reflexivity | |].
  - intros _. unfold digit_character, in_class, no_dot. cbn [all_chars].
    rewrite andb_true_r.
    destruct (Ascii.eqb_spec c "."); [subst c; discriminate | reflexivity].
  - intros H _. now apply not_ascii_no_dot.
Qed.

Lemma isdigit_no_dot s : isdigit u s = true -> no_dot s = true.
Proof.
  unfold isdigit. intros H. rewrite <- no_dot_characters.
  pose proof (characters_shape s) as Hs.
  assert (Hd : forallb (digit_character u) (characters s) = true)
    by (destruct (characters s); [discriminate | exact H]).
  clear H. induction (characters s) as [|ch t IH]; [reflexivity|].
  cbn [forallb] in *.
  apply andb_prop in Hs as [Hs1 Hs2]. apply andb_prop in Hd as [Hd1 Hd2].
  now rewrite (digit_character_no_dot ch Hs1 Hd1), IH.
Qed.

Lemma split_nonempty c s : split c s <> [].
Proof.
  induction s as [|a r IH]; cbn [split]; [discriminate|].
  destruct (Ascii.eqb a c); [discriminate|].
  destruct (split c r); [congruence | discriminate].
Qed.

Lemma split_no_dot s : no_dot s = true -> split "." s = [s].
Proof.
  unfold no_dot. induction s as [|a r IH]; cbn [split all_chars];
    [reflexivity|].
  intros H. apply andb_prop in H as [Ha Hr].
  apply negb_true_iff in Ha. rewrite Ha, (IH Hr). reflexivity.
Qed.

Lemma split_at_dot a rest :
  no_dot a = true -> split "." (a ++ String "." rest) = a :: split "." rest.
Proof.
  unfold no_dot. induction a as [|c r IH]; cbn [append split all_chars].
  - reflexivity.
  - intros H. apply andb_prop in H as [Hc Hr].
    apply negb_true_iff in Hc. rewrite Hc, (IH Hr). reflexivity.
Qed.

(** [".".join(s.split("."))] gives [s] back. *)
Lemma join_split s : join "." (split "." s) = s.
Proof.
  unfold join. induction s as [|a r IH]; cbn [split]; [reflexivity|].
  pose proof (split_nonempty "." r) as Hn.
  destruct (split "." r) as [|h t] eqn:E; [congruence|].
  destruct (Ascii.eqb_spec a ".") as [->|Hne].
  - change (String.concat "." ("" :: h :: t))
      with ("" ++ "." ++ String.concat "." (h :: t)).
    cbn [append]. now rewrite IH.
  - destruct t as [|t0 t1].
    + cbn [String.concat] in *. now rewrite IH.
    + change (String.concat "." (String a h :: t0 :: t1))
        with (String a h ++ "." ++ String.concat "." (t0 :: t1)).
      change (String.concat "." (h :: t0 :: t1))
        with (h ++ "." ++ String.concat "." (t0 :: t1)) in IH.
      cbn [append]. now rewrite <- IH.
Qed.

(** X1.  [_validate_version] accepts exactly the strings made of three
    groups separated by two dots, each group one or more characters that
    are digits for [str.isdigit], be they ASCII or not. *)
Theorem version_accepted_iff_three_digit_groups :
  forall version : json,
    _validate_version u version = true
    <-> exists major minor patch,
          version = JStr (major ++ "." ++ minor ++ "." ++ patch)
          /\ isdigit u major = true /\ isdigit u minor = true
          /\ isdigit u patch = true.
Proof.
  intros version. split.
  - destruct version; try discriminate. cbn [_validate_version].
    pose proof (join_split s) as Hj.
    destruct (split "." s) as [|a [|b [|c [|d t]]]]; try discriminate.
    cbn. intros H.
    apply andb_prop in H as [Ha H]. apply andb_prop in H as [Hb H].
    apply andb_prop in H as [Hc _].
    exists a, b, c. repeat split; try assumption.
    now rewrite <- Hj.
  - intros [a [b [c [-> [Ha [Hb Hc]]]]]]. cbn [_validate_version].
    change (a ++ "." ++ b ++ "." ++ c)
      with (a ++ String "." (b ++ String "." c)).
    rewrite (split_at_dot a), (split_at_dot b), (split_no_dot c)
      by (apply isdigit_no_dot; assumption).
    cbn. now rewrite Ha, Hb, Hc.
Qed.

(** A version whose last group is a digit outside ASCII is accepted. *)
Example version_with_superscript_accepted :
  _validate_version wide_runtime (JStr ("1.0." ++ superscript_two)) = true.
Proof. reflexivity. Qed.

End VersionFormat.

Section ComponentValidation.
Import Validator.

Lemma app_nil_iff {A} (a b : list A) : a +++ b = [] <-> a = [] /\ b = [].
Proof.
  split; [apply app_eq_nil | intros [-> ->]; reflexivity].
Qed.

(** A parameter entry the validator lets pass: a name that is not
    empty, and a value that is an [int] (a [bool] is one), a [float] or
    a [str]. *)
Definition named_scalar (kv : string * json) : bool :=
  nonempty (fst kv)
  && (is_int (snd kv) || is_float (snd kv) || is_str (snd kv)).

Definition nonempty_string (v : json) : bool :=
  match v with JStr s => nonempty s | _ => false end.

(** A component in the words of the schema: the three required fields
    are there, [componentId] and [fusionModelPath] are non-empty
    strings, [parameters] is null or an object of named scalars,
    [setupNames] if given is a list of strings, [postProcessorConfig]
    if given is an object. *)
Definition well_formed_component (c : list (string * json)) : bool :=
  forallb (fun field => has_key field c) component_required_fields
  && nonempty_string (get c "componentId")
  && nonempty_string (get c "fusionModelPath")
  && match get c "parameters" with
     | JNull => true
     | JObj parameters => forallb named_scalar parameters
     | _ => false
     end
  && match lookup "setupNames" c with
     | None => true
     | Some (JArr setup_names) => forallb is_str setup_names
     | Some _ => false
     end
  && match lookup "postProcessorConfig" c with
     | None | Some (JObj _) => true
     | Some _ => false
     end.

Lemma _validate_parameters_nil parameters pfx :
  _validate_parameters parameters pfx = []
  <-> forallb named_scalar parameters = true.
Proof.
  induction parameters as [|[k v] r IH]; cbn [_validate_parameters forallb];
    [easy|].
  rewrite app_nil_iff, IH, andb_true_iff. unfold named_scalar. cbn [fst snd].
  destruct (nonempty k); cbn [negb andb].
  - destruct (is_int v || is_float v || is_str v); cbn [negb];
      intuition discriminate.
  - intuition discriminate.
Qed.

Lemma text_check_nil (v : json) (e : string) :
  (if negb (truthy v) || negb (is_str v) then [e] else []) = []
  <-> nonempty_string v = true.
Proof.
  destruct v as [|b|z|q|s|l|l];
    cbn [is_str nonempty_string negb]; rewrite ?orb_true_r;
    try (intuition discriminate).
  destruct s; cbn; intuition discriminate.
Qed.

Lemma get_default_text c k :
  nonempty_string (get_default c k (JStr "")) = nonempty_string (get c k).
Proof. unfold get_default, get. now destruct (lookup k c). Qed.

Lemma object_component_valid (c : list (string * json)) (index : nat) :
  _validate_component (JObj c) index = []
  <-> well_formed_component c = true.
Proof.
  split.
  - intros H.
    unfold _validate_component in H. rewrite !app_nil_iff in H.
    destruct H as [[[[[H H4] H3] H2] H1] H0].
    unfold well_formed_component. rewrite !andb_true_iff.
    split; [split; [split; [split; [split|]|]|]|].
    + unfold component_required_fields in *. cbn in H |- *.
      destruct (has_key "componentId" c); [|discriminate].
      destruct (has_key "fusionModelPath" c); [|discriminate].
      destruct (has_key "parameters" c); [reflexivity | discriminate].
    + rewrite <- get_default_text. exact (proj1 (text_check_nil _ _) H4).
    + rewrite <- get_default_text. exact (proj1 (text_check_nil _ _) H3).
    + destruct (get c "parameters"); try discriminate; try reflexivity.
      now apply _validate_parameters_nil in H2.
    + destruct (lookup "setupNames" c) as [[]|]; try discriminate;
        try reflexivity.
      now destruct (forallb is_str items).
    + now destruct (lookup "postProcessorConfig" c) as [[]|].
  - intros H. unfold well_formed_component in H.
    rewrite !andb_true_iff in H.
    destruct H as [[[[[H H4] H3] H2] H1] H0].
    unfold _validate_component. rewrite !app_nil_iff.
    split; [split; [split; [split; [split|]|]|]|].
    + unfold component_required_fields in *. cbn in H |- *.
      destruct (has_key "componentId" c); [|discriminate].
      destruct (has_key "fusionModelPath" c); [|discriminate].
      now destruct (has_key "parameters" c).
    + apply text_check_nil. now rewrite get_default_text.
    + apply text_check_nil. now rewrite get_default_text.
    + destruct (get c "parameters"); try discriminate; try reflexivity.
      now apply _validate_parameters_nil.
    + destruct (lookup "setupNames" c) as [[]|]; try discriminate;
        try reflexivity.
      now rewrite H1.
    + now destruct (lookup "postProcessorConfig" c) as [[]|].
Qed.

(** X2.  A component passes [_validate_component] without an error
    exactly when it is an object that is well formed in the sense
    above; in particular a null [parameters] and boolean parameter
    values pass. *)
Theorem component_valid_iff_well_formed :
  forall (component : json) (index : nat),
    _validate_component component index = []
    <-> exists c, component = JObj c /\ well_formed_component c = true.
Proof.
  intros component index.
  destruct component as [| | | | | |c];
    try (split; [discriminate | intros [c [H _]]; discriminate]).
  rewrite object_component_valid. split.
  - intros H. now exists c.
  - intros [c' [H1 H2]]. injection H1 as <-. exact H2.
Qed.

Lemma prefix_start p s : String.prefix p (p ++ s) = true.
Proof.
  induction p as [|c r IH]; cbn.
  - now destruct s.
  - rewrite IH. now destruct (ascii_dec c c).
Qed.

Lemma _validate_parameters_prefixed parameters pfx :
  Forall (fun e => String.prefix pfx e = true)
         (_validate_parameters parameters pfx).
Proof.
  induction parameters as [|[k v] r IH]; cbn [_validate_parameters];
    [constructor|].
  apply Forall_app. split; [|exact IH].
  destruct (negb (nonempty k)).
  - repeat constructor. apply prefix_start.
  - destruct (negb _); repeat constructor. apply prefix_start.
Qed.

(** X3.  Every error [_validate_component] reports for the component at
    [index] starts with [Component[index]]. *)
Theorem component_errors_carry_index :
  forall (component : json) (index : nat),
    Forall (fun e => String.prefix ("Component[" ++ str_of_nat index ++ "]") e
                     = true)
           (_validate_component component index).
Proof.
  intros component index. fold (prefix_of index).
  destruct component as [| | | | | |c];
    try (repeat constructor; apply prefix_start).
  unfold _validate_component, component_required_fields.
  cbn [flat_map].
  repeat (apply Forall_app; split); try constructor;
    try apply _validate_parameters_prefixed;
    repeat match goal with
           | |- context [if ?b then _ else _] => destruct b
           | |- context [match ?x with _ => _ end] => destruct x
           end;
    repeat constructor; try apply prefix_start;
    apply _validate_parameters_prefixed.
Qed.

End ComponentValidation.

Section OrderValidation.
Import Validator.

Variable u : runtime.
Variable repr : json -> string.

(** A component the loop of [validate_order] gets through: an object
    whose [componentId] is falsy or can be hashed. *)
Definition passable (component : json) : bool :=
  match component with
  | JObj c => negb (truthy (get c "componentId"))
              || hashable (get c "componentId")
  | _ => false
  end.

Lemma validate_components_raised components :
  forall idx errors seen,
    raised (validate_components repr components idx errors seen)
    = negb (forallb passable components).
Proof.
  induction components as [|c r IH]; intros idx errors seen;
    cbn [validate_components forallb]; [reflexivity|].
  destruct c; cbn [passable andb negb raised]; try reflexivity.
  destruct (truthy (get items "componentId")); cbn [negb orb].
  - destruct (hashable (get items "componentId")); cbn [andb negb raised];
      [apply IH | reflexivity].
  - apply IH.
Qed.

Lemma missing_fields_nil od :
  missing_fields od = []
  <-> forallb (fun field => has_key field od) required_fields = true.
Proof.
  unfold missing_fields, required_fields. cbn.
  destruct (has_key "version" od), (has_key "orderId" od),
    (has_key "components" od); cbn; intuition discriminate.
Qed.

(** X4.  [validate_order] raises exactly on an order object that has its
    three required fields and whose [components] is a list holding a
    value that is not an object, or an object whose [componentId] is a
    non-empty list or object; on every other input it returns. *)
Theorem validate_order_raises_iff :
  forall order : json,
    raised (validate_order u repr order) = true
    <-> exists od components,
          order = JObj od
          /\ forallb (fun field => has_key field od) required_fields = true
          /\ lookup "components" od = Some (JArr components)
          /\ forallb passable components = false.
Proof.
  intros order. destruct order as [| | | | | |od];
    try (split; [discriminate | intros [? [? [? _]]]; discriminate]).
  unfold validate_order.
  pose proof (missing_fields_nil od) as Hm.
  destruct (missing_fields od) as [|m ms].
  - assert (Hreq : forallb (fun field => has_key field od) required_fields
                   = true) by now apply Hm.
    unfold get_default.
    destruct (lookup "components" od) as [v|] eqn:Ec.
    + destruct v as [| | | | |cs|];
        try (split; [discriminate
                    | intros [? [? [[= <-] [_ [E _]]]]]; congruence]).
      destruct cs as [|c0 cs'].
      * split; [discriminate|].
        intros [? [? [[= <-] [_ [E F]]]]].
        rewrite Ec in E. injection E as <-. discriminate.
      * match goal with
        | |- context [validate_components repr ?cs ?i ?e ?s] =>
            pose proof (validate_components_raised cs i e s) as R;
            destruct (validate_components repr cs i e s)
        end; cbn [bind raised] in *.
        -- split; [discriminate|].
           intros [? [cs [[= <-] [_ [E F]]]]].
           rewrite Ec in E. injection E as <-.
           rewrite F in R. discriminate.
        -- split; [|reflexivity].
           intros _. exists od, (c0 :: cs'). repeat split; try assumption.
           now destruct (forallb passable (c0 :: cs')).
    + split; [discriminate|].
      intros [? [? [[= <-] [_ [E _]]]]]. congruence.
  - split; [discriminate|].
    intros [? [? [[= <-] [Hreq _]]]]. apply Hm in Hreq. discriminate.
Qed.

End OrderValidation.

Section OrderValidity.
Import Validator.

Variable u : runtime.
Variable repr : json -> string.

Definition component_id (component : json) : json :=
  match component with
  | JObj c => get c "componentId"
  | _ => JNull
  end.

Definition well_formed (component : json) : bool :=
  match component with
  | JObj c => well_formed_component c
  | _ => false
  end.

(** No [componentId] of [components] is in [seen] or occurs twice. *)
Fixpoint distinct_ids (seen : list json) (components : list json) : bool :=
  match components with
  | [] => true
  | c :: rest =>
      negb (member (component_id c) seen)
      && distinct_ids (component_id c :: seen) rest
  end.

Definition output_config_ok (od : list (string * json)) : bool :=
  match lookup "outputConfig" od with
  | None => true
  | Some (JObj config) =>
      match lookup "baseDirectory" config with
      | None => true
      | Some base_dir => is_str base_dir
      end
      && match lookup "includeTimestamp" config with
         | None => true
         | Some include_ts => is_bool include_ts
         end
  | Some _ => false
  end.

(** An order in the words of the schema. *)
Definition well_formed_order (od : list (string * json)) : bool :=
  forallb (fun field => has_key field od) required_fields
  && _validate_version u (get od "version")
  && truthy (get od "orderId")
  && match get od "components" with
     | JArr (c :: rest) =>
         forallb well_formed (c :: rest) && distinct_ids [] (c :: rest)
     | _ => false
     end
  && output_config_ok od.

Lemma well_formed_component_id c :
  well_formed_component c = true ->
  truthy (get c "componentId") = true
  /\ hashable (get c "componentId") = true.
Proof.
  unfold well_formed_component. rewrite !andb_true_iff.
  intros [[[[[_ H] _] _] _] _].
  destruct (get c "componentId"); try discriminate. now split.
Qed.

Lemma validate_components_prefix components :
  forall idx errors seen out,
    validate_components repr components idx errors seen = Ok out ->
    exists tail, out = errors +++ tail.
Proof.
  induction components as [|c r IH]; intros idx errors seen out;
    cbn [validate_components].
  - intros [= <-]. exists []. now rewrite app_nil_r.
  - destruct c; try discriminate.
    destruct (truthy _); [destruct (hashable _); [|discriminate]|];
      intros H; apply IH in H as [tail ->];
      try destruct (member _ seen); rewrite <- ?app_assoc;
      eexists; reflexivity.
Qed.

Lemma validate_components_nil components :
  forall idx errors seen,
    validate_components repr components idx errors seen = Ok []
    <-> errors = []
        /\ forallb well_formed components = true
        /\ distinct_ids seen components = true.
Proof.
  induction components as [|c r IH]; intros idx errors seen;
    cbn [validate_components forallb distinct_ids].
  - split; [intros [= ->]; now repeat split | intros [-> _]; reflexivity].
  - destruct c as [| | | | | |items];
      try (split; [discriminate | intros [_ [H _]]; discriminate]).
    cbn [well_formed component_id].
    assert (Hc : _validate_component (JObj items) idx = []
                 <-> exists c, JObj items = JObj c
                               /\ well_formed_component c = true).
    { rewrite object_component_valid. split.
      - intros Hw. now exists items.
      - intros [c' [H1 H2]]. injection H1 as <-. exact H2. }
    split.
    + intros H.
      assert (Hp : errors +++ _validate_component (JObj items) idx = []).
      { destruct (truthy _); [destruct (hashable _); [|discriminate]|];
          apply validate_components_prefix in H as [tail Ht];
          symmetry in Ht; apply app_eq_nil in Ht as [Ht _];
          [destruct (member _ seen);
           [apply app_eq_nil in Ht as [_ Ht]; discriminate | exact Ht]
          | exact Ht]. }
      apply app_eq_nil in Hp as [-> Hv].
      assert (Hw : well_formed_component items = true).
      { apply Hc in Hv as [c' [[= <-] Hw]]. exact Hw. }
      destruct (well_formed_component_id items Hw) as [Ht Hh].
      rewrite Ht, Hh, Hv in H. cbn [app] in H.
      destruct (member (get items "componentId") seen) eqn:Em.
      * apply validate_components_prefix in H as [tail Ht'].
        discriminate.
      * apply IH in H as [_ [H1 H2]].
        rewrite Hw, H1, H2. now repeat split.
    + intros [-> [Hw Hd]]. apply andb_prop in Hw as [Hw Hr].
      apply andb_prop in Hd as [Hm Hd]. apply negb_true_iff in Hm.
      destruct (well_formed_component_id items Hw) as [Ht Hh].
      assert (Hv : _validate_component (JObj items) idx = []).
      { apply Hc. now exists items. }
      rewrite Ht, Hh, Hm, Hv. cbn [app]. apply IH. now repeat split.
Qed.

Lemma _validate_output_config_nil od :
  match lookup "outputConfig" od with
  | Some config => _validate_output_config config
  | None => []
  end = []
  <-> output_config_ok od = true.
Proof.
  unfold output_config_ok.
  destruct (lookup "outputConfig" od) as [config|]; [|easy].
  destruct config as [| | | | | |c]; try (split; discriminate).
  unfold _validate_output_config. rewrite app_nil_iff, andb_true_iff.
  destruct (lookup "baseDirectory" c) as [b|];
    destruct (lookup "includeTimestamp" c) as [t|];
    try destruct (is_str b); try destruct (is_bool t); cbn;
    intuition discriminate.
Qed.

Lemma present_get od k :
  has_key k od = true -> forall d, get_default od k d = get od k.
Proof. unfold has_key, get_default, get. now destruct (lookup k od). Qed.

(** X5.  [validate_order] accepts an order object, returning
    [(True, [])], exactly when the order is well formed: the three
    required fields are there, the version is accepted by
    [_validate_version] (three groups of [str.isdigit] characters
    separated by dots), the orderId is truthy, the components are a non-empty list of
    well-formed objects with pairwise different ids, and the output
    configuration, if given, is an object whose [baseDirectory] is a
    string and whose [includeTimestamp] is a boolean. *)
Theorem order_accepted_iff_well_formed :
  forall od : list (string * json),
    validate_order u repr (JObj od) = Ok (true, [])
    <-> well_formed_order od = true.
Proof.
  intros od. unfold validate_order, well_formed_order.
  pose proof (missing_fields_nil od) as Hm.
  destruct (missing_fields od) as [|m ms].
  - assert (Hreq : forallb (fun field => has_key field od) required_fields
                   = true) by now apply Hm.
    rewrite Hreq. cbn [andb].
    assert (Hk : has_key "version" od = true
                 /\ has_key "components" od = true).
    { unfold required_fields in Hreq. cbn in Hreq.
      destruct (has_key "version" od), (has_key "orderId" od),
        (has_key "components" od); try discriminate. now split. }
    destruct Hk as [Hv Hcs].
    rewrite (present_get od "version" Hv), (present_get od "components" Hcs).
    pose proof (_validate_output_config_nil od) as Ho.
    destruct (_validate_version u (get od "version")); cbn [negb andb app].
    + destruct (truthy (get od "orderId")); cbn [negb andb app].
      * destruct (get od "components") as [| | | | |cs|];
          try (cbn [bind]; split; [intros [= H]|]; discriminate).
        destruct cs as [|c0 cs'];
          [cbn [bind]; split; [intros [= H]|]; discriminate|].
        pose proof (validate_components_nil (c0 :: cs') 0 [] []) as Hn.
        destruct (validate_components repr (c0 :: cs') 0 [] [])
          as [out|e]; cbn [bind].
        -- split.
           ++ intros [= Hl Hout]. apply app_eq_nil in Hout as [-> Hc].
              destruct (proj1 Hn eq_refl) as [_ [H1 H2]].
              rewrite H1, H2. cbn [andb]. now apply Ho.
           ++ intros H. apply andb_prop in H as [H Hoc].
              apply andb_prop in H as [H1 H2].
              destruct out as [|o out'].
              ** apply Ho in Hoc. cbn [app]. rewrite Hoc. reflexivity.
              ** assert (Hx : Ok (A := list string) (o :: out') = Ok [])
                   by (apply Hn; now repeat split).
                 discriminate.
        -- split; [discriminate|].
           intros H. apply andb_prop in H as [H Hoc].
           apply andb_prop in H as [H1 H2].
           assert (Hx : Raise (A := list string) e = Ok [])
             by (apply Hn; now repeat split).
           discriminate.
      * split; [|discriminate].
        destruct (get od "components") as [| | | | |[|c0 cs']|];
          cbn [bind]; try (intros [= H]; discriminate).
        destruct (validate_components repr (c0 :: cs') 0
                    ["orderId cannot be empty"] []) eqn:E;
          cbn [bind]; [|discriminate].
        apply validate_components_prefix in E as [tail ->].
        intros H. injection H. discriminate.
    + split; [|discriminate].
      destruct (get od "components") as [| | | | |[|c0 cs']|];
        cbn [bind]; try (intros [= H]; discriminate).
      match goal with
      | |- context [validate_components repr ?cs ?i ?e ?s] =>
          destruct (validate_components repr cs i e s) eqn:E
      end; cbn [bind]; [|discriminate].
      apply validate_components_prefix in E as [tail ->].
      intros H. injection H. destruct (negb _); discriminate.
  - split; [discriminate|].
    intros H. apply andb_prop in H as [H _]. apply andb_prop in H as [H _].
    apply andb_prop in H as [H _]. apply andb_prop in H as [H _].
    apply Hm in H. discriminate.
Qed.

(** X6.  Whatever [validate_order] returns, the verdict is [True]
    exactly when the list of errors is empty. *)
Theorem verdict_true_iff_no_error :
  forall (order : json) (is_valid : bool) (errors : list string),
    validate_order u repr order = Ok (is_valid, errors) ->
    (is_valid = true <-> errors = []).
Proof.
  intros order is_valid errors. unfold validate_order.
  destruct order as [| | | | | |od];
    try (intros [= <- <-]; split; discriminate).
  destruct (missing_fields od) as [|m ms];
    [|intros [= <- <-]; split; discriminate].
  match goal with
  | |- bind ?m _ = _ -> _ => destruct m as [out|e]
  end; cbn [bind]; [|discriminate].
  intros [= <- <-].
  destruct (out +++ _); cbn; split; congruence.
Qed.

End OrderValidity.

Section DuplicateIds.
Import Validator.

Variable u : runtime.
Variable repr : json -> string.

Definition duplicate_error (id : string) : string :=
  "Duplicate componentId: '" ++ id ++ "'".

(** The component is an object whose [componentId] is the non-empty
    string [id]. *)
Definition has_id (id : string) (component : json) : Prop :=
  exists c, component = JObj c /\ get c "componentId" = JStr id /\ id <> "".

Lemma member_cons v x seen :
  member v (x :: seen) = py_eq v x || member v seen.
Proof. reflexivity. Qed.

Lemma validate_components_seen id components :
  forall idx errors seen out,
    validate_components repr components idx errors seen = Ok out ->
    member (JStr id) seen = true ->
    Exists (has_id id) components ->
    In (duplicate_error id) out.
Proof.
  induction components as [|c r IH]; intros idx errors seen out H Hm Hex;
    [inversion Hex|].
  cbn [validate_components] in H.
  destruct c as [| | | | | |items]; try discriminate.
  inversion Hex as [? ? Hc | ? ? Hr]; subst.
  - destruct Hc as [c' [[= <-] [Hid Hne]]]. rewrite Hid in H.
    destruct id; [congruence|]. cbn [truthy nonempty hashable] in H.
    rewrite Hm in H.
    apply validate_components_prefix in H as [tail ->].
    apply in_or_app. left. apply in_or_app. right. now left.
  - destruct (truthy (get items "componentId")).
    + destruct (hashable (get items "componentId")); [|discriminate].
      eapply IH; [exact H | | exact Hr].
      rewrite member_cons, Hm. apply orb_true_r.
    + eapply IH; [exact H | exact Hm | exact Hr].
Qed.

Lemma validate_components_twice id components :
  forall idx errors seen out i j ci cj,
    validate_components repr components idx errors seen = Ok out ->
    i < j ->
    nth_error components i = Some ci -> has_id id ci ->
    nth_error components j = Some cj -> has_id id cj ->
    In (duplicate_error id) out.
Proof.
  induction components as [|c r IH];
    intros idx errors seen out i j ci cj H Hij Hi Hci Hj Hcj;
    [now destruct i|].
  destruct j as [|j]; [lia|]. cbn [nth_error] in Hj.
  assert (Hr : Exists (has_id id) r).
  { apply Exists_exists. exists cj. split; [|exact Hcj].
    eapply nth_error_In, Hj. }
  destruct i as [|i]; cbn [nth_error] in Hi.
  - injection Hi as ->. cbn [validate_components] in H.
    destruct Hci as [c' [-> [Hid Hne]]]. rewrite Hid in H.
    destruct id as [|a id']; [congruence|].
    cbn [truthy nonempty hashable] in H.
    eapply validate_components_seen; [exact H | | exact Hr].
    rewrite member_cons. cbn [py_eq]. now rewrite String.eqb_refl.
  - cbn [validate_components] in H.
    destruct c as [| | | | | |items]; try discriminate.
    destruct (truthy (get items "componentId"));
      [destruct (hashable (get items "componentId")); [|discriminate]|];
      (eapply (IH _ _ _ _ i j); [exact H | lia | eassumption ..]).
Qed.

(** X7.  When the components of an order include two objects with the
    same non-empty string as [componentId], and [validate_order] gets
    through the list, the order is rejected and the errors hold
    "Duplicate componentId" for that id. *)
Theorem duplicate_component_id_reported :
  forall (od : list (string * json)) (components : list json)
         (i j : nat) (ci cj : json) (id : string),
    forallb (fun field => has_key field od) required_fields = true ->
    lookup "components" od = Some (JArr components) ->
    forallb passable components = true ->
    i < j ->
    nth_error components i = Some ci -> has_id id ci ->
    nth_error components j = Some cj -> has_id id cj ->
    exists errors,
      validate_order u repr (JObj od) = Ok (false, errors)
      /\ In (duplicate_error id) errors.
Proof.
  intros od components i j ci cj id Hreq Hc Hp Hij Hi Hci Hj Hcj.
  unfold validate_order.
  rewrite (proj2 (missing_fields_nil od) Hreq).
  unfold get_default. rewrite Hc.
  destruct components as [|c0 cs]; [now destruct i|].
  match goal with
  | |- context [validate_components repr ?cs ?k ?e ?s] =>
      pose proof (validate_components_raised repr cs k e s) as R;
      destruct (validate_components repr cs k e s) as [out|e'] eqn:E
  end; [|rewrite Hp in R; discriminate].
  pose proof (validate_components_twice id _ _ _ _ _ i j ci cj
                E Hij Hi Hci Hj Hcj) as Hin.
  cbn [bind]. eexists. split.
  - f_equal. f_equal. destruct out; [contradiction | reflexivity].
  - apply in_or_app. now left.
Qed.

End DuplicateIds.

Section ValidatorWitnesses.
Import Validator.

Definition door (id : string) : json :=
  JObj [("componentId", JStr id); ("fusionModelPath", JStr "door.f3d");
        ("parameters", JObj [("door_height", JStr "96 in")])].

Lemma verdict_true_iff_no_error_witness :
  true = true <-> @nil string = [].
Proof.
  apply (verdict_true_iff_no_error ascii_runtime (fun _ => "")
           (JObj [("version", JStr "1.0.0"); ("orderId", JStr "TEST-001");
                  ("components", JArr [door "comp-001"])]) true []).
  reflexivity.
Defined.

Lemma duplicate_component_id_reported_witness :
  exists errors,
    validate_order ascii_runtime (fun _ => "")
      (JObj [("version", JStr "1.0.0"); ("orderId", JStr "TEST-001");
             ("components", JArr [door "comp-001"; door "comp-001"])])
    = Ok (false, errors)
    /\ In (duplicate_error "comp-001") errors.
Proof.
  apply (duplicate_component_id_reported ascii_runtime (fun _ => "") _
           [door "comp-001"; door "comp-001"] 0 1
           (door "comp-001") (door "comp-001") "comp-001");
    try reflexivity; try lia;
    (eexists; split; [reflexivity | split; [reflexivity | discriminate]]).
Defined.

End ValidatorWitnesses.

(* ===================================================================== *)
(** * parameter_manager.py: the queries *)
(* ===================================================================== *)

Module ParameterQueries.
Import ParameterManager.

(** [d[k] = v] on a [dict] kept as the list of its items: the value of
    a key that is there is replaced in place, a new key goes last. *)
Fixpoint dict_set {V} (k : string) (v : V) (d : list (string * V))
    : list (string * V) :=
  match d with
  | [] => [(k, v)]
  | (k', v') :: rest =>
      if String.eqb k k' then (k', v) :: rest
      else (k', v') :: dict_set k v rest
  end.

(** The loop of [get_all_parameters] from the dict [params]. *)
Definition collect_parameters (user_parameters : store)
    (params : list (string * string)) : list (string * string) :=
  fold_left (fun params param => dict_set (fst param) (snd param) params)
            user_parameters params.

Definition get_all_parameters (user_parameters : store)
    : list (string * string) :=
  collect_parameters user_parameters [].

(** [None] when [itemByName] finds nothing. *)
Definition get_parameter_value (param_name : string)
    (user_parameters : store) : option string :=
  match lookup param_name user_parameters with
  | Some expression => Some expression
  | None => None
  end.

(** The loop of [validate_parameters_exist] from the list [missing]. *)
Fixpoint collect_missing (param_names : list string)
    (user_parameters : store) (missing : list string) : list string :=
  match param_names with
  | [] => missing
  | param_name :: rest =>
      collect_missing rest user_parameters
        (match lookup param_name user_parameters with
         | Some _ => missing
         | None => missing +++ [param_name]
         end)
  end.

Definition validate_parameters_exist (param_names : list string)
    (user_parameters : store) : bool * list string :=
  let missing := collect_missing param_names user_parameters [] in
  (length missing =? 0, missing).

End ParameterQueries.

Section ParameterQueriesFacts.
Import ParameterManager ParameterQueries.

Lemma collect_missing_filter param_names params :
  forall missing,
    collect_missing param_names params missing
    = missing +++ filter (fun n => negb (has_key n params)) param_names.
Proof.
  induction param_names as [|n r IH]; intros missing;
    cbn [collect_missing filter].
  - now rewrite app_nil_r.
  - rewrite IH. unfold has_key.
    destruct (lookup n params); cbn [negb];
      [reflexivity | now rewrite <- app_assoc].
Qed.

(** X8.  [validate_parameters_exist] lists the requested names that the
    model lacks, in the order they were asked for and as often as they
    were asked for, and answers [True] exactly when every requested
    name is in the model. *)
Theorem missing_parameters_listed :
  forall (param_names : list string) (params : store),
    let '(all_exist, missing) :=
      validate_parameters_exist param_names params in
    missing = filter (fun n => negb (has_key n params)) param_names
    /\ (all_exist = true
        <-> forall n, In n param_names -> lookup n params <> None).
Proof.
  intros param_names params. unfold validate_parameters_exist.
  rewrite collect_missing_filter. cbn [app]. split; [reflexivity|].
  induction param_names as [|n r IH]; cbn [filter].
  - split; [intros _ n [] | reflexivity].
  - unfold has_key at 1. destruct (lookup n params) eqn:E; cbn [negb].
    + rewrite IH. split.
      * intros H m [<-|Hm]; [congruence | now apply H].
      * intros H m Hm. apply H. now right.
    + cbn [length Nat.eqb]. split; [discriminate|].
      intros H. now destruct (H n (or_introl eq_refl)).
Qed.

Lemma write_names name text params :
  map fst (write name text params) = map fst params.
Proof.
  induction params as [|[k v] r IH]; cbn [write map]; [reflexivity|].
  destruct (String.eqb name k); cbn [map fst]; [reflexivity | now rewrite IH].
Qed.

(** X9.  A batch of updates never adds, removes or reorders a
    parameter of the model: the names in the store are the same before
    and after, whatever the entries and whatever the host answers. *)
Theorem batch_keeps_parameter_names :
  forall (repr : json -> string)
         (set_expression : store -> string -> json -> result string)
         (parameters : list (string * json)) (params : store),
    map fst (snd (update_parameters_batch repr set_expression
                    parameters params))
    = map fst params.
Proof.
  intros repr set_expression parameters.
  induction parameters as [|[k v] r IH]; intros params; [reflexivity|].
  cbn [update_parameters_batch].
  destruct (update_parameter repr set_expression k v params)
    as [[success message] params'] eqn:E.
  specialize (IH params').
  destruct (update_parameters_batch repr set_expression r params')
    as [results params''].
  cbn [snd] in *. rewrite IH. unfold update_parameter in E.
  destruct (lookup k params); [|now injection E as _ _ <-].
  destruct (set_expression params k v); injection E as _ _ <-;
    [apply write_names | reflexivity].
Qed.

(** X10.  One update and the queries: every other parameter reads as
    before; a failed update leaves the store as it was; after a
    successful update the parameter reads as the expression the host
    kept. *)
Theorem update_then_read :
  forall (repr : json -> string)
         (set_expression : store -> string -> json -> result string)
         (param_name : string) (new_value : json) (params : store),
    let outcome :=
      update_parameter repr set_expression param_name new_value params in
    let success := fst (fst outcome) in
    let params' := snd outcome in
    (forall other, other <> param_name ->
                   get_parameter_value other params'
                   = get_parameter_value other params)
    /\ (success = false -> params' = params)
    /\ (success = true ->
        exists text,
          set_expression params param_name new_value = Ok text
          /\ get_parameter_value param_name params' = Some text).
Proof.
  intros repr set_expression param_name new_value params.
  cbv zeta. unfold update_parameter, get_parameter_value.
  destruct (lookup param_name params) as [old|] eqn:E; cbn [fst snd].
  - destruct (set_expression params param_name new_value) as [text|e];
      cbn [fst snd].
    + split; [|split; [discriminate|]].
      * intros other Hne. now rewrite write_lookup_other.
      * intros _. exists text. split; [reflexivity|].
        now rewrite (write_lookup_same _ _ _ _ E).
    + split; [easy | split; [easy | discriminate]].
  - split; [easy | split; [easy | discriminate]].
Qed.

Lemma dict_set_new {V} k (v : V) d :
  lookup k d = None -> dict_set k v d = d +++ [(k, v)].
Proof.
  induction d as [|[k' v'] r IH]; cbn [lookup dict_set app]; [reflexivity|].
  destruct (String.eqb k k'); [discriminate|].
  intros H. now rewrite IH.
Qed.

Lemma lookup_absent {V} k (d : list (string * V)) :
  ~ In k (map fst d) -> lookup k d = None.
Proof.
  induction d as [|[k' v'] r IH]; cbn [lookup map fst In]; [reflexivity|].
  intros H. destruct (String.eqb_spec k k') as [->|_]; [tauto|].
  apply IH. tauto.
Qed.

Lemma collect_distinct params :
  forall acc,
    NoDup (map fst (acc +++ params)) ->
    collect_parameters params acc = acc +++ params.
Proof.
  unfold collect_parameters.
  induction params as [|[k v] r IH]; intros acc H; cbn [fold_left fst snd].
  - now rewrite app_nil_r.
  - assert (Hk : lookup k acc = None).
    { apply lookup_absent. rewrite map_app in H. cbn [map fst] in H.
      apply NoDup_remove_2 in H. intros Hin. apply H.
      apply in_or_app. now left. }
    rewrite (dict_set_new k v acc Hk), IH; rewrite <- app_assoc;
      [reflexivity | exact H].
Qed.

(** X11.  On a model whose parameters have pairwise different names,
    [get_all_parameters] returns every parameter once, with its
    expression, in the order of the model, and reads each name as
    [get_parameter_value] does. *)
Theorem all_parameters_of_distinct_names :
  forall params : store,
    NoDup (map fst params) ->
    get_all_parameters params = params
    /\ forall param_name,
         lookup param_name (get_all_parameters params)
         = get_parameter_value param_name params.
Proof.
  intros params H.
  assert (E : get_all_parameters params = params)
    by (apply (collect_distinct params []); exact H).
  split; [exact E|]. intros param_name. rewrite E.
  unfold get_parameter_value. now destruct (lookup param_name params).
Qed.

Lemma all_parameters_of_distinct_names_witness :
  get_all_parameters [("width", "36 in"); ("height", "96 in")]
  = [("width", "36 in"); ("height", "96 in")]
  /\ forall param_name,
       lookup param_name
         (get_all_parameters [("width", "36 in"); ("height", "96 in")])
       = get_parameter_value param_name
           [("width", "36 in"); ("height", "96 in")].
Proof.
  apply (all_parameters_of_distinct_names
           [("width", "36 in"); ("height", "96 in")]).
  repeat constructor; cbn; intuition discriminate.
Defined.

Lemma all_exist_forallb param_names params :
  fst (validate_parameters_exist param_names params)
  = forallb (fun n => has_key n params) param_names.
Proof.
  unfold validate_parameters_exist. rewrite collect_missing_filter.
  cbn [app fst]. induction param_names as [|n r IH]; [reflexivity|].
  cbn [filter forallb]. destruct (has_key n params); cbn [negb andb];
    [exact IH | reflexivity].
Qed.

(** X12.  The check and the batch agree: when the host takes every
    write, all entries of a batch succeed exactly when
    [validate_parameters_exist] answers [True] for the names of the
    batch. *)
Theorem batch_succeeds_iff_parameters_exist :
  forall (repr : json -> string)
         (set_expression : store -> string -> json -> result string)
         (parameters : list (string * json)) (params : store),
    (forall st n v, exists text, set_expression st n v = Ok text) ->
    forallb (fun r : string * bool * string => snd (fst r))
            (fst (update_parameters_batch repr set_expression
                    parameters params))
    = fst (validate_parameters_exist (map fst parameters) params).
Proof.
  intros repr set_expression parameters params Hhost.
  rewrite all_exist_forallb.
  assert (G : forall st,
             (forall n, lookup n st = None <-> lookup n params = None) ->
             forallb (fun r : string * bool * string => snd (fst r))
                     (fst (update_parameters_batch repr set_expression
                             parameters st))
             = forallb (fun n => has_key n params) (map fst parameters)).
  { induction parameters as [|[k v] r IH]; intros st Hst; [reflexivity|].
    cbn [update_parameters_batch map fst forallb].
    pose proof (update_parameter_keeps_names repr set_expression k v st)
      as Hkeep.
    destruct (update_parameter repr set_expression k v st)
      as [[success message] st'] eqn:E.
    cbn [snd] in Hkeep.
    assert (Hst' : forall n, lookup n st' = None <-> lookup n params = None)
      by (intros n; rewrite Hkeep; apply Hst).
    specialize (IH st' Hst').
    destruct (update_parameters_batch repr set_expression r st')
      as [results st''].
    cbn [fst snd forallb] in *. rewrite IH. f_equal.
    unfold update_parameter in E. unfold has_key.
    destruct (lookup k st) eqn:Ek.
    - destruct (Hhost st k v) as [text Ht]. rewrite Ht in E.
      injection E as <- _ _.
      destruct (lookup k params) eqn:Ep; [reflexivity|].
      apply Hst in Ep. congruence.
    - injection E as <- _ _. apply Hst in Ek. now rewrite Ek. }
  now apply G.
Qed.

Lemma batch_succeeds_iff_parameters_exist_witness :
  forallb (fun r : string * bool * string => snd (fst r))
          (fst (update_parameters_batch (fun _ => "")
                  (fun _ _ _ => Ok "20 mm")
                  [("A", JStr "10mm"); ("B", JStr "20mm")] [("A", "5 mm")]))
  = fst (validate_parameters_exist
           (map fst [("A", JStr "10mm"); ("B", JStr "20mm")])
           [("A", "5 mm")]).
Proof.
  apply (batch_succeeds_iff_parameters_exist (fun _ => "")
           (fun _ _ _ => Ok "20 mm")).
  intros st n v. now exists "20 mm".
Defined.

End ParameterQueriesFacts.

(* ===================================================================== *)
(** * cam_manager.py: setups by name *)
(* ===================================================================== *)

Module SetupSelection.
Import CAMManager.

Definition get_setup_by_name (setup_name : string)
    (cam_product : option product) : option setup :=
  match cam_product with
  | None => None
  | Some p =>
      if is_cam p
      then find (fun s => String.eqb (name s) setup_name) (setups p)
      else None
  end.

(** [name in available] on a list of strings. *)
Definition listed (name : string) (available : list string) : bool :=
  existsb (String.eqb name) available.

Section WithHost.

(** [cam.generateAllToolpaths(False)] and the wait, as in
    [CAMManager]; when the host raises the setups stay as they were. *)
Variable generate : list setup -> result (bool * list setup).

(** The loop of [regenerate_specific_setups]; [p] is the CAM product
    as it stands, [results] and [all_success] are the loop variables. *)
Fixpoint regenerate_each (setup_names : list string) (p : product)
    (results : list setup_result) (all_success : bool)
    : (list setup_result * bool) * product :=
  match setup_names with
  | [] => ((results, all_success), p)
  | setup_name :: rest =>
      match get_setup_by_name setup_name (Some p) with
      | None =>
          regenerate_each rest p
            (results +++ [(setup_name, false, "Setup not found")]) false
      | Some _ =>
          match generate (setups p) with
          | Ok (completed, live) =>
              let p := {| is_cam := is_cam p; setups := live |} in
              if completed then
                regenerate_each rest p
                  (results +++ [(setup_name, true, "Toolpaths regenerated")])
                  all_success
              else
                regenerate_each rest p
                  (results +++ [(setup_name, false, "Generation incomplete")])
                  false
          | Raise e =>
              regenerate_each rest p
                (results +++ [(setup_name, false,
                               "Exception: " ++ exn_text e)])
                false
          end
      end
  end.

Definition regenerate_specific_setups (setup_names : list string)
    (cam_product : option product)
    : (bool * string * list setup_result) * option product :=
  match cam_product with
  | None => ((false, "CAM product not initialized", []), cam_product)
  | Some p =>
      if negb (is_cam p)
      then ((false, "Could not access CAM data", []), cam_product)
      else
        let available_setups := map name (setups p) in
        let missing :=
          filter (fun n => negb (listed n available_setups)) setup_names in
        match missing with
        | _ :: _ =>
            ((false,
              "Setup(s) not found: " ++ join ", " missing
              ++ ". Available: " ++ join ", " available_setups, []),
             cam_product)
        | [] =>
            let '((results, all_success), p) :=
              regenerate_each setup_names p [] true in
            let message :=
              if all_success then
                "Toolpaths regenerated for "
                ++ str_of_nat (length setup_names) ++ " setup(s)"
              else
                "Failed for setup(s): "
                ++ join ", "
                     (map (fun r => fst (fst r))
                          (filter (fun r => negb (success_of r)) results))
            in
            ((all_success, message, results), Some p)
        end
  end.

End WithHost.

End SetupSelection.

Section SetupSelectionFacts.
Import CAMManager SetupSelection.

Lemma listed_in n available : listed n available = true <-> In n available.
Proof.
  unfold listed. rewrite existsb_exists. split.
  - intros [x [Hx E]]. apply String.eqb_eq in E. now subst.
  - intros H. exists n. split; [exact H | apply String.eqb_refl].
Qed.

(** X13.  [get_setup_by_name] returns the first setup of the document
    with the name asked for, and [None] exactly when no setup has that
    name. *)
Theorem setup_found_by_name :
  forall (setup_name : string) (p : product),
    is_cam p = true ->
    match get_setup_by_name setup_name (Some p) with
    | Some s =>
        exists before after,
          setups p = before +++ s :: after
          /\ name s = setup_name
          /\ ~ In setup_name (map name before)
    | None => ~ In setup_name (map name (setups p))
    end.
Proof.
  intros setup_name p Hcam. unfold get_setup_by_name. rewrite Hcam.
  induction (setups p) as [|s r IH]; cbn [find map In]; [tauto|].
  destruct (String.eqb_spec (name s) setup_name) as [E|Hne].
  - exists [], r. cbn. tauto.
  - destruct (find _ r) as [s'|].
    + destruct IH as [before [after [-> [Hn Hb]]]].
      exists (s :: before), after. cbn [app map In]. tauto.
    + tauto.
Qed.

Lemma setup_found_by_name_witness :
  exists before after,
    [setup_with "Setup1" milled; setup_with "Setup2" unmilled]
    = before +++ setup_with "Setup2" unmilled :: after
    /\ name (setup_with "Setup2" unmilled) = "Setup2"
    /\ ~ In "Setup2" (map name before).
Proof.
  apply (setup_found_by_name "Setup2"
           {| is_cam := true;
              setups := [setup_with "Setup1" milled;
                         setup_with "Setup2" unmilled] |}).
  reflexivity.
Defined.

(** X14.  When a requested name is not the name of a setup of the
    document, [regenerate_specific_setups] fails as a whole: no
    per-setup result is returned and the document is left as it was,
    whatever the engine would do; the message lists the unknown names
    and the available ones. *)
Theorem unknown_setup_fails_whole_call :
  forall (generate : list setup -> result (bool * list setup))
         (setup_names : list string) (p : product) (unknown : string),
    is_cam p = true ->
    In unknown setup_names ->
    ~ In unknown (map name (setups p)) ->
    regenerate_specific_setups generate setup_names (Some p)
    = ((false,
        "Setup(s) not found: "
        ++ join ", " (filter (fun n => negb (listed n (map name (setups p))))
                             setup_names)
        ++ ". Available: " ++ join ", " (map name (setups p)), []),
       Some p).
Proof.
  intros generate setup_names p unknown Hcam Hin Hun.
  unfold regenerate_specific_setups. rewrite Hcam. cbn [negb].
  destruct (filter _ setup_names) as [|m ms] eqn:E; [|reflexivity].
  exfalso.
  assert (Hf : In unknown
                 (filter (fun n => negb (listed n (map name (setups p))))
                         setup_names)).
  { apply filter_In. split; [exact Hin|].
    apply negb_true_iff. destruct (listed _ _) eqn:L; [|reflexivity].
    apply listed_in in L. contradiction. }
  rewrite E in Hf. contradiction.
Qed.

Lemma unknown_setup_fails_whole_call_witness :
  regenerate_specific_setups (fun l => Ok (true, l)) ["Setup1"; "Setup9"]
    (Some {| is_cam := true; setups := [setup_with "Setup1" milled] |})
  = ((false,
      "Setup(s) not found: "
      ++ join ", "
           (filter (fun n =>
                      negb (listed n
                              (map name
                                 (setups
                                    {| is_cam := true;
                                       setups := [setup_with "Setup1" milled]
                                    |}))))
                   ["Setup1"; "Setup9"])
      ++ ". Available: "
      ++ join ", "
           (map name
              (setups {| is_cam := true;
                         setups := [setup_with "Setup1" milled] |})), []),
     Some {| is_cam := true; setups := [setup_with "Setup1" milled] |}).
Proof.
  apply (unknown_setup_fails_whole_call (fun l => Ok (true, l))
           ["Setup1"; "Setup9"]
           {| is_cam := true; setups := [setup_with "Setup1" milled] |}
           "Setup9").
  - reflexivity.
  - cbn. tauto.
  - cbn. intuition discriminate.
Defined.

Lemma regenerate_each_spec generate setup_names :
  forall p results all_success,
    let '((results', all_success'), _) :=
      regenerate_each generate setup_names p results all_success in
    exists added,
      results' = results +++ added
      /\ map (fun r : setup_result => fst (fst r)) added = setup_names
      /\ all_success' = all_success && forallb success_of added.
Proof.
  induction setup_names as [|n r IH]; intros p results all_success;
    cbn [regenerate_each].
  - exists []. now rewrite app_nil_r, andb_true_r.
  - assert (G : forall p' entry flag,
               flag = all_success && success_of entry ->
               fst (fst entry) = n ->
               let '((results', all_success'), _) :=
                 regenerate_each generate r p' (results +++ [entry]) flag in
               exists added,
                 results' = results +++ added
                 /\ map (fun r : setup_result => fst (fst r)) added = n :: r
                 /\ all_success' = all_success && forallb success_of added).
    { intros p' entry flag Hflag Hn. specialize (IH p' (results +++ [entry]) flag).
      destruct (regenerate_each generate r p' (results +++ [entry]) flag)
        as [[results' all_success'] p''].
      destruct IH as [added [-> [Hm ->]]].
      exists (entry :: added). rewrite <- app_assoc. cbn [app map forallb].
      rewrite Hn, Hm, Hflag, andb_assoc. now repeat split. }
    destruct (get_setup_by_name n (Some p)).
    + destruct (generate (setups p)) as [[[|] live]|e]; apply G;
        cbn; rewrite ?andb_true_r, ?andb_false_r; reflexivity.
    + apply G; cbn; rewrite ?andb_false_r; reflexivity.
Qed.

(** X15.  When every requested name is the name of a setup,
    [regenerate_specific_setups] returns one result per requested name,
    in the order asked for, and its overall flag is the conjunction of
    the per-name results. *)
Theorem known_setups_reported_in_order :
  forall (generate : list setup -> result (bool * list setup))
         (setup_names : list string) (p : product),
    is_cam p = true ->
    (forall n, In n setup_names -> In n (map name (setups p))) ->
    let '(all_success, _, results) :=
      fst (regenerate_specific_setups generate setup_names (Some p)) in
    map (fun r : setup_result => fst (fst r)) results = setup_names
    /\ all_success = forallb success_of results.
Proof.
  intros generate setup_names p Hcam Hknown.
  unfold regenerate_specific_setups. rewrite Hcam. cbn [negb].
  assert (E : filter (fun n => negb (listed n (map name (setups p))))
                     setup_names = []).
  { clear -Hknown. induction setup_names as [|n r IH]; [reflexivity|].
    cbn [filter].
    rewrite (proj2 (listed_in n _) (Hknown n (or_introl eq_refl))).
    cbn [negb]. apply IH. intros m Hm. apply Hknown. now right. }
  rewrite E.
  pose proof (regenerate_each_spec generate setup_names p [] true) as H.
  destruct (regenerate_each generate setup_names p [] true)
    as [[results all_success] p'].
  destruct H as [added [-> [Hm ->]]]. cbn [fst app andb]. now split.
Qed.

Lemma known_setups_reported_in_order_witness :
  let '(all_success, _, results) :=
    fst (regenerate_specific_setups (fun l => Ok (true, l))
           ["Setup2"; "Setup1"]
           (Some {| is_cam := true;
                    setups := [setup_with "Setup1" milled;
                               setup_with "Setup2" unmilled] |})) in
  map (fun r : setup_result => fst (fst r)) results = ["Setup2"; "Setup1"]
  /\ all_success = forallb success_of results.
Proof.
  apply (known_setups_reported_in_order (fun l => Ok (true, l))
           ["Setup2"; "Setup1"]
           {| is_cam := true;
              setups := [setup_with "Setup1" milled;
                         setup_with "Setup2" unmilled] |}).
  - reflexivity.
  - cbn. tauto.
Defined.

End SetupSelectionFacts.

(* ===================================================================== *)
(** * cam_manager.py: what a regeneration reports *)
(* ===================================================================== *)

Section RegenerationReports.
Import CAMManager.

Definition has_operations (s : setup) : bool :=
  match allOperations s with [] => false | _ :: _ => true end.

Lemma append_empty (s : string) : s ++ "" = s.
Proof. induction s as [|c s IH]; cbn; [reflexivity | now rewrite IH]. Qed.

Lemma failed_names_all (A : Type) (f : A -> setup_result) (l : list A) :
  (forall a, success_of (f a) = false) ->
  map (fun r : setup_result => fst (fst r))
      (filter (fun r => negb (success_of r)) (map f l))
  = map (fun a => fst (fst (f a))) l.
Proof.
  intros H. induction l as [|a r IH]; [reflexivity|].
  cbn [map filter]. rewrite H. cbn [negb map]. now rewrite IH.
Qed.

(** X16.  When generation completes and every read of the verification
    answers, [regenerate_all_toolpaths] returns one result per setup
    captured before generation, in their order, each verified in the
    state the host shows it in after generation; a setup is recorded as
    successful exactly when it then has at least one operation, whatever
    state that operation is in; the overall flag is true exactly when
    every captured setup has an operation. *)
Theorem completed_generation_results :
  forall (u : runtime)
         (generate : list setup -> result (bool * list setup))
         (read_fault : nat -> option exn)
         (p : product) (live : list setup),
    is_cam p = true ->
    setups p <> [] ->
    generate (setups p) = Ok (true, live) ->
    (forall i, read_fault i = None) ->
    let '(all_success, _, results) :=
      regenerate_all_toolpaths u generate read_fault (Some p) in
    length results = length (setups p)
    /\ map (fun r : setup_result => (fst (fst r), success_of r)) results
       = map (fun s => (name s, has_operations s))
             (as_read (setups p) live)
    /\ all_success = forallb has_operations (as_read (setups p) live).
Proof.
  intros u generate read_fault p live Hcam Hne Hgen Hread.
  unfold regenerate_all_toolpaths, get_all_setups. rewrite Hcam. cbn [negb].
  destruct (setups p) as [|s0 rest] eqn:E; [congruence|].
  rewrite Hgen. cbn [negb].
  rewrite (verify_setups_flag u read_fault _ Hread). cbn [app andb].
  rewrite map_map. split; [|split].
  - now rewrite length_map, as_read_length.
  - apply map_ext. intros s. rewrite verify_setup_success.
    f_equal. unfold verify_setup.
    repeat match goal with |- context [if ?b then _ else _] =>
                             destruct b end; reflexivity.
  - generalize (as_read (s0 :: rest) live). clear.
    intros l. induction l as [|s r IH]; [reflexivity|].
    cbn [map forallb]. rewrite IH, verify_setup_success. reflexivity.
Qed.

Lemma completed_generation_results_witness :
  let '(all_success, _, results) :=
    regenerate_all_toolpaths ascii_runtime
      (fun _ => Ok (true, [setup_with "Setup1" unmilled;
                           {| name := "Setup2"; allOperations := [] |}]))
      (fun _ => None)
      (Some {| is_cam := true; setups := [setup_with "Setup1" milled] |}) in
  length results = 1
  /\ map (fun r : setup_result => (fst (fst r), success_of r)) results
     = [("Setup1", true)]
  /\ all_success = true.
Proof.
  apply (completed_generation_results ascii_runtime
           (fun _ => Ok (true, [setup_with "Setup1" unmilled;
                                {| name := "Setup2"; allOperations := [] |}]))
           (fun _ => None)
           {| is_cam := true; setups := [setup_with "Setup1" milled] |}
           [setup_with "Setup1" unmilled;
            {| name := "Setup2"; allOperations := [] |}]).
  - reflexivity.
  - discriminate.
  - reflexivity.
  - reflexivity.
Defined.

(** X17.  When the engine raises during generation,
    [regenerate_all_toolpaths] does not raise: it reports every setup of
    the document as failed with the text of the exception, and the summary
    names every setup. *)
Theorem generation_exception_fails_every_setup :
  forall (u : runtime)
         (generate : list setup -> result (bool * list setup))
         (read_fault : nat -> option exn)
         (p : product) (e : exn),
    is_cam p = true ->
    setups p <> [] ->
    generate (setups p) = Raise e ->
    regenerate_all_toolpaths u generate read_fault (Some p)
    = (false,
       "Toolpath regeneration failed for setup(s): "
       ++ join ", " (map name (setups p)),
       map (fun s => (name s, false, "Exception: " ++ exn_text e))
           (setups p)).
Proof.
  intros u generate read_fault p e Hcam Hne Hgen.
  unfold regenerate_all_toolpaths, get_all_setups. rewrite Hcam. cbn [negb].
  destruct (setups p) as [|s0 rest] eqn:E; [congruence|].
  rewrite Hgen.
  rewrite (failed_names_all _
             (fun s => (name s, false, "Exception: " ++ exn_text e)));
    [reflexivity | reflexivity].
Qed.

Lemma generation_exception_fails_every_setup_witness :
  regenerate_all_toolpaths ascii_runtime
    (fun _ => Raise (mkExn RuntimeError "engine stopped"))
    (fun _ => None)
    (Some {| is_cam := true; setups := [setup_with "Setup1" milled] |})
  = (false,
     "Toolpath regeneration failed for setup(s): "
     ++ join ", "
          (map name
             (setups {| is_cam := true;
                        setups := [setup_with "Setup1" milled] |})),
     map (fun s => (name s, false,
                    "Exception: "
                    ++ exn_text (mkExn RuntimeError "engine stopped")))
         (setups {| is_cam := true;
                    setups := [setup_with "Setup1" milled] |})).
Proof.
  apply (generation_exception_fails_every_setup ascii_runtime
           (fun _ => Raise (mkExn RuntimeError "engine stopped"))
           (fun _ => None)
           {| is_cam := true; setups := [setup_with "Setup1" milled] |}
           (mkExn RuntimeError "engine stopped")).
  - reflexivity.
  - discriminate.
  - reflexivity.
Defined.

(** X18.  For a setup in which at least one operation was regenerated,
    the verification message counts the regenerated operations [k]
    against all operations [n] of the setup, suppressed ones included,
    and mentions [n - k] operations with errors exactly when [k < n]. *)
Theorem regenerated_count_message :
  forall (u : runtime) (s : setup),
    let k := length (filter regenerated (allOperations s)) in
    let n := length (allOperations s) in
    0 < k ->
    verify_setup u s
    = (name s, true,
       ("Regenerated " ++ str_of_nat k ++ "/" ++ str_of_nat n
        ++ " toolpaths")
       ++ (if k <? n
           then " (" ++ str_of_nat (n - k)
                ++ " operation(s) have errors - not regenerated)"
           else "")).
Proof.
  intros u s k n Hk. unfold verify_setup, check_operations.
  destruct (check_operations_counts u (allOperations s)
              {| warning_messages := []; operations_with_toolpaths := 0;
                 operations_total := 0 |}) as [H1 [H2 H3]].
  cbv zeta in *. cbn [warning_messages operations_with_toolpaths
                      operations_total length] in *.
  set (t := fold_left (check_operation u) (allOperations s) _) in *.
  fold k in H2, H3. fold n in H1, H3.
  rewrite H1, H2. cbn [Nat.add].
  destruct (Nat.ltb_spec 0 k) as [_|Hw]; [|lia].
  assert (Hsub : (0 <? n - k) = (k <? n)).
  { destruct (Nat.ltb_spec 0 (n - k)), (Nat.ltb_spec k n);
      try reflexivity; lia. }
  rewrite Hsub.
  destruct (Nat.ltb_spec k n) as [Hlt|Hge].
  - destruct (warning_messages t) eqn:W; [cbn [length] in H3; lia|].
    reflexivity.
  - rewrite append_empty. destruct (warning_messages t); reflexivity.
Qed.

Lemma regenerated_count_message_witness :
  verify_setup ascii_runtime (setup_with "Setup1" milled)
  = (name (setup_with "Setup1" milled), true,
     ("Regenerated "
      ++ str_of_nat
           (length (filter regenerated
                           (allOperations (setup_with "Setup1" milled))))
      ++ "/"
      ++ str_of_nat (length (allOperations (setup_with "Setup1" milled)))
      ++ " toolpaths")
     ++ (if length (filter regenerated
                           (allOperations (setup_with "Setup1" milled)))
            <? length (allOperations (setup_with "Setup1" milled))
         then " ("
              ++ str_of_nat
                   (length (allOperations (setup_with "Setup1" milled))
                    - length (filter regenerated
                                (allOperations (setup_with "Setup1" milled))))
              ++ " operation(s) have errors - not regenerated)"
         else "")).
Proof.
  apply (regenerated_count_message ascii_runtime
           (setup_with "Setup1" milled)).
  vm_compute. lia.
Defined.

End RegenerationReports.

(* ===================================================================== *)
(** * post_processor.py: the counter read back, and the files posted *)
(* ===================================================================== *)

Module ProgramCounter.
Import PostProcessor.

(** [get_current_program_number]: the bare [except] turns every
    failure of the read into 1000. *)
Definition get_current_program_number (u : runtime) (w : world) : Z :=
  match counter_file w with
  | Absent => 1000%Z
  | Unreadable => 1000%Z
  | Content text =>
      match py_int u (strip u text) with
      | Ok last_number => last_number
      | Raise _ => 1000%Z
      end
  end.

End ProgramCounter.

Section ProgramCounterFacts.
Import CAMManager PostProcessor ProgramCounter.

Variable u : runtime.
Variable time : nat -> Q.
Variable write_fault : world -> Z -> option (exn * file_state).

Lemma current_of_counter_value (w : world) :
  get_current_program_number u w
  = match counter_value u (counter_file w) with
    | Some c => c
    | None => 1000%Z
    end.
Proof.
  unfold get_current_program_number, counter_value.
  destruct (counter_file w) as [| |text]; try reflexivity.
  now destruct (py_int u (strip u text)).
Qed.

(** X19.  On a counter file that is missing or holds an integer, when
    the write of the successor succeeds and the successor can be
    printed, [get_next_program_number] hands out the successor of what
    [get_current_program_number] reads, and afterwards
    [get_current_program_number] reads the number just handed out. *)
Theorem current_number_follows_allocation :
  forall w : world,
    counter_value u (counter_file w) <> None ->
    write_fault w (get_current_program_number u w + 1)%Z = None ->
    printable u (get_current_program_number u w + 1) = true ->
    fst (get_next_program_number u time write_fault w)
    = (get_current_program_number u w + 1)%Z
    /\ get_current_program_number u
         (snd (get_next_program_number u time write_fault w))
       = fst (get_next_program_number u time write_fault w).
Proof.
  intros w H. rewrite !current_of_counter_value.
  destruct (counter_value u (counter_file w)) as [c|] eqn:E; [|congruence].
  intros Hw Hp.
  rewrite (next_number_counted u time write_fault w c E Hw Hp).
  cbn [fst snd set_counter counter_file].
  now rewrite counter_value_written.
Qed.

(** X20.  On a counter file that cannot be read as an integer every
    allocation falls back on the clock: the [i]-th number handed out is
    the whole seconds of the [i]-th reading of the clock, modulo 10000,
    plus 1000; the file is never rewritten, and
    [get_current_program_number] keeps reading 1000. *)
Theorem unreadable_counter_never_repaired :
  forall (k : nat) (w : world),
    counter_value u (counter_file w) = None ->
    fst (allocate u time write_fault k w)
    = map (fun i => (Qfloor (time (time_reads w + i)) mod 10000 + 1000)%Z)
          (seq 0 k)
    /\ counter_file (snd (allocate u time write_fault k w)) = counter_file w
    /\ get_current_program_number u (snd (allocate u time write_fault k w))
       = 1000%Z.
Proof.
  induction k as [|k IH]; intros w H.
  - cbn [allocate fst snd seq map]. rewrite current_of_counter_value, H.
    now repeat split.
  - cbn [allocate]. rewrite (next_number_fallback u time write_fault w H).
    assert (Ht : counter_value u (counter_file (tick w)) = None) by exact H.
    destruct (IH (tick w) Ht) as [H1 [H2 H3]].
    destruct (allocate u time write_fault k (tick w)) as [ns w'].
    cbn [fst snd] in *. rewrite H1, H2, H3.
    split; [|now split].
    cbn [seq map]. unfold time_derived. rewrite Nat.add_0_r. f_equal.
    rewrite <- seq_shift, map_map. apply map_ext. intros i.
    cbn [tick time_reads]. now rewrite Nat.add_succ_r.
Qed.

End ProgramCounterFacts.

Section PostedFiles.
Import CAMManager PostProcessor.

Variable u : runtime.
Variable time : nat -> Q.
Variable nc_path : string -> string.
Variable genericPostFolder : string.
Variable path_exists : string -> bool.
Variable postProcess : setup -> string -> directory -> result unit * directory.
Variable write_fault : world -> Z -> option (exn * file_state).
Variable box_fault : string -> world -> option exn.

(** The setup has an operation with a toolpath that is not suppressed. *)
Definition can_be_posted (s : setup) : Prop :=
  exists o, In o (allOperations s)
            /\ hasToolpath o = true /\ isSuppressed o = false.

(** What a result says of the setup and the number it was given. *)
Definition result_of (r : post_result) (sn : setup * Z) : Prop :=
  setup_of r = name (fst sn)
  /\ snd r = (if posted r
              then Some (nc_path (str_of_Z (snd sn) ++ ".nc"))
              else None)
  /\ (posted r = true -> can_be_posted (fst sn)).

Lemma valid_toolpath_posted s :
  has_valid_toolpath s = true -> can_be_posted s.
Proof.
  unfold has_valid_toolpath, can_be_posted. intros H.
  apply existsb_exists in H as [o [Hin Ho]].
  apply andb_prop in Ho as [H1 H2]. exists o.
  repeat split; [exact Hin | exact H1 | now destruct (isSuppressed o)].
Qed.

Lemma post_setup_path s n w :
  let '((success, _, file_path), _) :=
    post_process_setup nc_path genericPostFolder path_exists
                       postProcess s n w in
  file_path = (if success then Some (nc_path (str_of_Z n ++ ".nc"))
               else None)
  /\ (success = true -> can_be_posted s).
Proof.
  unfold post_process_setup.
  pose proof (valid_toolpath_posted s) as Hv.
  destruct (has_valid_toolpath s); cbn [negb]; [|split; easy].
  destruct (path_exists _); cbn [negb]; [|split; easy].
  destruct (postProcess s _ _) as [[[]|e] files];
    [destruct (lookup _ files)|]; split; try easy;
    intros _; now apply Hv.
Qed.

Lemma post_each_paths setups :
  forall results successful_posts w c,
    counter_value u (counter_file w) = Some c ->
    writes_succeed write_fault ->
    (forall i, i < length setups ->
               printable u (c + 1 + Z.of_nat i) = true) ->
    match post_each u time nc_path genericPostFolder path_exists
                    postProcess write_fault box_fault
                    setups results successful_posts w with
    | (Raise _, _) => True
    | (Ok (results', _), _) =>
        exists added,
          results' = results +++ added
          /\ Forall2 result_of added (numbered c setups)
    end.
Proof.
  induction setups as [|s rest IH];
    intros results successful_posts w c Hc Hw Hp.
  - exists []. cbn. rewrite app_nil_r. split; [reflexivity | constructor].
  - assert (Hp0 : printable u (c + 1) = true).
    { specialize (Hp 0 ltac:(cbn; lia)). now rewrite Z.add_0_r in Hp. }
    cbn [post_each numbered].
    rewrite (next_number_counted u time write_fault w c Hc (Hw _ _) Hp0).
    destruct (box_fault _ _); [exact I|].
    set (w2 := message_box _ "Generating G-code" _).
    pose proof (post_setup_frame nc_path genericPostFolder path_exists
                  postProcess s (c + 1)%Z w2) as [Fc _].
    pose proof (post_setup_path s (c + 1)%Z w2) as Hpath.
    destruct (post_process_setup _ _ _ _ s (c + 1)%Z w2)
      as [[[success message] file_path] w3].
    cbn [snd] in Fc. destruct Hpath as [Hpath Hv].
    assert (Hc3 : counter_value u (counter_file w3) = Some (c + 1)%Z).
    { rewrite Fc. subst w2. cbn. now apply counter_value_written. }
    specialize (IH (results +++ [(name s, success, message, file_path)])
                   (if success then S successful_posts else successful_posts)
                   w3 (c + 1)%Z Hc3 Hw).
    destruct (post_each _ _ _ _ _ _ _ _ rest _ _ w3)
      as [[[results' posts']|e] w']; [|exact I].
    destruct IH as [added [H1 H2]].
    { intros i Hi. specialize (Hp (S i) ltac:(cbn; lia)).
      now replace (c + 1 + 1 + Z.of_nat i)%Z
        with (c + 1 + Z.of_nat (S i))%Z by lia. }
    exists ((name s, success, message, file_path) :: added).
    rewrite H1, <- app_assoc. split; [reflexivity|].
    constructor; [|exact H2].
    unfold result_of, setup_of, posted. cbn [fst snd]. now repeat split.
Qed.

(** X21.  With a counter that stands at [c], writes of the counter that
    succeed and numbers that can be printed, a call of
    [post_process_all_setups] that returns gives, for the setup at
    position [i], a result that carries the setup's name; the result has
    a file path exactly when it is a success, and then the path is the
    one [pathlib] makes of the output directory and [<c + i + 1>.nc],
    and the setup has an operation with a toolpath that is not
    suppressed.  A setup that fails still uses up its number. *)
Theorem posted_files_follow_numbering :
  forall (setups : list setup) (w w' : world) (c : Z)
         (overall_success : bool) (summary : string)
         (results : list post_result),
    counter_value u (counter_file w) = Some c ->
    writes_succeed write_fault ->
    (forall i, i < length setups ->
               printable u (c + 1 + Z.of_nat i) = true) ->
    post_process_all_setups u time nc_path genericPostFolder path_exists
                            postProcess write_fault box_fault setups w
    = (Ok (overall_success, summary, results), w') ->
    Forall2 result_of results (numbered c setups).
Proof.
  intros setups w w' c overall_success summary results Hc Hw Hp.
  unfold post_process_all_setups.
  pose proof (post_each_paths setups [] 0 w c Hc Hw Hp) as H.
  destruct (post_each _ _ _ _ _ _ _ _ setups [] 0 w)
    as [[[results' successful_posts]|e] w1]; [|discriminate].
  destruct H as [added [H1 H2]]. cbn [app] in H1. subst results'.
  destruct (_ =? _); [|destruct (_ <? _)];
    intros [= _ _ <- _]; exact H2.
Qed.

End PostedFiles.

Section PostProcessorWitnesses.
Import CAMManager PostProcessor ProgramCounter.

(** A clock that advances by one second at every reading, from
    1700012345 seconds. *)
Definition running_clock (k : nat) : Q :=
  inject_Z (1700012345 + Z.of_nat k).

Lemma current_number_follows_allocation_witness :
  fst (get_next_program_number ascii_runtime wall_clock writable
         (set_counter (Content " 1041 ") fresh_world))
  = 1042%Z
  /\ get_current_program_number ascii_runtime
       (snd (get_next_program_number ascii_runtime wall_clock writable
               (set_counter (Content " 1041 ") fresh_world)))
     = 1042%Z.
Proof.
  apply (current_number_follows_allocation ascii_runtime wall_clock writable
           (set_counter (Content " 1041 ") fresh_world)).
  - vm_compute. discriminate.
  - reflexivity.
  - vm_compute. reflexivity.
Defined.

Lemma unreadable_counter_never_repaired_witness :
  fst (allocate ascii_runtime running_clock read_only 3
         (set_counter (Content "10O1") fresh_world))
  = [3345; 3346; 3347]%Z
  /\ counter_file
       (snd (allocate ascii_runtime running_clock read_only 3
               (set_counter (Content "10O1") fresh_world)))
     = Content "10O1"
  /\ get_current_program_number ascii_runtime
       (snd (allocate ascii_runtime running_clock read_only 3
               (set_counter (Content "10O1") fresh_world))) = 1000%Z.
Proof.
  apply (unreadable_counter_never_repaired ascii_runtime running_clock
           read_only 3 (set_counter (Content "10O1") fresh_world)).
  vm_compute. reflexivity.
Defined.

Lemma posted_files_follow_numbering_witness :
  Forall2 (result_of in_nc)
    [("Setup1", false, "Setup 'Setup1' has no valid toolpaths to post",
      None);
     ("Setup2", true, "Generated 1002.nc (2048 bytes)", Some "NC/1002.nc")]
    (numbered 1000
       [setup_with "Setup1" unmilled; setup_with "Setup2" milled]).
Proof.
  apply (posted_files_follow_numbering ascii_runtime wall_clock in_nc "posts"
           (fun _ => true) writing_engine writable shows
           [setup_with "Setup1" unmilled; setup_with "Setup2" milled]
           fresh_world
           (set_counter (Content "1002")
              (set_output [("1002.nc", 2048%Z)]
                 (message_box
                    ("Post processing setup:" ++ nl ++ "Setup2" ++ nl ++ nl
                     ++ "Program: 1002.nc") "Generating G-code"
                    (message_box
                       ("Post processing setup:" ++ nl ++ "Setup1" ++ nl
                        ++ nl ++ "Program: 1001.nc") "Generating G-code"
                       fresh_world))))
           1000%Z true "1/2 setup(s) post processed successfully").
  - reflexivity.
  - intros w n. reflexivity.
  - intros i Hi.
    destruct i as [|[|i]];
      [vm_compute; reflexivity | vm_compute; reflexivity
      | exfalso; cbn in Hi; lia].
  - vm_compute. reflexivity.
Defined.

(** A counter file written in Arabic-Indic digits is read as the number
    it holds and written back in ASCII. *)
Example arabic_counter_is_counted :
  get_next_program_number wide_runtime wall_clock writable
    (set_counter
       (Content (arabic_one ++ arabic_zero ++ arabic_zero ++ arabic_one
                 ++ nl))
       fresh_world)
  = (1002%Z, set_counter (Content "1002") fresh_world).
Proof. vm_compute. reflexivity. Qed.

(** The second setup of the witness is posted as [1002.nc]: the first,
    which has nothing to post, has used up 1001. *)
Example failed_setup_uses_its_number :
  match fst (post_process_all_setups ascii_runtime wall_clock in_nc "posts"
               (fun _ => true) writing_engine writable shows
               [setup_with "Setup1" unmilled; setup_with "Setup2" milled]
               fresh_world) with
  | Ok (_, _, results) =>
      map (fun r : post_result => snd r) results = [None; Some "NC/1002.nc"]
  | Raise _ => False
  end.
Proof. vm_compute. reflexivity. Qed.

End PostProcessorWitnesses.

(* ===================================================================== *)
(** * order_processor.py: the stages of a component *)
(* ===================================================================== *)

Section PipelineStages.
Import CAMManager OrderProcessor.

Variables Document Design World : Type.
Variable host :
  forall X, call Document Design X -> World -> result X * World.
Variable repr : json -> string.
Variable basename : string -> string.

#[local] Abbreviation entry := (OrderProcessor.entry Document Design).
#[local] Abbreviation M := (OrderProcessor.M Document Design World).
#[local] Abbreviation invoke :=
  (@OrderProcessor.invoke Document Design World host).

(** The place of a call in the pipeline of [process_component]; the
    logger, the message box and the read of the order file have none. *)
Definition stage_of {X} (c : call Document Design X) : nat :=
  match c with
  | OpenDocument _ _ _ => 1
  | DesignOf _ _ _ => 2
  | UpdateParametersBatch _ _ _ _ => 3
  | GetCamProduct _ _ _ => 4
  | ListSetupNames _ _ _ => 5
  | RegenerateAllToolpaths _ _ _ => 6
  | NewPostProcessor _ _ _ => 7
  | GetAllSetups _ _ _ => 8
  | PostProcessAllSetups _ _ _ _ => 9
  | _ => 0
  end.

(** The answers on which [process_component] goes on to the next
    stage: the document was opened, it has a design, no parameter
    failed, the CAM product was reached, there is a setup, regeneration
    reports success, and some setup was posted. *)
Definition lets_through {X} (c : call Document Design X)
    : result X -> bool :=
  match c in call _ _ X return result X -> bool with
  | OpenDocument _ _ _ =>
      fun answer =>
        match answer with
        | Ok (true, Some _) => true
        | _ => false
        end
  | DesignOf _ _ _ =>
      fun answer =>
        match answer with
        | Ok (Some _) => true
        | _ => false
        end
  | UpdateParametersBatch _ _ _ _ =>
      fun answer =>
        match answer with
        | Ok results =>
            match filter (fun r : param_result => negb (snd (fst r)))
                         results with
            | [] => true
            | _ :: _ => false
            end
        | Raise _ => false
        end
  | GetCamProduct _ _ _ =>
      fun answer =>
        match answer with
        | Ok (true, _) => true
        | _ => false
        end
  | ListSetupNames _ _ _ =>
      fun answer =>
        match answer with
        | Ok (_ :: _) => true
        | _ => false
        end
  | RegenerateAllToolpaths _ _ _ =>
      fun answer =>
        match answer with
        | Ok (true, _, _) => true
        | _ => false
        end
  | NewPostProcessor _ _ _ =>
      fun answer => match answer with Ok _ => true | Raise _ => false end
  | GetAllSetups _ _ _ =>
      fun answer => match answer with Ok _ => true | Raise _ => false end
  | PostProcessAllSetups _ _ _ _ =>
      fun answer =>
        match answer with
        | Ok (_, _, post_results) =>
            match filter PostProcessor.posted post_results with
            | [] => false
            | _ :: _ => true
            end
        | Raise _ => false
        end
  | _ => fun _ => false
  end.

Definition stage (e : entry) : nat :=
  match e with Called _ _ _ c _ => stage_of c end.

Definition passed (e : entry) : bool :=
  match e with Called _ _ _ c answer => lets_through c answer end.

(** The calls of a record that are not reports. *)
Definition work (record : list entry) : list entry :=
  filter (fun e => negb (reporting Document Design e)) record.

Definition succeeded (r : result (bool * string)) : bool :=
  match r with
  | Ok (success, _) => success
  | Raise _ => false
  end.

(** *** A monitor for the stages *)

(** [At n]: the stages before [n] were called, in order, and passed;
    [Stopped]: the last stage called did not pass; [Off]: a stage was
    called out of turn. *)
Inductive progress := At (next : nat) | Stopped | Off.

Definition advance (p : progress) (e : entry) : progress :=
  if reporting Document Design e then p
  else match p with
       | At n =>
           if stage e =? n
           then (if passed e then At (S n) else Stopped)
           else Off
       | _ => Off
       end.

Definition progress_from (p : progress) (record : list entry) : progress :=
  fold_left advance record p.

Lemma progress_from_app p a b :
  progress_from p (a +++ b) = progress_from (progress_from p a) b.
Proof. apply fold_left_app. Qed.

Lemma progress_from_cons p e rest :
  progress_from p (e :: rest) = progress_from (advance p e) rest.
Proof. reflexivity. Qed.

Lemma progress_off record : progress_from Off record = Off.
Proof.
  induction record as [|e r IH]; [reflexivity|].
  rewrite progress_from_cons. unfold advance.
  now destruct (reporting _ _ e).
Qed.

Lemma progress_stopped record :
  progress_from Stopped record <> Off -> 
  progress_from Stopped record = Stopped /\ work record = [].
Proof.
  induction record as [|e r IH]; [now split|].
  rewrite progress_from_cons. unfold advance, work. cbn [filter].
  destruct (reporting _ _ e); cbn [negb].
  - exact IH.
  - rewrite progress_off. congruence.
Qed.

Lemma stage_bound e : stage e <= 9.
Proof. destruct e as [X c answer]. destruct c; cbn; lia. Qed.

Lemma progress_sound record :
  forall n,
    match progress_from (At n) record with
    | At m =>
        n <= m
        /\ map stage (work record) = seq n (m - n)
        /\ forallb passed (work record) = true
    | Stopped =>
        exists done last,
          work record = done +++ [last]
          /\ map stage (work record) = seq n (length (work record))
          /\ forallb passed done = true
          /\ passed last = false
    | Off => True
    end.
Proof.
  induction record as [|e rest IH]; intros n.
  - cbn. rewrite Nat.sub_diag. now repeat split.
  - rewrite progress_from_cons. unfold advance, work. cbn [filter].
    destruct (reporting _ _ e); cbn [negb]; [apply IH|].
    destruct (Nat.eqb_spec (stage e) n) as [E|E];
      [|now rewrite progress_off].
    destruct (passed e) eqn:P.
    + specialize (IH (S n)). fold (work rest).
      destruct (progress_from (At (S n)) rest) as [m| |]; [| |exact I].
      * destruct IH as [H1 [H2 H3]]. split; [lia|].
        cbn [map forallb]. rewrite H2, H3, P, E.
        replace (m - n) with (S (m - S n)) by lia. now split.
      * destruct IH as [done [last [H1 [H2 [H3 H4]]]]].
        exists (e :: done), last. cbn [map length forallb app seq].
        rewrite H1 in *. rewrite H2, H3, P, E. now repeat split.
    + destruct (progress_from Stopped rest) eqn:R; [| |exact I].
      * exfalso.
        destruct (progress_stopped rest) as [H _]; [congruence|].
        congruence.
      * destruct (progress_stopped rest) as [_ H]; [congruence|].
        fold (work rest). rewrite H.
        exists [], e. cbn. rewrite E. now repeat split.
Qed.

(** *** Running a program against the monitor *)

Definition runs_from {A} (p : progress) (m : M A)
    (Q : result A -> progress -> Prop) : Prop :=
  forall (w : World) (record : list entry),
    progress_from (At 1) record = p ->
    Q (fst (m (w, record)))
      (progress_from (At 1) (snd (snd (m (w, record))))).

Lemma runs_ret {A} p (a : A) Q :
  Q (Ok a) p -> runs_from p (ret Document Design World a) Q.
Proof. intros H w record <-. exact H. Qed.

Lemma runs_raise {A} p e (Q : result A -> progress -> Prop) :
  Q (Raise e) p -> runs_from p (raise Document Design World e) Q.
Proof. intros H w record <-. exact H. Qed.

Lemma runs_lift {A} p (r : result A) Q :
  Q r p -> runs_from p (lift Document Design World r) Q.
Proof. intros H w record <-. exact H. Qed.

Lemma runs_bind {A B} p (m : M A) (k : A -> M B) Q :
  runs_from p m (fun r p' =>
                   match r with
                   | Ok a => runs_from p' (k a) Q
                   | Raise e => Q (Raise e) p'
                   end) ->
  runs_from p (mbind Document Design World m k) Q.
Proof.
  intros H w record Hp. specialize (H w record Hp). unfold mbind.
  destruct (m (w, record)) as [[a|e] [w' record']]; cbn [fst snd] in *.
  - now apply H.
  - exact H.
Qed.

Lemma runs_catch {A} p (m : M A) (h : exn -> M A) Q :
  runs_from p m (fun r p' =>
                   match r with
                   | Ok a => Q (Ok a) p'
                   | Raise e => runs_from p' (h e) Q
                   end) ->
  runs_from p (catch Document Design World m h) Q.
Proof.
  intros H w record Hp. specialize (H w record Hp). unfold catch.
  destruct (m (w, record)) as [[a|e] [w' record']]; cbn [fst snd] in *.
  - exact H.
  - now apply H.
Qed.

Lemma runs_invoke {X} p (c : call Document Design X) Q :
  (forall answer,
      Q answer (advance p (Called Document Design X c answer))) ->
  runs_from p (invoke c) Q.
Proof.
  intros H w record <-. unfold OrderProcessor.invoke. cbn [fst snd].
  destruct (host X c w) as [answer w']. cbn [fst snd].
  rewrite progress_from_app. apply H.
Qed.

Lemma advance_report p e :
  reporting Document Design e = true -> advance p e = p.
Proof. intros H. unfold advance. now rewrite H. Qed.

Lemma runs_for_each {A} p (f : A -> M unit) (l : list A)
    (Q : result unit -> progress -> Prop) :
  (forall a, exists c : call Document Design unit,
        f a = invoke c /\ is_report Document Design c = true) ->
  Q (Ok tt) p -> (forall e, Q (Raise e) p) ->
  runs_from p (for_each Document Design World f l) Q.
Proof.
  intros Hf Hok Hraise. induction l as [|a r IH]; cbn [for_each].
  - now apply runs_ret.
  - apply runs_bind. destruct (Hf a) as [c [-> Hc]].
    apply runs_invoke. intros answer.
    rewrite (advance_report p (Called Document Design unit c answer) Hc).
    destruct answer as [[]|e]; [exact IH | apply Hraise].
Qed.

Lemma runs_weaken {A} p (m : M A) (Q Q' : result A -> progress -> Prop) :
  runs_from p m Q -> (forall r p', Q r p' -> Q' r p') -> runs_from p m Q'.
Proof. intros H HQ w record Hp. apply HQ. now apply H. Qed.

(** What a run of a component leaves behind. *)
Definition finished (r : result (bool * string)) (p : progress) : Prop :=
  match p with
  | At n => n <= 10 /\ (succeeded r = true -> n = 10)
  | Stopped => succeeded r = false
  | Off => False
  end.

Ltac reduce_monitor :=
  cbn beta iota zeta;
  cbn [advance stage stage_of passed lets_through reporting is_report
       Nat.eqb negb succeeded].

Ltac finish :=
  reduce_monitor;
  repeat match goal with
         | |- context [match filter ?f ?l with _ => _ end] =>
             destruct (filter f l); reduce_monitor
         | |- context [match ?x with _ => _ end] =>
             is_var x; destruct x; reduce_monitor
         end;
  unfold finished; reduce_monitor;
  first [ reflexivity
        | split; [lia | intros ?; first [discriminate | reflexivity]] ].

Ltac a_report :=
  let r := fresh "r" in
  intros r;
  match goal with
  | |- context [if ?b then _ else _] => destruct b
  | _ => idtac
  end;
  eexists; split; reflexivity.

Ltac walk :=
  reduce_monitor;
  lazymatch goal with
  | |- finished _ _ => finish
  | |- runs_from _ (mbind _ _ _ _ _) _ => apply runs_bind; walk
  | |- runs_from _ (catch _ _ _ _ _) _ => apply runs_catch; walk
  | |- runs_from _ (ret _ _ _ _) _ => apply runs_ret; walk
  | |- runs_from _ (raise _ _ _ _) _ => apply runs_raise; walk
  | |- runs_from _ (lift _ _ _ ?r) _ => apply runs_lift; destruct r; walk
  | |- runs_from _ (for_each _ _ _ _ _) _ =>
      apply runs_for_each; [a_report | walk | intros ?; walk]
  | |- runs_from _ (OrderProcessor.invoke _ _ _ _ _) _ =>
      apply runs_invoke; intros [?|?]; walk
  | |- runs_from _ (if negb ?b then _ else _) _ => destruct b; walk
  | |- runs_from _ (if ?b then _ else _) _ => destruct b; walk
  | |- runs_from _ (match ?x with _ => _ end) _ => destruct x; walk
  | |- runs_from _ (let '(_, _) := ?x in _) _ => destruct x; walk
  | |- _ => idtac
  end.

Lemma component_steps_finished c comp_id comp_num total_comps :
  runs_from (At 1)
    (component_steps Document Design World host repr basename
       c comp_id comp_num total_comps)
    finished.
Proof.
  unfold component_steps. walk.
Qed.

Lemma process_component_finished component comp_num total_comps :
  runs_from (At 1)
    (process_component Document Design World host repr basename
       component comp_num total_comps)
    finished.
Proof.
  destruct component as [| | | | | |c];
    try (cbn [process_component component_handler]; apply runs_raise;
         cbn; split; [lia | discriminate]).
  unfold process_component. apply runs_catch.
  eapply runs_weaken; [apply component_steps_finished|].
  intros [[success message]|e] p H; [exact H|].
  cbn [component_handler]. apply runs_ret.
  destruct p; cbn in *; tauto.
Qed.

Lemma forallb_removelast {A} (f : A -> bool) (l : list A) :
  forallb f l = true -> forallb f (removelast l) = true.
Proof.
  induction l as [|a r IH]; [easy|].
  cbn [forallb]. intros H. apply andb_prop in H as [Ha Hr].
  destruct r as [|b r]; [reflexivity|].
  change (removelast (a :: b :: r)) with (a :: removelast (b :: r)).
  cbn [forallb]. now rewrite Ha, IH.
Qed.

(** X22.  In every run of [process_component] the calls that are not
    reports are the stages of the pipeline taken from the first on, each
    once and in order: open the document, take its design, update the
    parameters, reach the CAM product, list the setups, regenerate, make
    the post processor, read the setups, post them.  A stage is called
    only after every earlier one gave an answer that lets the component
    through, and the component is returned as a success only when all
    nine stages were called and let it through; in particular its
    parameters were all updated, regeneration reported success and some
    setup was posted. *)
Theorem pipeline_stages_in_order :
  forall (component : json) (comp_num total_comps : nat) (w : World),
    let outcome :=
      run Document Design World
        (process_component Document Design World host repr basename
           component comp_num total_comps) w in
    let calls := work (snd (snd outcome)) in
    map stage calls = seq 1 (length calls)
    /\ length calls <= 9
    /\ forallb passed (removelast calls) = true
    /\ (succeeded (fst outcome) = true ->
        length calls = 9 /\ forallb passed calls = true).
Proof.
  intros component comp_num total_comps w outcome calls.
  subst calls outcome. unfold run.
  pose proof (process_component_finished component comp_num total_comps
                w [] eq_refl) as H.
  destruct (process_component _ _ _ _ _ _ component _ _ (w, []))
    as [r [w' record]].
  cbn [fst snd] in *.
  pose proof (progress_sound record 1) as S.
  destruct (progress_from (At 1) record) as [m| |]; cbn [finished] in H.
  - destruct H as [Hm Hs]. destruct S as [S1 [S2 S3]].
    assert (L : length (work record) = m - 1).
    { rewrite <- (length_map stage), S2. apply length_seq. }
    rewrite L. repeat split.
    + exact S2.
    + lia.
    + now apply forallb_removelast.
    + specialize (Hs H). lia.
    + exact S3.
  - destruct S as [done [last [S1 [S2 [S3 S4]]]]].
    rewrite S1 in *. rewrite removelast_last.
    assert (B : length (done +++ [last]) <= 9).
    { rewrite length_app in *. cbn [length] in *.
      rewrite map_app, seq_app in S2. cbn [map seq] in S2.
      apply app_inj_tail in S2 as [_ S2].
      pose proof (stage_bound last). lia. }
    repeat split; try assumption; congruence.
  - contradiction.
Qed.

(** *** Whole orders *)

#[local] Abbreviation state := (OrderProcessor.state Document Design World).

Lemma mbind_ok {A B} (m : M A) (k : A -> M B) (s s' : state) (b : B) :
  mbind Document Design World m k s = (Ok b, s') ->
  exists a s1, m s = (Ok a, s1) /\ k a s1 = (Ok b, s').
Proof.
  unfold mbind. destruct (m s) as [[a|e] s1]; [eauto | discriminate].
Qed.

Lemma invoke_ok {X} (c : call Document Design X) (s s' : state) (a : X) :
  invoke c s = (Ok a, s') ->
  snd s' = snd s +++ [Called Document Design X c (Ok a)].
Proof.
  unfold OrderProcessor.invoke. destruct (host X c (fst s)) as [answer w'].
  intros H. injection H as -> <-. reflexivity.
Qed.

Lemma process_each_returns total items :
  forall idx (s s' : state) results,
    process_each Document Design World host repr basename
      items idx total s = (Ok results, s') ->
    attempted_in_order Document Design World host repr basename
      total items idx s results s'
    /\ forallb is_dict items = true
    /\ length results = length items.
Proof.
  induction items as [|component rest IH]; intros idx s s' results H.
  - cbn in H. injection H as <- <-. repeat split. constructor.
  - cbn [process_each] in H.
    apply mbind_ok in H as [r [s1 [E1 H]]].
    apply mbind_ok in H as [rs [s2 [E2 H]]].
    cbn in H. injection H as <- <-.
    destruct (IH _ _ _ _ E2) as [A [D L]].
    assert (Hd : is_dict component = true).
    { destruct component; try reflexivity; cbn in E1; discriminate. }
    cbn [forallb length]. rewrite Hd, D, L.
    repeat split. econstructor; eassumption.
Qed.

Lemma chars_not_objects s : s <> "" -> forallb is_dict (chars s) = false.
Proof.
  destruct s as [|a s]; [congruence|]. intros _. unfold chars.
  destruct (characters_head a s) as [x [t ->]]. reflexivity.
Qed.

(** X23.  [process_order] reports success only on an order file that
    was read as an object whose [components] is a non-empty list of
    objects, after every component of the list has been processed, in
    order, each on the state its predecessor left, and every one of them
    was returned as a success. *)
Theorem order_success_means_every_component_succeeded :
  forall (order_file_path : string) (s s' : state) (message : string),
    process_order Document Design World host repr basename
      order_file_path s = (Ok (true, message), s') ->
    exists (o : list (string * json)) (components : list json)
           (results : list (bool * string)) (s0 : state),
      let order_id := str repr (get_default o "orderId" (JStr "unknown")) in
      snd s0
      = snd s
        +++ [Called _ _ _
               (LoggerInfo Document Design
                  ("Loading order from: " ++ order_file_path)) (Ok tt)]
        +++ [Called _ _ _ (ReadOrderFile Document Design order_file_path)
               (Ok (JObj o))]
        +++ [Called _ _ _
               (LoggerInfo Document Design
                  ("Processing order: " ++ order_id ++ " with "
                   ++ str_of_nat (length components) ++ " component(s)"))
               (Ok tt)]
      /\ get_default o "components" (JArr []) = JArr components
      /\ components <> []
      /\ forallb is_dict components = true
      /\ attempted_in_order Document Design World host repr basename
           (length components) components 0 s0 results s'
      /\ length results = length components
      /\ forallb fst results = true
      /\ summary order_id results = (true, message).
Proof.
  intros order_file_path s s' message H.
  unfold process_order, catch in H.
  match type of H with
  | (let (_, _) := ?body s in _) = _ =>
      destruct (body s) as [[r|e] s1] eqn:E
  end; [|discriminate H].
  injection H as -> ->.
  apply mbind_ok in E as [[] [s1 [E1 E]]].
  apply mbind_ok in E as [order [s2 [E2 E]]].
  destruct (truthy order) eqn:T; cbn [negb] in E;
    [|apply mbind_ok in E as [? [? [_ E]]]; discriminate E].
  destruct order as [| | | | | |o]; try discriminate E.
  cbv zeta in E.
  apply mbind_ok in E as [n [s3 [E3 E]]].
  apply mbind_ok in E as [[] [s4 [E4 E]]].
  destruct (truthy (get_default o "components" (JArr []))) eqn:Tc;
    cbn [negb] in E; [|discriminate E].
  apply mbind_ok in E as [items [s5 [E5 E]]].
  apply mbind_ok in E as [results [s6 [E6 E]]].
  unfold ret in E. injection E as E <-.
  unfold lift in E3, E5. injection E3 as E3 <-. injection E5 as E5 <-.
  destruct (process_each_returns _ _ _ _ _ _ E6) as [A [D L]].
  assert (R2 : snd s2
               = snd s1 +++ [Called _ _ _
                               (ReadOrderFile Document Design order_file_path)
                               (Ok (JObj o))]).
  { unfold load_order_file, catch in E2.
    destruct (invoke (ReadOrderFile Document Design order_file_path) s1)
      as [[order|e] s1'] eqn:Er.
    - injection E2 as -> ->. now apply invoke_ok in Er.
    - apply mbind_ok in E2 as [? [? [_ E2]]]. discriminate E2. }
  apply invoke_ok in E1, E4.
  destruct (get_default o "components" (JArr [])) as [| | | |t|l|l] eqn:C;
    try discriminate E5; cbn [py_iter py_len] in E5, E3.
  - injection E5 as <-. exfalso.
    rewrite chars_not_objects in D; [discriminate|].
    intros ->. discriminate Tc.
  - injection E5 as <-. injection E3 as <-.
    exists o, l, results, s4. cbv zeta.
    rewrite E4, R2, E1.
    split; [reflexivity|].
    split; [exact C|].
    split; [intros ->; discriminate Tc|].
    split; [exact D|].
    split; [exact A|].
    split; [exact L|].
    split; [|exact E].
    rewrite <- (summary_success
                  (str repr (get_default o "orderId" (JStr "unknown")))
                  results), E.
    reflexivity.
  - injection E5 as <-. exfalso.
    destruct l as [|kv l]; [discriminate Tc | discriminate D].
Qed.

(** X24.  On an order file read as an object whose [components] is a
    non-empty list of objects, with the logger answering,
    [process_order] processes every component, in order, each on the
    state its predecessor left, also after a component has failed.  It
    reports success exactly when every component succeeded, and
    otherwise its message has the line [Component <i>: <message>] for
    each failed component, [i] counting from one. *)
Theorem object_components_all_attempted :
  forall (order_file_path : string) (w w1 w2 w3 : World)
         (record : list entry) (o : list (string * json))
         (components : list json),
    let order_id := str repr (get_default o "orderId" (JStr "unknown")) in
    let loading := LoggerInfo Document Design
                     ("Loading order from: " ++ order_file_path) in
    let reading := ReadOrderFile Document Design order_file_path in
    let starting := LoggerInfo Document Design
                      ("Processing order: " ++ order_id ++ " with "
                       ++ str_of_nat (length components)
                       ++ " component(s)") in
    host unit loading w = (Ok tt, w1) ->
    host json reading w1 = (Ok (JObj o), w2) ->
    host unit starting w2 = (Ok tt, w3) ->
    get_default o "components" (JArr []) = JArr components ->
    components <> [] ->
    forallb is_dict components = true ->
    exists results s',
      process_order Document Design World host repr basename
        order_file_path (w, record)
      = (Ok (forallb fst results, snd (summary order_id results)), s')
      /\ attempted_in_order Document Design World host repr basename
           (length components) components 0
           (w3, record +++ [Called _ _ _ loading (Ok tt)]
                       +++ [Called _ _ _ reading (Ok (JObj o))]
                       +++ [Called _ _ _ starting (Ok tt)])
           results s'
      /\ length results = length components
      /\ (forall i message,
             nth_error results i = Some (false, message) ->
             contains ("  Component " ++ str_of_nat (i + 1) ++ ": "
                       ++ message ++ nl)
                      (snd (summary order_id results)) = true).
Proof.
  intros order_file_path w w1 w2 w3 record o components
         order_id loading reading starting H1 H2 H3 Hc Hne Hobj.
  destruct (process_order_objects Document Design World host repr basename
              order_file_path w w1 w2 w3 record o components
              H1 H2 H3 Hc Hne Hobj) as [results [s' [E [A L]]]].
  exists results, s'. fold order_id in E.
  split; [|split; [exact A | split; [exact L|]]].
  - rewrite E, <- (summary_success order_id results).
    now destruct (summary order_id results).
  - intros i message Hi.
    assert (Hf : forallb fst results = false).
    { clear -Hi. revert i Hi.
      induction results as [|[b m] r IH]; intros [|i] Hi;
        try discriminate Hi; cbn in Hi |- *.
      - now injection Hi as -> ->.
      - rewrite (IH _ Hi). apply andb_false_r. }
    rewrite (summary_partial order_id results Hf). cbn [snd].
    do 10 apply contains_skip.
    apply (failed_lines_itemized results 0 i message Hi).
Qed.

(** X25.  No exception leaves [process_order], whatever the host, the
    file or the order: it always returns a pair.  The same holds of
    [process_component] on a component that is an object. *)
Theorem no_exception_escapes :
  (forall (order_file_path : string) (s : state),
      exists r s',
        process_order Document Design World host repr basename
          order_file_path s = (Ok r, s'))
  /\ (forall (c : list (string * json)) (comp_num total_comps : nat)
             (s : state),
         exists r s',
           process_component Document Design World host repr basename
             (JObj c) comp_num total_comps s = (Ok r, s')).
Proof.
  split.
  - intros order_file_path s. unfold process_order, catch.
    match goal with
    | |- exists _ _, (let (_, _) := ?body s in _) = _ =>
        destruct (body s) as [[r|e] s1]
    end; unfold ret; eauto.
  - intros c comp_num total_comps s.
    apply process_component_object_returns.
Qed.


(** *** Validation and processing *)

Import Validator.

Lemma passable_object component :
  passable component = true -> is_dict component = true.
Proof. now destruct component. Qed.

Lemma accepted_components_objects (u : runtime)
    (od : list (string * json)) :
  validate_order u repr (JObj od) = Ok (true, []) ->
  exists components,
    get_default od "components" (JArr []) = JArr components
    /\ components <> []
    /\ forallb is_dict components = true.
Proof.
  unfold validate_order. destruct (missing_fields od); [|discriminate].
  cbn [app].
  destruct (get_default od "components" (JArr [])) as [|b|z|q|t|cs|o];
    cbn [bind];
    try (intros H; injection H as _ H;
         apply app_eq_nil in H as [H _]; apply app_eq_nil in H as [_ H];
         discriminate H).
  destruct cs as [|c cs].
  - cbn [bind]. intros H. injection H as _ H.
    apply app_eq_nil in H as [H _]. apply app_eq_nil in H as [_ H].
    discriminate H.
  - pose proof (validate_components_raised repr (c :: cs) 0
                  ((if negb (_validate_version u
                               (get_default od "version" (JStr "")))
                    then ["Invalid version format: '"
                          ++ py_str repr (get_default od "version" (JStr ""))
                          ++ "' (expected X.Y.Z)"]
                    else [])
                   +++ (if negb (truthy (get od "orderId"))
                        then ["orderId cannot be empty"] else []))
                  []) as R.
    destruct (validate_components repr (c :: cs) 0 _ []) as [errs|e];
      cbn [bind]; [|discriminate].
    intros _. exists (c :: cs).
    split; [reflexivity | split; [discriminate|]].
    cbn [raised] in R. symmetry in R. apply negb_false_iff in R.
    clear -R. induction (c :: cs) as [|x r IH]; [reflexivity|].
    cbn [forallb] in *. apply andb_prop in R as [Rx Rr].
    now rewrite (passable_object x Rx), IH.
Qed.

(** X28.  An order that [validate_order] accepts has a non-empty list
    of components, and it is processed to the end: when the order file
    is read as that order and the logger answers the two lines that
    announce it, [process_order] processes every component of the order,
    in order, each on the state its predecessor left, and returns the
    summary of their results; no component makes it stop. *)
Theorem accepted_order_is_processed :
  forall (u : runtime) (order_file_path : string) (w : World)
         (record : list entry) (od : list (string * json)),
    let order_id := str repr (get_default od "orderId" (JStr "unknown")) in
    let loading := LoggerInfo Document Design
                     ("Loading order from: " ++ order_file_path) in
    let reading := ReadOrderFile Document Design order_file_path in
    validate_order u repr (JObj od) = Ok (true, []) ->
    exists components,
      get_default od "components" (JArr []) = JArr components
      /\ 0 < length components
      /\ forall w1 w2 w3 : World,
           let starting :=
             LoggerInfo Document Design
               ("Processing order: " ++ order_id ++ " with "
                ++ str_of_nat (length components) ++ " component(s)") in
           host unit loading w = (Ok tt, w1) ->
           host json reading w1 = (Ok (JObj od), w2) ->
           host unit starting w2 = (Ok tt, w3) ->
           exists results s',
             process_order Document Design World host repr basename
               order_file_path (w, record)
             = (Ok (summary order_id results), s')
             /\ attempted_in_order Document Design World host repr basename
                  (length components) components 0
                  (w3, record +++ [Called _ _ _ loading (Ok tt)]
                              +++ [Called _ _ _ reading (Ok (JObj od))]
                              +++ [Called _ _ _ starting (Ok tt)])
                  results s'
             /\ length results = length components.
Proof.
  intros u order_file_path w record od order_id loading reading Hv.
  destruct (accepted_components_objects u od Hv)
    as [components [Hc [Hne Hobj]]].
  exists components.
  split; [exact Hc | split; [destruct components; [congruence | cbn; lia]|]].
  intros w1 w2 w3 starting H1 H2 H3.
  exact (process_order_objects Document Design World host repr basename
           order_file_path w w1 w2 w3 record od components
           H1 H2 H3 Hc Hne Hobj).
Qed.

(** *** Components without a file or without parameters *)

Lemma component_steps_turned_down c comp_id comp_num total_comps :
  truthy (get_default c "fusionModelPath" (JStr "")) = false
  \/ truthy (get_default c "parameters" (JObj [])) = false ->
  runs_from (At 1)
    (component_steps Document Design World host repr basename
       c comp_id comp_num total_comps)
    (fun r p => p = At 1 /\ succeeded r = false).
Proof.
  intros H. unfold component_steps. cbv zeta.
  apply runs_bind, runs_invoke. intros [[]|e]; reduce_monitor; [|now split].
  apply runs_bind, runs_invoke. intros [[]|e]; reduce_monitor; [|now split].
  apply runs_bind, runs_lift.
  destruct (py_len (get_default c "parameters" (JObj []))) as [n_params|e];
    [|now split].
  apply runs_bind, runs_invoke. intros [[]|e]; reduce_monitor; [|now split].
  destruct (truthy (get_default c "fusionModelPath" (JStr ""))) eqn:Tf;
    cbn [negb]; [|apply runs_ret; now split].
  destruct (truthy (get_default c "parameters" (JObj []))) eqn:Tp;
    cbn [negb]; [|apply runs_ret; now split].
  destruct H; discriminate.
Qed.

(** X29.  A component whose [fusionModelPath] or [parameters] is
    missing, empty or null is returned as failed before any stage of the
    pipeline is called: no document is opened and nothing is updated,
    regenerated or posted, whatever the host does. *)
Theorem component_without_file_or_parameters_fails :
  forall (c : list (string * json)) (comp_num total_comps : nat) (w : World),
    truthy (get_default c "fusionModelPath" (JStr "")) = false
    \/ truthy (get_default c "parameters" (JObj [])) = false ->
    let outcome :=
      run Document Design World
        (process_component Document Design World host repr basename
           (JObj c) comp_num total_comps) w in
    succeeded (fst outcome) = false
    /\ work (snd (snd outcome)) = [].
Proof.
  intros c comp_num total_comps w H outcome. subst outcome. unfold run.
  assert (R : runs_from (At 1)
                (process_component Document Design World host repr basename
                   (JObj c) comp_num total_comps)
                (fun r p => p = At 1 /\ succeeded r = false)).
  { unfold process_component. apply runs_catch.
    eapply runs_weaken; [apply component_steps_turned_down; exact H|].
    intros [[success message]|e] p [Hp Hs]; [now split|].
    cbn [component_handler]. apply runs_ret. now split. }
  specialize (R w [] eq_refl).
  destruct (process_component _ _ _ _ _ _ (JObj c) _ _ (w, []))
    as [r [w' record]].
  cbn [fst snd] in *. destruct R as [Hp Hs]. split; [exact Hs|].
  pose proof (progress_sound record 1) as S. rewrite Hp in S.
  destruct S as [_ [S _]]. cbn in S. now apply map_eq_nil in S.
Qed.

End PipelineStages.

Section OrderProcessorWitnesses.
Import CAMManager OrderProcessor.

Lemma order_success_means_every_component_succeeded_witness :
  exists (o : list (string * json)) (components : list json)
         (results : list (bool * string)) (s0 : state nat nat unit),
    let order_id := str (fun _ => "") (get_default o "orderId" (JStr "unknown")) in
    snd s0
    = snd (tt, @nil (entry nat nat))
      +++ [Called _ _ _
             (LoggerInfo nat nat ("Loading order from: " ++ "order.json"))
             (Ok tt)]
      +++ [Called _ _ _ (ReadOrderFile nat nat "order.json") (Ok (JObj o))]
      +++ [Called _ _ _
             (LoggerInfo nat nat
                ("Processing order: " ++ order_id ++ " with "
                 ++ str_of_nat (length components) ++ " component(s)"))
             (Ok tt)]
    /\ get_default o "components" (JArr []) = JArr components
    /\ components <> []
    /\ forallb is_dict components = true
    /\ attempted_in_order nat nat unit
         (scripted_host (order_with [panel; panel]) true)
         (fun _ => "") (fun p => p)
         (length components) components 0 s0 results
         (snd (process_order nat nat unit
                 (scripted_host (order_with [panel; panel]) true)
                 (fun _ => "") (fun p => p) "order.json" (tt, [])))
    /\ length results = length components
    /\ forallb fst results = true
    /\ summary order_id results
       = (true,
          "Order ORD-1 completed successfully!" ++ nl ++ nl
          ++ "Processed 2 component(s)").
Proof.
  apply (order_success_means_every_component_succeeded nat nat unit
           (scripted_host (order_with [panel; panel]) true)
           (fun _ => "") (fun p => p) "order.json" (tt, [])).
  vm_compute. reflexivity.
Defined.

Lemma object_components_all_attempted_witness :
  exists results s',
    process_order nat nat unit
      (scripted_host
         (order_with [panel; JObj [("componentId", JStr "door-2")]]) true)
      (fun _ => "") (fun p => p) "order.json" (tt, [])
    = (Ok (forallb fst results,
           snd (summary
                  (str (fun _ => "")
                     (get_default
                        [("version", JStr "1.0.0"); ("orderId", JStr "ORD-1");
                         ("components",
                          JArr [panel;
                                JObj [("componentId", JStr "door-2")]])]
                        "orderId" (JStr "unknown")))
                  results)), s')
    /\ attempted_in_order nat nat unit
         (scripted_host
            (order_with [panel; JObj [("componentId", JStr "door-2")]]) true)
         (fun _ => "") (fun p => p)
         (length [panel; JObj [("componentId", JStr "door-2")]])
         [panel; JObj [("componentId", JStr "door-2")]] 0
         (tt,
          [] +++ [Called _ _ _
                    (LoggerInfo nat nat
                       ("Loading order from: " ++ "order.json")) (Ok tt)]
             +++ [Called _ _ _ (ReadOrderFile nat nat "order.json")
                    (Ok (JObj
                           [("version", JStr "1.0.0");
                            ("orderId", JStr "ORD-1");
                            ("components",
                             JArr [panel;
                                   JObj [("componentId", JStr "door-2")]])]))]
             +++ [Called _ _ _
                    (LoggerInfo nat nat
                       ("Processing order: "
                        ++ str (fun _ => "")
                             (get_default
                                [("version", JStr "1.0.0");
                                 ("orderId", JStr "ORD-1");
                                 ("components",
                                  JArr [panel;
                                        JObj [("componentId",
                                               JStr "door-2")]])]
                                "orderId" (JStr "unknown"))
                        ++ " with "
                        ++ str_of_nat
                             (length
                                [panel;
                                 JObj [("componentId", JStr "door-2")]])
                        ++ " component(s)")) (Ok tt)])
         results s'
    /\ length results
       = length [panel; JObj [("componentId", JStr "door-2")]]
    /\ (forall i message,
           nth_error results i = Some (false, message) ->
           contains ("  Component " ++ str_of_nat (i + 1) ++ ": "
                     ++ message ++ nl)
                    (snd (summary
                            (str (fun _ => "")
                               (get_default
                                  [("version", JStr "1.0.0");
                                   ("orderId", JStr "ORD-1");
                                   ("components",
                                    JArr [panel;
                                          JObj [("componentId",
                                                 JStr "door-2")]])]
                                  "orderId" (JStr "unknown")))
                            results)) = true).
Proof.
  apply (object_components_all_attempted nat nat unit
           (scripted_host
              (order_with [panel; JObj [("componentId", JStr "door-2")]]) true)
           (fun _ => "") (fun p => p) "order.json" tt tt tt tt []
           [("version", JStr "1.0.0"); ("orderId", JStr "ORD-1");
            ("components",
             JArr [panel; JObj [("componentId", JStr "door-2")]])]
           [panel; JObj [("componentId", JStr "door-2")]]).
  - reflexivity.
  - reflexivity.
  - reflexivity.
  - reflexivity.
  - discriminate.
  - reflexivity.
Defined.

(** An order the validator accepts. *)
Definition two_part_order : list (string * json) :=
  [("version", JStr "1.0.0"); ("orderId", JStr "ORD-1");
   ("components", JArr [panel; door "door-2"])].

Lemma accepted_order_is_processed_witness :
  exists results s',
    process_order nat nat (list string)
      (logging_host (JObj two_part_order) true)
      (fun _ => "") (fun p => p) "order.json" ([], [])
    = (Ok (summary "ORD-1" results), s')
    /\ attempted_in_order nat nat (list string)
         (logging_host (JObj two_part_order) true)
         (fun _ => "") (fun p => p)
         2 [panel; door "door-2"] 0
         (["Loading order from: order.json";
           "Processing order: ORD-1 with 2 component(s)"],
          [Called nat nat unit
             (LoggerInfo nat nat "Loading order from: order.json") (Ok tt);
           Called nat nat json (ReadOrderFile nat nat "order.json")
             (Ok (JObj two_part_order));
           Called nat nat unit
             (LoggerInfo nat nat
                "Processing order: ORD-1 with 2 component(s)") (Ok tt)])
         results s'
    /\ length results = 2.
Proof.
  destruct (accepted_order_is_processed nat nat (list string)
              (logging_host (JObj two_part_order) true)
              (fun _ => "") (fun p => p) ascii_runtime "order.json" [] []
              two_part_order eq_refl)
    as [components [Hc [_ H]]].
  injection Hc as <-.
  apply (H ["Loading order from: order.json"]
           ["Loading order from: order.json"]
           ["Loading order from: order.json";
            "Processing order: ORD-1 with 2 component(s)"]);
    reflexivity.
Defined.

(** A component with an empty [parameters] object. *)
Definition bare_door : list (string * json) :=
  [("componentId", JStr "door-2"); ("fusionModelPath", JStr "door.f3d");
   ("parameters", JObj [])].

Lemma component_without_file_or_parameters_fails_witness :
  succeeded
    (fst (run nat nat unit
            (process_component nat nat unit (scripted_host JNull true)
               (fun _ => "") (fun p => p) (JObj bare_door) 1 1) tt)) = false
  /\ work nat nat
       (snd (snd (run nat nat unit
                    (process_component nat nat unit (scripted_host JNull true)
                       (fun _ => "") (fun p => p) (JObj bare_door) 1 1) tt)))
     = [].
Proof.
  apply (component_without_file_or_parameters_fails nat nat unit
           (scripted_host JNull true) (fun _ => "") (fun p => p)
           bare_door 1 1 tt).
  right. reflexivity.
Defined.

(** The validator has no objection to that component. *)
Example bare_door_passes_validation :
  Validator._validate_component (JObj bare_door) 0 = [].
Proof. reflexivity. Qed.

End OrderProcessorWitnesses.

(* ===================================================================== *)
(** * order_processor.py: open_document *)
(* ===================================================================== *)

Module DocumentOpening.

(** [s.replace(old, new)] for a non-empty [old]: the occurrences of
    [old] are taken from the left, without overlap; [skip] counts the
    characters of an occurrence still to be dropped. *)
Fixpoint replace_from (skip : nat) (old new s : string) : string :=
  match s with
  | EmptyString => EmptyString
  | String c r =>
      match skip with
      | S k => replace_from k old new r
      | 0 =>
          if String.prefix old s
          then new ++ replace_from (String.length old - 1) old new r
          else String c (replace_from 0 old new r)
      end
  end.

Definition replace (old new s : string) : string := replace_from 0 old new s.

(** What [open_document] leaves behind: lines of the log, message
    boxes, and the files it asked the host to open. *)
Inductive event :=
| LogInfo (message : string)
| LogError (message : string)
| LogException (message : string)
| Box (text title : string)
| Opened (file_path : string).

Section WithHost.

Variable Document : Type.
(** [doc.name]. *)
Variable doc_name : Document -> string.
Variable repr : json -> string.
(** [os.path.basename] and [os.path.exists] on a string. *)
Variable basename : string -> string.
Variable path_exists : string -> bool.
(** [self.app.documents.open]: a document, nothing, or an exception. *)
Variable open_file : string -> result (option Document).

(** [doc.name == file_name or doc.name == file_name.replace('.f3d', '')]. *)
Definition same_name (file_name : string) (doc : Document) : bool :=
  String.eqb (doc_name doc) file_name
  || String.eqb (doc_name doc) (replace ".f3d" "" file_name).

(** The [except] clause. *)
Definition open_failed (file_path : json) (e : exn) (log : list event)
    : (bool * option Document) * list event :=
  ((false, None),
   log +++ [LogException "Failed to open document";
            Box ("Failed to open document:" ++ nl ++ py_str repr file_path
                 ++ nl ++ nl ++ exn_text e) "Error"]).

(** [documents] is [self.app.documents] as the loop reads it; the
    logger and the message box are taken not to fail. *)
Definition open_document (documents : result (list Document))
    (file_path : json) : (bool * option Document) * list event :=
  match file_path with
  | JStr path =>
      let file_name := basename path in
      let log := [LogInfo ("Looking for open document: " ++ file_name)] in
      match documents with
      | Raise e => open_failed file_path e log
      | Ok docs =>
          match find (same_name file_name) docs with
          | Some doc =>
              ((true, Some doc),
               log +++ [LogInfo ("Found already open document: "
                                 ++ doc_name doc);
                        Box ("Using currently open document:" ++ nl
                             ++ doc_name doc) "Document Found"])
          | None =>
              let log :=
                log +++ [LogInfo ("Document not open, attempting to open: "
                                  ++ path)] in
              if negb (path_exists path) then
                ((false, None), log +++ [LogError ("File not found: " ++ path)])
              else
                let log := log +++ [Opened path] in
                match open_file path with
                | Ok (Some doc) =>
                    ((true, Some doc),
                     log +++ [LogInfo ("Successfully opened document: "
                                       ++ doc_name doc)])
                | Ok None => ((false, None), log)
                | Raise e => open_failed file_path e log
                end
          end
      end
  | _ =>
      open_failed file_path
        (mkExn TypeError
           ("expected str, bytes or os.PathLike object, not "
            ++ type_name file_path))
        []
  end.

End WithHost.

End DocumentOpening.

Section DocumentOpeningFacts.
Import DocumentOpening.

Variable Document : Type.
Variable doc_name : Document -> string.
Variable repr : json -> string.
Variable basename : string -> string.
Variable path_exists : string -> bool.
Variable open_file : string -> result (option Document).

#[local] Abbreviation open_doc :=
  (open_document Document doc_name repr basename path_exists open_file).
#[local] Abbreviation named := (same_name Document doc_name).

Lemma find_first {A} (f : A -> bool) (l : list A) :
  match find f l with
  | Some a =>
      exists before after,
        l = before +++ a :: after
        /\ f a = true
        /\ forallb (fun b => negb (f b)) before = true
  | None => forallb (fun b => negb (f b)) l = true
  end.
Proof.
  induction l as [|a r IH]; cbn [find forallb]; [reflexivity|].
  destruct (f a) eqn:E.
  - exists [], r. now repeat split.
  - cbn [negb andb]. destruct (find f r) as [a'|]; [|exact IH].
    destruct IH as [before [after [-> [H1 H2]]]].
    exists (a :: before), after. cbn [forallb app]. rewrite E, H2.
    now repeat split.
Qed.

(** X26.  [open_document] returns either [(False, None)] or [True]
    with a document.  The document is the first open document whose
    name is the file name of the path, or that name with every [.f3d]
    removed, and then the host is not asked to open anything; or, when
    no open document has such a name and the path exists, it is the
    document the host opened from the path. *)
Theorem open_document_result :
  forall (documents : result (list Document)) (file_path : json),
    let '((success, doc), log) := open_doc documents file_path in
    match doc with
    | Some d =>
        success = true
        /\ exists path docs,
             file_path = JStr path
             /\ documents = Ok docs
             /\ ((exists before after,
                     docs = before +++ d :: after
                     /\ named (basename path) d = true
                     /\ forallb (fun d' => negb (named (basename path) d'))
                                before = true
                     /\ ~ In (Opened path) log)
                 \/ (forallb (fun d' => negb (named (basename path) d'))
                             docs = true
                     /\ path_exists path = true
                     /\ open_file path = Ok (Some d)
                     /\ In (Opened path) log))
    | None => success = false
    end.
Proof.
  intros documents file_path. unfold open_document, open_failed.
  destruct file_path as [| | | |path| |]; try reflexivity.
  destruct documents as [docs|e]; [|reflexivity].
  pose proof (find_first (named (basename path)) docs) as F.
  destruct (find _ docs) as [d|].
  - split; [reflexivity|]. exists path, docs.
    split; [reflexivity | split; [reflexivity|left]].
    destruct F as [before [after [H1 [H2 H3]]]].
    exists before, after. repeat split; try assumption.
    cbn. intuition discriminate.
  - destruct (path_exists path) eqn:P; cbn [negb]; [|reflexivity].
    destruct (open_file path) as [[d|]|e] eqn:O; try reflexivity.
    split; [reflexivity|]. exists path, docs.
    split; [reflexivity | split; [reflexivity|right]].
    repeat split; try assumption. cbn. tauto.
Qed.

Lemma replace_absent old new s :
  contains old s = false -> replace old new s = s.
Proof.
  unfold replace. induction s as [|c r IH]; [reflexivity|].
  cbn [contains replace_from]. intros H.
  apply orb_false_elim in H as [H1 H2]. rewrite H1. now rewrite IH.
Qed.

Ltac chew :=
  repeat (cbn [String.prefix append] in *;
          match goal with
          | |- context [ascii_dec ?a ?b] => destruct (ascii_dec a b); subst
          | H : context [ascii_dec ?a ?b] |- _ =>
              destruct (ascii_dec a b); subst
          end);
  try discriminate; try reflexivity; try congruence.

Lemma no_straddle c r :
  String.prefix ".f3d" (String c r) = false ->
  String.prefix ".f3d" (String c (r ++ ".f3d")) = false.
Proof.
  intros H.
  destruct r as [|c1 [|c2 [|c3 r3]]]; chew.
  destruct r3; discriminate H.
Qed.

Lemma replace_extension name :
  contains ".f3d" name = false -> replace ".f3d" "" (name ++ ".f3d") = name.
Proof.
  unfold replace. induction name as [|c r IH]; [reflexivity|].
  cbn [contains]. intros H. apply orb_false_elim in H as [H1 H2].
  change (String c r ++ ".f3d") with (String c (r ++ ".f3d")).
  cbn [replace_from]. rewrite (no_straddle c r H1). now rewrite IH.
Qed.

(** X27.  A design that is open under the name [name] is used for a
    path whose file name is [name] or [name.f3d]: [open_document]
    succeeds with an open document and does not ask the host to open the
    file, whether or not the path exists. *)
Theorem open_design_is_reused :
  forall (docs : list Document) (path name : string) (d : Document),
    In d docs ->
    doc_name d = name ->
    contains ".f3d" name = false ->
    basename path = name \/ basename path = name ++ ".f3d" ->
    exists d',
      fst (open_doc (Ok docs) (JStr path)) = (true, Some d')
      /\ In d' docs
      /\ named (basename path) d' = true
      /\ ~ In (Opened path) (snd (open_doc (Ok docs) (JStr path))).
Proof.
  intros docs path name d Hin Hname Hfree Hbase.
  assert (Hd : named (basename path) d = true).
  { unfold same_name. rewrite Hname. destruct Hbase as [-> | ->].
    - now rewrite String.eqb_refl.
    - rewrite (replace_extension name Hfree), String.eqb_refl.
      apply orb_true_r. }
  unfold open_document.
  pose proof (find_first (named (basename path)) docs) as F.
  destruct (find _ docs) as [d'|].
  - destruct F as [before [after [H1 [H2 H3]]]].
    exists d'. cbn [fst snd]. repeat split; try assumption.
    + rewrite H1. apply in_or_app. right. now left.
    + cbn. intuition discriminate.
  - rewrite forallb_forall in F. specialize (F d Hin).
    rewrite Hd in F. discriminate.
Qed.

End DocumentOpeningFacts.

Section DocumentOpeningWitnesses.
Import DocumentOpening.

(** [replace] takes every occurrence, not only the extension. *)
Example replace_every_occurrence :
  replace ".f3d" "" "door.f3d.panel.f3d" = "door.panel".
Proof. reflexivity. Qed.

Lemma open_design_is_reused_witness :
  exists d',
    fst (open_document string (fun d => d) (fun _ => "") (fun p => p)
           (fun _ => false) (fun _ => Ok None)
           (Ok ["bracket"; "panel"]) (JStr "panel.f3d"))
    = (true, Some d')
    /\ In d' ["bracket"; "panel"]
    /\ same_name string (fun d => d) ((fun p : string => p) "panel.f3d") d'
       = true
    /\ ~ In (Opened "panel.f3d")
         (snd (open_document string (fun d => d) (fun _ => "") (fun p => p)
                 (fun _ => false) (fun _ => Ok None)
                 (Ok ["bracket"; "panel"]) (JStr "panel.f3d"))).
Proof.
  apply (open_design_is_reused string (fun d => d) (fun _ => "")
           (fun p => p) (fun _ => false) (fun _ => Ok None)
           ["bracket"; "panel"] "panel.f3d" "panel" "panel").
  - cbn. tauto.
  - reflexivity.
  - reflexivity.
  - right. reflexivity.
Defined.

End DocumentOpeningWitnesses.
